(** * Message reconciliation: matcher, batch coordinator and report

    A shallow embedding of [services/messageMatcher.js] (normalizer, similarity
    scorer, matcher, batch loop) and of the report part of
    [services/verificationService.js], with the properties the specification
    states about them.

    JavaScript numbers are IEEE 754 binary64 values: they are embedded as
    Rocq's primitive floats, whose operations are the same binary64
    operations.  Strings are sequences of code units; the embedding works on
    the code units U+0000..U+00FF, one [ascii] each. *)

From Stdlib Require Import ZArith List String Ascii Bool Lia Permutation.
From Stdlib Require Import Floats Uint63 DecimalString.
Import ListNotations.

Set Implicit Arguments.
Set Warnings "-inexact-float".

(** ** JavaScript values used by the services *)

Module JS.

(** What a [throw] carries: the [TypeError] of a method call on [null] or
    [undefined], and the [RangeError] of [toISOString] on an invalid date. *)
Inductive JsError : Type :=
| TypeError (msg : string)
| RangeError (msg : string).

Inductive Result (A : Type) : Type :=
| Ok (a : A)
| Throw (e : JsError).

Arguments Ok {A} a.
Arguments Throw {A} e.

Definition bind {A B : Type} (r : Result A) (k : A -> Result B) : Result B :=
  match r with
  | Ok a => k a
  | Throw e => Throw e
  end.

Notation "x <- r ;; k" := (bind r (fun x => k))
  (at level 61, r at next level, right associativity).

(** A text field of a record: a string, or [null], or absent. *)
Inductive JsText : Type :=
| JUndefined
| JNull
| JString (s : string).

(** [ToBoolean]: [undefined], [null] and the empty string are falsy. *)
Definition truthy (v : JsText) : bool :=
  match v with
  | JString EmptyString => false
  | JString _ => true
  | _ => false
  end.

(** [a || b] on text fields. *)
Definition orText (a b : JsText) : JsText := if truthy a then a else b.

(** [a === 'literal'] *)
Definition strictEqString (v : JsText) (lit : string) : bool :=
  match v with
  | JString s => String.eqb s lit
  | _ => false
  end.

(** A [Date] object: its time value is an integral number of milliseconds, or
    [NaN] for an invalid date. *)
Inductive JsDate : Type :=
| InvalidDate
| DateAt (ms : Z).

(** A date field: a [Date] object, or absent.  An object is always truthy. *)
Definition orDate (a b : option JsDate) : option JsDate :=
  match a with
  | Some d => Some d
  | None => b
  end.

(** [new Date(v)]: a copy of the date, and an invalid date for [undefined]. *)
Definition newDate (v : option JsDate) : JsDate :=
  match v with
  | Some d => d
  | None => InvalidDate
  end.

(** [a > b] on dates compares the time values; a comparison with [NaN] is
    false. *)
Definition dateGt (a b : JsDate) : bool :=
  match a, b with
  | DateAt x, DateAt y => (y <? x)%Z
  | _, _ => false
  end.

(** *** String methods *)

Definition between (lo hi n : nat) : bool := (lo <=? n) && (n <=? hi).

(** The class [\s] (and the characters [trim] removes) below U+0100:
    TAB, LF, VT, FF, CR, SPACE and NO-BREAK SPACE. *)
Definition isWhiteSpace (c : ascii) : bool :=
  let n := nat_of_ascii c in
  between 9 13 n || (n =? 32) || (n =? 160).

(** The class [\w]: [A-Za-z0-9_]. *)
Definition isWordChar (c : ascii) : bool :=
  let n := nat_of_ascii c in
  between 48 57 n || between 65 90 n || (n =? 95) || between 97 122 n.

(** [toLowerCase] on one code unit: [A-Z] and the upper-case letters of
    U+00C0..U+00DE (U+00D7, the multiplication sign, has no case). *)
Definition toLowerCaseChar (c : ascii) : ascii :=
  let n := nat_of_ascii c in
  if between 65 90 n || (between 192 222 n && negb (n =? 215))
  then ascii_of_nat (n + 32)
  else c.

Fixpoint toLowerCase (s : string) : string :=
  match s with
  | EmptyString => EmptyString
  | String c r => String (toLowerCaseChar c) (toLowerCase r)
  end.

(** [s.replace(/\s+/g, ' ')]: every maximal run of white space becomes one
    space.  [inRun] tells that the previous character was white space. *)
Fixpoint collapseFrom (inRun : bool) (s : string) : string :=
  match s with
  | EmptyString => EmptyString
  | String c r =>
      if isWhiteSpace c
      then if inRun then collapseFrom true r
           else String " " (collapseFrom true r)
      else String c (collapseFrom false r)
  end.

Definition replaceWhitespaceRuns (s : string) : string := collapseFrom false s.

(** [s.replace(/[^\w\s]/g, '')] *)
Fixpoint removeNonWord (s : string) : string :=
  match s with
  | EmptyString => EmptyString
  | String c r =>
      if isWordChar c || isWhiteSpace c
      then String c (removeNonWord r)
      else removeNonWord r
  end.

(** [s.replace(/\s+/g, '')] *)
Fixpoint removeWhitespace (s : string) : string :=
  match s with
  | EmptyString => EmptyString
  | String c r =>
      if isWhiteSpace c then removeWhitespace r
      else String c (removeWhitespace r)
  end.

Fixpoint trimStart (s : string) : string :=
  match s with
  | EmptyString => EmptyString
  | String c r => if isWhiteSpace c then trimStart r else s
  end.

Fixpoint trimEnd (s : string) : string :=
  match s with
  | EmptyString => EmptyString
  | String c r =>
      match trimEnd r with
      | EmptyString => if isWhiteSpace c then EmptyString else String c EmptyString
      | r' => String c r'
      end
  end.

Definition trim (s : string) : string := trimEnd (trimStart s).

(** *** Numbers *)

(** An array length or a counter as a number.  Lengths and counters stay
    below 2^53, where the conversion is exact. *)
Definition ofZ (z : Z) : float := PrimFloat.of_uint63 (Uint63.of_Z z).
Definition ofNat (n : nat) : float := ofZ (Z.of_nat n).

(** Decimal digits of a natural number, without leading zeros (["0"] for 0). *)
Definition digitsOf (z : Z) : string := NilZero.string_of_uint (N.to_uint (Z.to_N z)).

Fixpoint zeros (n : nat) : string :=
  match n with
  | O => EmptyString
  | S k => String "0" (zeros k)
  end.

(** The integer [n] for which [n / 10^f - m * 2^e] is closest to zero, the
    larger one when there are two. *)
Definition nearestScaled (f : nat) (m : positive) (e : Z) : Z :=
  let num := (Zpos m * 10 ^ Z.of_nat f)%Z in
  if (0 <=? e)%Z then (num * 2 ^ e)%Z
  else ((2 * num + 2 ^ (- e)) / (2 * 2 ^ (- e)))%Z.

(** Step 11 of [Number.prototype.toFixed]: the digits of [n] with a point
    before the last [f] of them. *)
Definition fixedDigits (f : nat) (n : Z) : string :=
  let m := digitsOf n in
  let m := if (String.length m <=? f)%nat
           then (zeros (f + 1 - String.length m) ++ m)%string else m in
  let k := String.length m in
  match f with
  | O => m
  | _ => (substring 0 (k - f) m ++ "." ++ substring (k - f) f m)%string
  end.

(** The exact value of a finite float that is an integer (exponent >= 0). *)
Definition integerValue (m : positive) (e : Z) : Z := (Zpos m * 2 ^ e)%Z.

(** The float nearest to an integer. *)
Definition nearestFloat (z : Z) : float :=
  SF2Prim (binary_normalize prec emax z 0 false).

(** [Number::toString] for a finite [x >= 10^21], whose value is the integer
    [v]: the shortest digit string [s] (of [k] digits) with
    [s * 10^(n-k)] rounding to [x], written in exponent notation since
    [n > 21]. *)
Definition shortestCandidate (x : float) (v : Z) (n k : nat) : option Z :=
  let scale := (10 ^ Z.of_nat (n - k))%Z in
  let inRange s := ((10 ^ Z.of_nat (k - 1) <=? s) && (s <? 10 ^ Z.of_nat k))%Z in
  let good s := inRange s && PrimFloat.eqb (nearestFloat (s * scale)) x in
  let lo := (v / scale)%Z in
  let hi := (lo + 1)%Z in
  match good lo, good hi with
  | true, true =>
      if (v - lo * scale <=? hi * scale - v)%Z then Some lo else Some hi
  | true, false => Some lo
  | false, true => Some hi
  | false, false => None
  end.

Fixpoint shortestFrom (x : float) (v : Z) (nd : nat) (k fuel : nat)
  : option (Z * nat) :=
  match fuel with
  | O => None
  | S fuel' =>
      match shortestCandidate x v nd k with
      | Some s => Some (s, nd)
      | None =>
          match shortestCandidate x v (S nd) k with
          | Some s => Some (s, S nd)
          | None => shortestFrom x v nd (S k) fuel'
          end
      end
  end.

Definition exponentString (v : Z) (x : float) : string :=
  let nd := String.length (digitsOf v) in
  match shortestFrom x v nd 1 17 with
  | Some (s, n) =>
      let d := digitsOf s in
      let e := digitsOf (Z.of_nat (n - 1)) in
      match d with
      | String c EmptyString => (d ++ "e+" ++ e)%string
      | String c r => (String c ("." ++ r) ++ "e+" ++ e)%string
      | EmptyString => d
      end
  | None => digitsOf v
  end.

(** [x.toFixed(f)], for [0 <= f <= 100]. *)
Definition toFixed (x : float) (f : nat) : string :=
  match Prim2SF x with
  | S754_nan => "NaN"
  | S754_infinity false => "Infinity"
  | S754_infinity true => "-Infinity"
  | S754_zero _ => fixedDigits f 0
  | S754_finite s m e =>
      let sign := if s then "-"%string else ""%string in
      if (PrimFloat.leb 1e21 (PrimFloat.abs x))
      then (sign ++ exponentString (integerValue m e) (PrimFloat.abs x))%string
      else (sign ++ fixedDigits f (nearestScaled f m e))%string
  end.

(** *** Dates *)

Definition pad (width : nat) (z : Z) : string :=
  let d := digitsOf z in (zeros (width - String.length d) ++ d)%string.

(** The calendar date of a day number (days since 1970-01-01) in the
    proleptic Gregorian calendar. *)
Definition civilFromDays (days : Z) : Z * Z * Z :=
  let z := (days + 719468)%Z in
  let era := (z / 146097)%Z in
  let doe := (z - era * 146097)%Z in
  let yoe := ((doe - doe / 1460 + doe / 36524 - doe / 146096) / 365)%Z in
  let doy := (doe - (365 * yoe + yoe / 4 - yoe / 100))%Z in
  let mp := ((5 * doy + 2) / 153)%Z in
  let d := (doy - (153 * mp + 2) / 5 + 1)%Z in
  let m := if (mp <? 10)%Z then (mp + 3)%Z else (mp - 9)%Z in
  let y := (yoe + era * 400 + (if (m <=? 2)%Z then 1 else 0))%Z in
  (y, m, d).

(** [date.toISOString().split('T')[0]]; [toISOString] throws a [RangeError]
    on an invalid date. *)
Definition isoDatePart (d : JsDate) : Result string :=
  match d with
  | InvalidDate => Throw (RangeError "Invalid time value")
  | DateAt ms =>
      let '(y, m, dd) := civilFromDays (ms / 86400000) in
      let year :=
        if ((0 <=? y) && (y <=? 9999))%Z then pad 4 y
        else if (y <? 0)%Z then ("-" ++ pad 6 (- y))%string
        else ("+" ++ pad 6 y)%string in
      Ok (year ++ "-" ++ pad 2 m ++ "-" ++ pad 2 dd)%string
  end.

End JS.

(** ** The [string-similarity] package *)

Module StringSimilarity.
Import JS.

(** The two-character substrings of a string, in order:
    [first.substring(i, i + 2)] for [0 <= i < first.length - 1]. *)
Fixpoint bigrams (s : string) : list string :=
  match s with
  | String a (String b _ as r) => String a (String b EmptyString) :: bigrams r
  | _ => []
  end.

(** A [Map] from bigrams to counts, in insertion order. *)
Definition BigramMap := list (string * nat).

Fixpoint mapGet (m : BigramMap) (k : string) : option nat :=
  match m with
  | [] => None
  | (k', v) :: r => if String.eqb k' k then Some v else mapGet r k
  end.

Fixpoint mapSet (m : BigramMap) (k : string) (v : nat) : BigramMap :=
  match m with
  | [] => [(k, v)]
  | (k', v') :: r =>
      if String.eqb k' k then (k', v) :: r else (k', v') :: mapSet r k v
  end.

(** The first loop: count the bigrams of [first]. *)
Definition countBigrams (first : string) : BigramMap :=
  fold_left
    (fun m bigram =>
       let count := match mapGet m bigram with
                    | Some c => c + 1
                    | None => 1
                    end in
       mapSet m bigram count)
    (bigrams first) [].

(** The second loop: each bigram of [second] consumes one occurrence of the
    same bigram of [first]. *)
Definition intersect (firstBigrams : BigramMap) (second : string)
  : BigramMap * nat :=
  fold_left
    (fun '(m, intersectionSize) bigram =>
       let count := match mapGet m bigram with
                    | Some c => c
                    | None => 0
                    end in
       if 0 <? count
       then (mapSet m bigram (count - 1), S intersectionSize)
       else (m, intersectionSize))
    (bigrams second) (firstBigrams, 0).

(** Modelled from the spec: [compareTwoStrings] belongs to the npm package
    [string-similarity], which is not part of the sources.  The specification
    describes it as a Dice coefficient over character bigrams that is 1.0 for
    identical strings; the model is the package's function: white space is
    removed, equal strings score 1, a string of fewer than two characters
    scores 0 against a different one, and otherwise the score is twice the
    number of shared bigrams over the number of bigrams of both strings. *)
Definition compareTwoStrings (first second : string) : float :=
  let first := removeWhitespace first in
  let second := removeWhitespace second in
  if String.eqb first second then 1%float
  else if (String.length first <? 2) || (String.length second <? 2) then 0%float
  else
    let '(_, intersectionSize) := intersect (countBigrams first) second in
    (2.0 * ofNat intersectionSize
     / ofZ (Z.of_nat (String.length first) + Z.of_nat (String.length second) - 2))%float.

End StringSimilarity.

(** ** [config/constants.js] *)

Module Constants.

Module MATCHING.
Definition SIMILARITY_THRESHOLD : float := 0.90%float.
Definition MAX_SIMILARITY_THRESHOLD : float := 1.0%float.
Definition BATCH_SIZE : Z := 100.
End MATCHING.

Module MESSAGE_TYPES.
Definition FIRST_MESSAGE : string := "first_message".
Definition FOLLOW_UP : string := "follow_up".
Definition PAYMENT_REMINDER : string := "payment_reminder".
Definition USER_REPLY : string := "user_reply".
End MESSAGE_TYPES.

End Constants.

(** ** Records *)

(** A document of the [Messages] collection, as [find(...).lean()] returns
    it; only the fields the matcher reads. *)
Module DbMessage.
Record t : Type := Build {
  _id : string;
  message : JS.JsText;
  phone_number : string;
  sent_date : option JS.JsDate;
  role : string;
  type_of_message : JS.JsText
}.
End DbMessage.

(** A message of the provider, after [whatsappApi]'s transformation; only
    the fields the matcher reads. *)
Module ApiMessage.
Record t : Type := Build {
  body : JS.JsText;
  message : JS.JsText;
  timestamp : option JS.JsDate;
  sent_date : option JS.JsDate
}.
End ApiMessage.

(** The [dbMessage] object of an outcome. *)
Module DbRef.
Record t : Type := Build {
  id : string;
  message : JS.JsText;
  phoneNumber : string;
  sentDate : option JS.JsDate;
  role : string;
  type : JS.JsText
}.
End DbRef.

(** The [apiMessage] object of a matched outcome. *)
Module ApiRef.
Record t : Type := Build {
  message : JS.JsText;
  timestamp : option JS.JsDate
}.
End ApiRef.

Module Matched.
Record t : Type := Build {
  dbMessage : DbRef.t;
  apiMessage : ApiRef.t;
  confidenceScore : float;
  similarityPercentage : string
}.
End Matched.

Module Unmatched.
Record t : Type := Build {
  dbMessage : DbRef.t;
  bestMatchScore : float;
  reason : string
}.
End Unmatched.

Module FirstMessageStats.
Record t : Type := Build {
  total : nat;
  matched : nat;
  unmatched : nat
}.
End FirstMessageStats.

(** [averageConfidence] starts as the number 0 and becomes a string such as
    ["95.00%"] once there is a match. *)
Inductive NumberOrString : Type :=
| JNumber (x : float)
| JStr (s : string).

Module Statistics.
Record t : Type := Build {
  totalDbMessages : nat;
  totalApiMessages : nat;
  matchedCount : nat;
  unmatchedCount : nat;
  averageConfidence : NumberOrString;
  firstMessageStats : FirstMessageStats.t
}.
End Statistics.

Module Results.
Record t : Type := Build {
  matched : list Matched.t;
  unmatched : list Unmatched.t;
  statistics : Statistics.t
}.
End Results.

(** ** [services/messageMatcher.js] *)

Module MessageMatcher.
Import JS Constants.

(** [normalizeMessage] on a string receiver. *)
Definition normalizeString (message : string) : string :=
  trim (removeNonWord (replaceWhitespaceRuns (toLowerCase message))).

(** [normalizeMessage(message)]: the method chain starts with a property
    access on [message], which throws on [null] and [undefined]. *)
Definition normalizeMessage (message : JsText) : Result string :=
  match message with
  | JString s => Ok (normalizeString s)
  | JNull =>
      Throw (TypeError "Cannot read properties of null (reading 'toLowerCase')")
  | JUndefined =>
      Throw (TypeError "Cannot read properties of undefined (reading 'toLowerCase')")
  end.

Section Matcher.

(** [stringSimilarity.compareTwoStrings] *)
Variable compareTwoStrings : string -> string -> float.

Definition calculateSimilarity (dbMessage apiMessage : JsText) : Result float :=
  if negb (truthy dbMessage) || negb (truthy apiMessage) then Ok 0%float
  else
    normalizedDb <- normalizeMessage dbMessage ;;
    normalizedApi <- normalizeMessage apiMessage ;;
    Ok (compareTwoStrings normalizedDb normalizedApi).

(** The local variables of one iteration of the outer loop. *)
Record Best : Type := {
  bestMatch : option ApiMessage.t;
  bestScore : float;
  bestIndex : Z
}.

Definition noBest : Best :=
  {| bestMatch := None; bestScore := 0%float; bestIndex := (-1)%Z |}.

(** [matchedApiIndices], a [Set] of indices in insertion order. *)
Definition setHas (s : list Z) (i : Z) : bool := existsb (Z.eqb i) s.
Definition setAdd (s : list Z) (i : Z) : list Z :=
  if setHas s i then s else s ++ [i].

(** The inner loop [for (let i = 0; i < apiMessagesCopy.length; i++)], from
    index [i] on; [rest] is the part of the pool from that index. *)
Fixpoint findBestFrom (dbMsg : DbMessage.t) (matchedApiIndices : list Z)
    (i : nat) (rest : list ApiMessage.t) (b : Best) : Result Best :=
  match rest with
  | [] => Ok b
  | apiMsg :: rest' =>
      if setHas matchedApiIndices (Z.of_nat i)
      then findBestFrom dbMsg matchedApiIndices (S i) rest' b
      else
        let dbDate := newDate (DbMessage.sent_date dbMsg) in
        let apiDate :=
          newDate (orDate (ApiMessage.timestamp apiMsg)
                          (ApiMessage.sent_date apiMsg)) in
        if dateGt dbDate apiDate
        then findBestFrom dbMsg matchedApiIndices (S i) rest' b
        else
          similarity <-
            calculateSimilarity (DbMessage.message dbMsg)
              (orText (ApiMessage.message apiMsg) (ApiMessage.body apiMsg)) ;;
          findBestFrom dbMsg matchedApiIndices (S i) rest'
            (if (bestScore b <? similarity)%float
                && (MATCHING.SIMILARITY_THRESHOLD <=? similarity)%float
             then {| bestMatch := Some apiMsg;
                     bestScore := similarity;
                     bestIndex := Z.of_nat i |}
             else b)
  end.

Definition dbRef (dbMsg : DbMessage.t) : DbRef.t :=
  {| DbRef.id := DbMessage._id dbMsg;
     DbRef.message := DbMessage.message dbMsg;
     DbRef.phoneNumber := DbMessage.phone_number dbMsg;
     DbRef.sentDate := DbMessage.sent_date dbMsg;
     DbRef.role := DbMessage.role dbMsg;
     DbRef.type := DbMessage.type_of_message dbMsg |}.

Definition apiRef (bestMatch : ApiMessage.t) : ApiRef.t :=
  {| ApiRef.message :=
       orText (ApiMessage.message bestMatch) (ApiMessage.body bestMatch);
     ApiRef.timestamp :=
       orDate (ApiMessage.timestamp bestMatch) (ApiMessage.sent_date bestMatch) |}.

Definition isFirstMessage (dbMsg : DbMessage.t) : bool :=
  strictEqString (DbMessage.type_of_message dbMsg) MESSAGE_TYPES.FIRST_MESSAGE.

(** The state the outer loop of [matchMessages] works on: the [results]
    object and the set [matchedApiIndices]. *)
Record LoopState : Type := {
  results : Results.t;
  matchedApiIndices : list Z
}.

Definition emptyStatistics (totalDb totalApi : nat) : Statistics.t :=
  {| Statistics.totalDbMessages := totalDb;
     Statistics.totalApiMessages := totalApi;
     Statistics.matchedCount := 0;
     Statistics.unmatchedCount := 0;
     Statistics.averageConfidence := JNumber 0%float;
     Statistics.firstMessageStats :=
       {| FirstMessageStats.total := 0;
          FirstMessageStats.matched := 0;
          FirstMessageStats.unmatched := 0 |} |}.

Definition emptyResults (totalDb totalApi : nat) : Results.t :=
  {| Results.matched := [];
     Results.unmatched := [];
     Results.statistics := emptyStatistics totalDb totalApi |}.

(** [firstMessageStats.total++] and its siblings, done when [dbMsg] is a
    first message. *)
Definition bumpFirst (first : bool) (dTotal dMatched dUnmatched : nat)
    (f : FirstMessageStats.t) : FirstMessageStats.t :=
  if first
  then {| FirstMessageStats.total := FirstMessageStats.total f + dTotal;
          FirstMessageStats.matched := FirstMessageStats.matched f + dMatched;
          FirstMessageStats.unmatched := FirstMessageStats.unmatched f + dUnmatched |}
  else f.

(** The [if] branch of lines 96-120: record a match. *)
Definition pushMatched (dbMsg : DbMessage.t) (b : Best) (apiMsg : ApiMessage.t)
    (st : LoopState) : LoopState :=
  let r := results st in
  let s := Results.statistics r in
  {| results :=
       {| Results.matched :=
            Results.matched r ++
            [ {| Matched.dbMessage := dbRef dbMsg;
                 Matched.apiMessage := apiRef apiMsg;
                 Matched.confidenceScore := bestScore b;
                 Matched.similarityPercentage :=
                   (toFixed (bestScore b * 100)%float 2 ++ "%")%string |} ];
          Results.unmatched := Results.unmatched r;
          Results.statistics :=
            {| Statistics.totalDbMessages := Statistics.totalDbMessages s;
               Statistics.totalApiMessages := Statistics.totalApiMessages s;
               Statistics.matchedCount := Statistics.matchedCount s + 1;
               Statistics.unmatchedCount := Statistics.unmatchedCount s;
               Statistics.averageConfidence := Statistics.averageConfidence s;
               Statistics.firstMessageStats :=
                 bumpFirst (isFirstMessage dbMsg) 0 1 0
                   (Statistics.firstMessageStats s) |} |};
     matchedApiIndices := setAdd (matchedApiIndices st) (bestIndex b) |}.

(** The [else] branch of lines 121-140: record a miss. *)
Definition pushUnmatched (dbMsg : DbMessage.t) (b : Best) (st : LoopState)
  : LoopState :=
  let r := results st in
  let s := Results.statistics r in
  {| results :=
       {| Results.matched := Results.matched r;
          Results.unmatched :=
            Results.unmatched r ++
            [ {| Unmatched.dbMessage := dbRef dbMsg;
                 Unmatched.bestMatchScore := bestScore b;
                 Unmatched.reason :=
                   if (0 <? bestScore b)%float
                   then "Below similarity threshold"%string
                   else "No matching message found"%string |} ];
          Results.statistics :=
            {| Statistics.totalDbMessages := Statistics.totalDbMessages s;
               Statistics.totalApiMessages := Statistics.totalApiMessages s;
               Statistics.matchedCount := Statistics.matchedCount s;
               Statistics.unmatchedCount := Statistics.unmatchedCount s + 1;
               Statistics.averageConfidence := Statistics.averageConfidence s;
               Statistics.firstMessageStats :=
                 bumpFirst (isFirstMessage dbMsg) 0 0 1
                   (Statistics.firstMessageStats s) |} |};
     matchedApiIndices := matchedApiIndices st |}.

(** Lines 68-71: count a first message. *)
Definition trackFirst (dbMsg : DbMessage.t) (st : LoopState) : LoopState :=
  let r := results st in
  let s := Results.statistics r in
  {| results :=
       {| Results.matched := Results.matched r;
          Results.unmatched := Results.unmatched r;
          Results.statistics :=
            {| Statistics.totalDbMessages := Statistics.totalDbMessages s;
               Statistics.totalApiMessages := Statistics.totalApiMessages s;
               Statistics.matchedCount := Statistics.matchedCount s;
               Statistics.unmatchedCount := Statistics.unmatchedCount s;
               Statistics.averageConfidence := Statistics.averageConfidence s;
               Statistics.firstMessageStats :=
                 bumpFirst (isFirstMessage dbMsg) 1 0 0
                   (Statistics.firstMessageStats s) |} |};
     matchedApiIndices := matchedApiIndices st |}.

(** One iteration of [for (const dbMsg of dbMessages)]. *)
Definition processDbMessage (apiMessagesCopy : list ApiMessage.t)
    (st : LoopState) (dbMsg : DbMessage.t) : Result LoopState :=
  let st := trackFirst dbMsg st in
  b <- findBestFrom dbMsg (matchedApiIndices st) 0 apiMessagesCopy noBest ;;
  match bestMatch b with
  | Some apiMsg =>
      if (MATCHING.SIMILARITY_THRESHOLD <=? bestScore b)%float
      then Ok (pushMatched dbMsg b apiMsg st)
      else Ok (pushUnmatched dbMsg b st)
  | None => Ok (pushUnmatched dbMsg b st)
  end.

Fixpoint matchLoop (apiMessagesCopy : list ApiMessage.t) (st : LoopState)
    (dbMessages : list DbMessage.t) : Result LoopState :=
  match dbMessages with
  | [] => Ok st
  | dbMsg :: rest =>
      st' <- processDbMessage apiMessagesCopy st dbMsg ;;
      matchLoop apiMessagesCopy st' rest
  end.

(** [(totalConfidence / matched.length * 100).toFixed(2) + '%'] when there
    is a match; the statistic is left as it is otherwise. *)
Definition withAverageConfidence (r : Results.t) : Results.t :=
  match Results.matched r with
  | [] => r
  | _ =>
      let totalConfidence :=
        fold_left (fun sum m => (sum + Matched.confidenceScore m)%float)
                  (Results.matched r) 0%float in
      let s := Results.statistics r in
      {| Results.matched := Results.matched r;
         Results.unmatched := Results.unmatched r;
         Results.statistics :=
           {| Statistics.totalDbMessages := Statistics.totalDbMessages s;
              Statistics.totalApiMessages := Statistics.totalApiMessages s;
              Statistics.matchedCount := Statistics.matchedCount s;
              Statistics.unmatchedCount := Statistics.unmatchedCount s;
              Statistics.averageConfidence :=
                JStr (toFixed (totalConfidence
                               / ofNat (List.length (Results.matched r))
                               * 100)%float 2 ++ "%")%string;
              Statistics.firstMessageStats := Statistics.firstMessageStats s |} |}
  end.

Definition initialState (dbMessages : list DbMessage.t)
    (apiMessages : list ApiMessage.t) : LoopState :=
  {| results := emptyResults (List.length dbMessages) (List.length apiMessages);
     matchedApiIndices := [] |}.

(** [matchMessages(dbMessages, apiMessages)].  The log line at its end has no
    effect on the result. *)
Definition matchMessages (dbMessages : list DbMessage.t)
    (apiMessages : list ApiMessage.t) : Result Results.t :=
  let apiMessagesCopy := apiMessages in
  st <- matchLoop apiMessagesCopy (initialState dbMessages apiMessages)
          dbMessages ;;
  Ok (withAverageConfidence (results st)).

(** [array.slice(start, end)] with integral arguments: a negative index
    counts from the end, and both are clamped to the array. *)
Definition slice {A : Type} (l : list A) (start end_ : Z) : list A :=
  let len := Z.of_nat (List.length l) in
  let k := if (start <? 0)%Z then Z.max (len + start) 0 else Z.min start len in
  let final := if (end_ <? 0)%Z then Z.max (len + end_) 0 else Z.min end_ len in
  firstn (Z.to_nat (final - k)) (skipn (Z.to_nat k) l).

(** Lines 188-197: merge the results of one batch into [allResults]. *)
Definition mergeBatch (allResults batchResults : Results.t) : Results.t :=
  let s := Results.statistics allResults in
  let bs := Results.statistics batchResults in
  let f := Statistics.firstMessageStats s in
  let bf := Statistics.firstMessageStats bs in
  {| Results.matched := Results.matched allResults ++ Results.matched batchResults;
     Results.unmatched :=
       Results.unmatched allResults ++ Results.unmatched batchResults;
     Results.statistics :=
       {| Statistics.totalDbMessages := Statistics.totalDbMessages s;
          Statistics.totalApiMessages := Statistics.totalApiMessages s;
          Statistics.matchedCount :=
            Statistics.matchedCount s + Statistics.matchedCount bs;
          Statistics.unmatchedCount :=
            Statistics.unmatchedCount s + Statistics.unmatchedCount bs;
          Statistics.averageConfidence := Statistics.averageConfidence s;
          Statistics.firstMessageStats :=
            {| FirstMessageStats.total :=
                 FirstMessageStats.total f + FirstMessageStats.total bf;
               FirstMessageStats.matched :=
                 FirstMessageStats.matched f + FirstMessageStats.matched bf;
               FirstMessageStats.unmatched :=
                 FirstMessageStats.unmatched f + FirstMessageStats.unmatched bf |} |} |}.

(** The loop [for (let i = 0; i < dbMessages.length; i += batchSize)], from
    the index [i] on.  [fuel] bounds the number of times the loop condition
    is evaluated; [None] means that the bound was reached before the loop
    ended. *)
Fixpoint batchLoop (fuel : nat) (dbMessages : list DbMessage.t)
    (apiMessages : list ApiMessage.t) (batchSize : Z) (i : Z)
    (allResults : Results.t) : option (Result Results.t) :=
  match fuel with
  | O => None
  | S fuel' =>
      if (i <? Z.of_nat (List.length dbMessages))%Z
      then
        let batch := slice dbMessages i (i + batchSize) in
        match matchMessages batch apiMessages with
        | Ok batchResults =>
            batchLoop fuel' dbMessages apiMessages batchSize (i + batchSize)%Z
              (mergeBatch allResults batchResults)
        | Throw e => Some (Throw e)
        end
      else Some (Ok allResults)
  end.

(** [batchMatchMessages(dbMessages, apiMessages, batchSize)], with an
    integral [batchSize]; [None] for [batchSize] is the omitted argument,
    which takes the default [MATCHING.BATCH_SIZE]. *)
Definition batchMatchMessages (fuel : nat) (dbMessages : list DbMessage.t)
    (apiMessages : list ApiMessage.t) (batchSize : option Z)
  : option (Result Results.t) :=
  let batchSize :=
    match batchSize with
    | Some b => b
    | None => MATCHING.BATCH_SIZE
    end in
  match
    batchLoop fuel dbMessages apiMessages batchSize 0
      (emptyResults (List.length dbMessages) (List.length apiMessages))
  with
  | Some (Ok allResults) => Some (Ok (withAverageConfidence allResults))
  | Some (Throw e) => Some (Throw e)
  | None => None
  end.

End Matcher.
End MessageMatcher.

(** ** [services/verificationService.js] *)

Module VerificationService.
Import JS Constants.

(** An entry of [apiResponse.messages]: the messages fetched for one phone
    number. *)
Record ApiResponseEntry : Type := {
  success : bool;
  messages : option (list ApiMessage.t)
}.

Record ApiResponse : Type := {
  responses : list ApiResponseEntry;
  errors : list string
}.

(** The part of [params] that reaches the code after the fetches.  An absent
    [matchingThreshold] or [includeDetails] takes its default. *)
Record Params : Type := {
  dateFrom : string;
  dateTo : string;
  matchingThreshold : option float;
  includeDetails : option bool
}.

Fixpoint flattenApiMessages (apiResponses : list ApiResponseEntry)
  : list ApiMessage.t :=
  match apiResponses with
  | [] => []
  | response :: rest =>
      match success response, messages response with
      | true, Some ms => ms ++ flattenApiMessages rest
      | _, _ => flattenApiMessages rest
      end
  end.

Record Group : Type := {
  count : nat;
  groupMessages : list Unmatched.t
}.

(** The object [grouped]: its own properties, in insertion order.  Keys that
    name a property of [Object.prototype] are outside the embedding. *)
Definition Grouped := list (string * Group).

Fixpoint groupAdd (grouped : Grouped) (key : string) (msg : Unmatched.t)
  : Grouped :=
  match grouped with
  | [] => [(key, {| count := 1; groupMessages := [msg] |})]
  | (k, g) :: rest =>
      if String.eqb k key
      then (k, {| count := count g + 1;
                  groupMessages := groupMessages g ++ [msg] |}) :: rest
      else (k, g) :: groupAdd rest key msg
  end.

Definition groupUnmatchedByType (unmatchedMessages : list Unmatched.t)
  : Grouped :=
  fold_left
    (fun grouped msg =>
       let type :=
         match orText (DbRef.type (Unmatched.dbMessage msg)) (JString "unknown") with
         | JString s => s
         | _ => "unknown"%string
         end in
       groupAdd grouped type msg)
    unmatchedMessages [].

Definition groupUnmatchedByPhoneNumber (unmatchedMessages : list Unmatched.t)
  : Grouped :=
  fold_left
    (fun grouped msg =>
       groupAdd grouped (DbRef.phoneNumber (Unmatched.dbMessage msg)) msg)
    unmatchedMessages [].

Fixpoint groupByDateFrom (grouped : Grouped)
    (unmatchedMessages : list Unmatched.t) : Result Grouped :=
  match unmatchedMessages with
  | [] => Ok grouped
  | msg :: rest =>
      date <- isoDatePart (newDate (DbRef.sentDate (Unmatched.dbMessage msg))) ;;
      groupByDateFrom (groupAdd grouped date msg) rest
  end.

Definition groupUnmatchedByDate (unmatchedMessages : list Unmatched.t)
  : Result Grouped :=
  groupByDateFrom [] unmatchedMessages.

Record FirstMessageSummary : Type := {
  fmTotal : nat;
  fmMatched : nat;
  fmUnmatched : nat;
  unmatchedRate : string
}.

Record Summary : Type := {
  verificationPeriod : string * string;
  phoneNumbersVerified : nat;
  phoneNumbers : list string;
  totalMessagesInDB : nat;
  totalMessagesInAPI : nat;
  matchedMessages : nat;
  unmatchedMessages : nat;
  matchRate : string;
  averageConfidence : NumberOrString;
  firstMessageStats : FirstMessageSummary
}.

Record Details : Type := {
  detailsMatched : list Matched.t;
  detailsUnmatched : list Unmatched.t
}.

Record Analysis : Type := {
  unmatchedByType : Grouped;
  unmatchedByPhoneNumber : Grouped;
  unmatchedByDate : Grouped
}.

Record Report : Type := {
  summary : Summary;
  details : option Details;
  analysis : option Analysis
}.

(** [(a / b * 100).toFixed(2) + '%'] *)
Definition percentage (a b : nat) : string :=
  (toFixed (ofNat a / ofNat b * 100)%float 2 ++ "%")%string.

Definition generateVerificationReport (matchResults : Results.t)
    (includeDetails : bool) (dateFrom dateTo : string)
    (phoneNumbers : list string) : Result Report :=
  let s := Results.statistics matchResults in
  let f := Statistics.firstMessageStats s in
  let summary :=
    {| verificationPeriod := (dateFrom, dateTo);
       phoneNumbersVerified := List.length phoneNumbers;
       phoneNumbers := phoneNumbers;
       totalMessagesInDB := Statistics.totalDbMessages s;
       totalMessagesInAPI := Statistics.totalApiMessages s;
       matchedMessages := Statistics.matchedCount s;
       unmatchedMessages := Statistics.unmatchedCount s;
       matchRate :=
         percentage (Statistics.matchedCount s) (Statistics.totalDbMessages s);
       averageConfidence := Statistics.averageConfidence s;
       firstMessageStats :=
         {| fmTotal := FirstMessageStats.total f;
            fmMatched := FirstMessageStats.matched f;
            fmUnmatched := FirstMessageStats.unmatched f;
            unmatchedRate :=
              if 0 <? FirstMessageStats.total f
              then percentage (FirstMessageStats.unmatched f)
                              (FirstMessageStats.total f)
              else "0%"%string |} |} in
  if includeDetails
  then
    byDate <- groupUnmatchedByDate (Results.unmatched matchResults) ;;
    Ok {| summary := summary;
          details :=
            Some {| detailsMatched := Results.matched matchResults;
                    detailsUnmatched := Results.unmatched matchResults |};
          analysis :=
            Some {| unmatchedByType :=
                      groupUnmatchedByType (Results.unmatched matchResults);
                    unmatchedByPhoneNumber :=
                      groupUnmatchedByPhoneNumber (Results.unmatched matchResults);
                    unmatchedByDate := byDate |} |}
  else Ok {| summary := summary; details := None; analysis := None |}.

Record Verification : Type := {
  verificationSuccess : bool;
  report : Report;
  verificationErrors : list string
}.

(** [verifyMessages(params)] after its three fetches, whose results are the
    arguments [numbersToVerify], [dbMessages] and [apiResponse].  The matcher
    is the module [messageMatcher], which scores with the package
    [string-similarity]. *)
Definition verifyMessages (fuel : nat) (params : Params)
    (numbersToVerify : list string) (dbMessages : list DbMessage.t)
    (apiResponse : ApiResponse) : option (Result Verification) :=
  let matchingThreshold :=
    match matchingThreshold params with
    | Some t => t
    | None => 0.9%float
    end in
  let includeDetails :=
    match includeDetails params with
    | Some b => b
    | None => true
    end in
  let allApiMessages := flattenApiMessages (responses apiResponse) in
  match
    MessageMatcher.batchMatchMessages StringSimilarity.compareTwoStrings fuel
      dbMessages allApiMessages None
  with
  | None => None
  | Some (Throw e) => Some (Throw e)
  | Some (Ok matchResults) =>
      Some (report <- generateVerificationReport matchResults includeDetails
                        (dateFrom params) (dateTo params) numbersToVerify ;;
            Ok {| verificationSuccess := true;
                  report := report;
                  verificationErrors := errors apiResponse |})
  end.

End VerificationService.

(** ** [services/whatsappApi.js]: gathering the provider's messages *)

Module WhatsAppApi.
Import JS.

(** A message as the provider returns it; only the fields that reach the
    matcher.  [rawTimestamp] is a number of seconds, or absent. *)
Record RawMessage : Type := {
  rawBody : JsText;
  rawTimestamp : option float
}.

(** A conversation of the 'recent chats' response. *)
Record Conversation : Type := {
  to : JsText;
  id : JsText;
  conversationMessages : option (list RawMessage)
}.

(** What [fetchMessagesByPhoneNumber] returns when it finds messages:
    [data.messages] and the user they were found with. *)
Record PhoneResponse : Type := {
  dataMessages : option (list RawMessage);
  responseUserId : string
}.

(** What a fetch gives: its value, or the message of the error it throws. *)
Inductive Fetched (A : Type) : Type :=
| Fetched_ok (a : A)
| Fetched_error (message : string).

Arguments Fetched_ok {A} a.
Arguments Fetched_error {A} message.

(** An element of [allMessages]. *)
Record Entry : Type := {
  phoneNumber : JsText;
  messages : list ApiMessage.t;
  success : bool
}.

(** An element of [errors]; its [success] is always [false]. *)
Record FetchError : Type := {
  errorUserId : option string;
  error : string
}.

(** [new Date(x)] for a number [x]: the time value is [x] truncated, and the
    date is invalid when [x] is not finite or beyond 8.64e15 ms. *)
Definition dateOfNumber (x : float) : JsDate :=
  match Prim2SF x with
  | S754_zero _ => DateAt 0
  | S754_finite s m e =>
      if (8640000000000000 <? PrimFloat.abs x)%float then InvalidDate
      else
        let v := if (0 <=? e)%Z then (Zpos m * 2 ^ e)%Z
                 else (Zpos m / 2 ^ (- e))%Z in
        DateAt (if s then (- v)%Z else v)
  | _ => InvalidDate
  end.

(** [ToBoolean] of a number or [undefined]. *)
Definition numberTruthy (x : option float) : bool :=
  match x with
  | Some v => negb (PrimFloat.is_nan v) && negb (v =? 0)%float
  | None => false
  end.

(** [msg.timestamp * 1000]; [undefined * 1000] is NaN. *)
Definition milliseconds (x : option float) : float :=
  match x with
  | Some v => (v * 1000)%float
  | None => PrimFloat.nan
  end.

(** [s.replace(pattern, replacement)] with a non-empty string pattern: the
    first occurrence is replaced. *)
Fixpoint replaceFirst (pattern replacement s : string) : string :=
  if String.prefix pattern s
  then (replacement ++ substring (String.length pattern)
                                 (String.length s - String.length pattern) s)%string
  else match s with
       | EmptyString => EmptyString
       | String c r => String c (replaceFirst pattern replacement r)
       end.

(** [conversation.to || conversation.id?.replace('@c.us', '')] *)
Definition phoneNumberOf (conversation : Conversation) : JsText :=
  if truthy (to conversation) then to conversation
  else match id conversation with
       | JString s => JString (replaceFirst "@c.us" "" s)
       | _ => JUndefined
       end.

(** [a === b] *)
Definition strictEq (a b : JsText) : bool :=
  match a, b with
  | JUndefined, JUndefined => true
  | JNull, JNull => true
  | JString s, JString t => String.eqb s t
  | _, _ => false
  end.

(** [phoneNumbers.includes(phoneNumber)], the list holding strings. *)
Definition includes (phoneNumbers : list string) (phoneNumber : JsText) : bool :=
  existsb (fun p => strictEq (JString p) phoneNumber) phoneNumbers.

(** [foundPhoneNumbers], a [Set] in insertion order. *)
Definition foundHas (found : list JsText) (p : JsText) : bool :=
  existsb (strictEq p) found.
Definition foundAdd (found : list JsText) (p : JsText) : list JsText :=
  if foundHas found p then found else found ++ [p].

(** The transformation of the messages of a recent chat (lines 203-213). *)
Definition transformRecent (msg : RawMessage) : ApiMessage.t :=
  {| ApiMessage.body := rawBody msg;
     ApiMessage.message := rawBody msg;
     ApiMessage.timestamp :=
       Some (dateOfNumber (milliseconds (rawTimestamp msg)));
     ApiMessage.sent_date := None |}.

(** The transformation of the messages found by phone number (lines
    253-263); [now] is the clock read by [new Date()]. *)
Definition transformByPhone (now : Z) (msg : RawMessage) : ApiMessage.t :=
  {| ApiMessage.body := rawBody msg;
     ApiMessage.message := rawBody msg;
     ApiMessage.timestamp :=
       Some (if numberTruthy (rawTimestamp msg)
             then dateOfNumber (milliseconds (rawTimestamp msg))
             else DateAt now);
     ApiMessage.sent_date := None |}.

(** [x?.map(f) || []] *)
Definition mapOrEmpty {A B : Type} (f : A -> B) (x : option (list A)) : list B :=
  match x with
  | Some l => map f l
  | None => []
  end.

Fixpoint mapIndexed {A B : Type} (f : nat -> A -> B) (i : nat) (l : list A)
  : list B :=
  match l with
  | [] => []
  | x :: r => f i x :: mapIndexed f (S i) r
  end.

(** Lines 216-226 and 266-275: push the messages onto the first entry for
    the phone number, or push a new entry. *)
Fixpoint addMessages (allMessages : list Entry) (p : JsText)
    (transformedMessages : list ApiMessage.t) : list Entry :=
  match allMessages with
  | [] => [ {| phoneNumber := p; messages := transformedMessages;
               success := true |} ]
  | m :: rest =>
      if strictEq (phoneNumber m) p
      then {| phoneNumber := phoneNumber m;
              messages := messages m ++ transformedMessages;
              success := success m |} :: rest
      else m :: addMessages rest p transformedMessages
  end.

(** The state of [fetchMessagesForPhoneNumbers]. *)
Record State : Type := {
  allMessages : list Entry;
  errors : list FetchError;
  foundPhoneNumbers : list JsText
}.

Section Fetch.

(** The two fetches and the clock.  They do network requests, keep a cache
    and read the time, so they are taken as they answer: the [k]-th call of
    [fetchWhatsAppMessages] in the first loop, the [k]-th call of
    [fetchMessagesByPhoneNumber] in the second, and the clock at the [i]-th
    message of the [k]-th phone response. *)
Variable fetchWhatsAppMessages : nat -> string -> Fetched (list Conversation).
Variable fetchMessagesByPhoneNumber : nat -> string -> option PhoneResponse.
Variable now : nat -> nat -> Z.

(** Lines 195-228: one conversation of a response. *)
Definition processConversation (phoneNumbers : list string) (st : State)
    (conversation : Conversation) : State :=
  let p := phoneNumberOf conversation in
  if (List.length phoneNumbers =? 0)%nat || includes phoneNumbers p
  then {| allMessages :=
            addMessages (allMessages st) p
              (mapOrEmpty transformRecent (conversationMessages conversation));
          errors := errors st;
          foundPhoneNumbers := foundAdd (foundPhoneNumbers st) p |}
  else st.

(** Lines 188-238: the loop over the users, from the [k]-th on. *)
Fixpoint fetchRecent (phoneNumbers : list string) (k : nat)
    (userIds : list string) (st : State) : State :=
  match userIds with
  | [] => st
  | userId :: rest =>
      let st' :=
        match fetchWhatsAppMessages k userId with
        | Fetched_ok apiResponse =>
            fold_left (processConversation phoneNumbers) apiResponse st
        | Fetched_error message =>
            {| allMessages := allMessages st;
               errors := errors st ++
                         [ {| errorUserId := Some userId; error := message |} ];
               foundPhoneNumbers := foundPhoneNumbers st |}
        end in
      fetchRecent phoneNumbers (S k) rest st'
  end.

(** Lines 244-285: the loop over the missing phone numbers, from the [k]-th
    on. *)
Fixpoint fetchMissing (k : nat) (missingPhoneNumbers : list string)
    (st : State) : State :=
  match missingPhoneNumbers with
  | [] => st
  | p :: rest =>
      let st' :=
        match fetchMessagesByPhoneNumber k p with
        | Some phoneResponse =>
            {| allMessages :=
                 addMessages (allMessages st) (JString p)
                   (match dataMessages phoneResponse with
                    | Some l => mapIndexed (fun i => transformByPhone (now k i)) 0 l
                    | None => []
                    end);
               errors := errors st;
               foundPhoneNumbers := foundAdd (foundPhoneNumbers st) (JString p) |}
        | None =>
            {| allMessages :=
                 allMessages st ++
                 [ {| phoneNumber := JString p; messages := [];
                      success := true |} ];
               errors := errors st;
               foundPhoneNumbers := foundPhoneNumbers st |}
        end in
      fetchMissing (S k) rest st'
  end.

(** [fetchMessagesForPhoneNumbers(phoneNumbers, userIds, fromDate, toDate)]:
    the dates only reach the two fetches.  [None] for [userIds] is a missing
    or null argument. *)
Definition fetchMessagesForPhoneNumbers (phoneNumbers : list string)
    (userIds : option (list string)) : list Entry * list FetchError :=
  match userIds with
  | None | Some [] =>
      ([], [ {| errorUserId := None; error := "No user IDs provided" |} ])
  | Some userIds =>
      let st := fetchRecent phoneNumbers 0 userIds
                  {| allMessages := []; errors := [];
                     foundPhoneNumbers := [] |} in
      let st :=
        if (0 <? List.length phoneNumbers)%nat
        then
          let missingPhoneNumbers :=
            filter (fun phone => negb (foundHas (foundPhoneNumbers st)
                                                (JString phone)))
                   phoneNumbers in
          fetchMissing 0 missingPhoneNumbers st
        else st in
      (allMessages st, errors st)
  end.

End Fetch.

(** The entries as [verifyMessages] reads them. *)
Definition toResponseEntry (e : Entry) : VerificationService.ApiResponseEntry :=
  {| VerificationService.success := success e;
     VerificationService.messages := Some (messages e) |}.

End WhatsAppApi.

(** * Vocabulary of the properties *)

Import JS Constants MessageMatcher.

Fixpoint allChars (p : ascii -> bool) (s : string) : bool :=
  match s with
  | EmptyString => true
  | String c r => p c && allChars p r
  end.

(** What a normalized string is made of: lower-case letters, digits, the
    underscore and the space. *)
Definition cleanChar (c : ascii) : bool :=
  let n := nat_of_ascii c in
  between 48 57 n || (n =? 95) || between 97 122 n || (n =? 32).

(** No two adjacent white-space characters; [prevWs] tells that the
    character before the string is white space. *)
Fixpoint noRun (prevWs : bool) (s : string) : bool :=
  match s with
  | EmptyString => true
  | String c r =>
      if isWhiteSpace c then negb prevWs && noRun true r else noRun false r
  end.

(** Empty, or starting with a character that is not white space. *)
Definition startsTight (s : string) : bool :=
  match s with
  | EmptyString => true
  | String c _ => negb (isWhiteSpace c)
  end.

(** What the processed internal records became: the [dbMessage] of every
    outcome, matched ones first. *)
Definition outcomeRefs (r : Results.t) : list DbRef.t :=
  map Matched.dbMessage (Results.matched r)
  ++ map Unmatched.dbMessage (Results.unmatched r).

(** The matched outcome [m] was built from the external record at position
    [z] of the pool. *)
Definition refersTo (apiMessages : list ApiMessage.t) (m : Matched.t) (z : Z)
  : Prop :=
  exists i a,
    z = Z.of_nat i /\ nth_error apiMessages i = Some a /\
    Matched.apiMessage m = apiRef a.

(** The external record of a matched outcome is not strictly earlier than its
    internal record, and its confidence reaches the constant
    [MATCHING.SIMILARITY_THRESHOLD]. *)
Definition okMatched (m : Matched.t) : Prop :=
  dateGt (newDate (DbRef.sentDate (Matched.dbMessage m)))
         (newDate (ApiRef.timestamp (Matched.apiMessage m))) = false /\
  (MATCHING.SIMILARITY_THRESHOLD <=? Matched.confidenceScore m)%float = true.

(** What every unmatched outcome carries. *)
Definition okUnmatched (u : Unmatched.t) : Prop :=
  Unmatched.bestMatchScore u = 0%float /\
  Unmatched.reason u = "No matching message found"%string.

(** The counters agree with the lists, and the outcomes are those of the
    internal records [done], each once. *)
Definition consistent (done : list DbMessage.t) (r : Results.t) : Prop :=
  Statistics.matchedCount (Results.statistics r)
    = List.length (Results.matched r) /\
  Statistics.unmatchedCount (Results.statistics r)
    = List.length (Results.unmatched r) /\
  Permutation (outcomeRefs r) (map dbRef done) /\
  Forall okMatched (Results.matched r) /\
  Forall okUnmatched (Results.unmatched r).

(** A candidate the inner loop has selected for [d]. *)
Definition goodBest (cmp : string -> string -> float) (d : DbMessage.t) (api : list ApiMessage.t)
    (used : list Z) (b : Best) : Prop :=
  exists a i,
    bestMatch b = Some a /\ bestIndex b = Z.of_nat i /\
    nth_error api i = Some a /\ setHas used (Z.of_nat i) = false /\
    dateGt (newDate (DbMessage.sent_date d))
           (newDate (orDate (ApiMessage.timestamp a) (ApiMessage.sent_date a)))
      = false /\
    (MATCHING.SIMILARITY_THRESHOLD <=? bestScore b)%float = true /\
    calculateSimilarity cmp (DbMessage.message d)
      (orText (ApiMessage.message a) (ApiMessage.body a)) = Ok (bestScore b).

(** The invariant of the outer loop of [matchMessages] once the records
    [done] are processed: the results are consistent, no index was consumed
    twice, and the k-th matched outcome was built from the external record
    whose index was the k-th to be consumed. *)
Definition loopInv (api : list ApiMessage.t) (done : list DbMessage.t)
    (st : LoopState) : Prop :=
  consistent done (results st) /\
  NoDup (matchedApiIndices st) /\
  Forall2 (refersTo api) (Results.matched (results st)) (matchedApiIndices st).

(** Contiguous batches of [b] elements, the last one possibly shorter; [n]
    bounds their number. *)
Fixpoint chunksFrom {A : Type} (n b : nat) (l : list A) : list (list A) :=
  match n with
  | O => []
  | S n' =>
      match l with
      | [] => []
      | _ => firstn b l :: chunksFrom n' b (skipn b l)
      end
  end.

Definition chunks {A : Type} (b : nat) (l : list A) : list (list A) :=
  chunksFrom (List.length l) b l.

(** Every record of [db] has exactly one outcome in [r], and the counters
    add up to the number of records. *)
Definition accountsFor (db : list DbMessage.t) (r : Results.t) : Prop :=
  (List.length (Results.matched r) + List.length (Results.unmatched r)
   = List.length db)%nat /\
  (Statistics.matchedCount (Results.statistics r)
   + Statistics.unmatchedCount (Results.statistics r)
   = Statistics.totalDbMessages (Results.statistics r))%nat /\
  Statistics.totalDbMessages (Results.statistics r) = List.length db /\
  Permutation (outcomeRefs r) (map dbRef db).

(** The external record of a matched outcome is not strictly earlier than
    its internal record. *)
Definition notEarlier (m : Matched.t) : Prop :=
  forall t1 t2,
    DbRef.sentDate (Matched.dbMessage m) = Some (DateAt t1) ->
    ApiRef.timestamp (Matched.apiMessage m) = Some (DateAt t2) ->
    (t1 <= t2)%Z.

(** Every external record of the pool is dated strictly before [t]. *)
Definition allBefore (api : list ApiMessage.t) (t : Z) : Prop :=
  forall a, In a api ->
    exists t',
      orDate (ApiMessage.timestamp a) (ApiMessage.sent_date a)
        = Some (DateAt t') /\ (t' < t)%Z.

(** The two strings have no bigram in common. *)
Definition shareNoBigram (x y : string) : Prop :=
  forall g, In g (StringSimilarity.bigrams x) ->
            ~ In g (StringSimilarity.bigrams y).

(** Sample records. *)
Definition textMessage (id text : string) (ms : Z) : DbMessage.t :=
  {| DbMessage._id := id;
     DbMessage.message := JString text;
     DbMessage.phone_number := "15550100";
     DbMessage.sent_date := Some (DateAt ms);
     DbMessage.role := "assistant";
     DbMessage.type_of_message := JString "follow_up" |}.

Definition providerMessage (text : string) (ms : Z) : ApiMessage.t :=
  {| ApiMessage.body := JString text;
     ApiMessage.message := JString text;
     ApiMessage.timestamp := Some (DateAt ms);
     ApiMessage.sent_date := None |}.

(** Two internal records with the same text, and the one external record
    that confirms it. *)
Definition reminderA : DbMessage.t := textMessage "m1" "Your payment is due" 1000.
Definition reminderB : DbMessage.t := textMessage "m2" "Your payment is due" 2000.
Definition confirmation : ApiMessage.t :=
  providerMessage "your payment is due!!" 3000.

(** Three internal records and a pool of one external record. *)
Definition sampleDb : list DbMessage.t :=
  [ textMessage "m1" "hello" 1000;
    textMessage "m2" "hello again" 2000;
    textMessage "m3" "bye" 3000 ].
Definition samplePool : list ApiMessage.t := [ providerMessage "hello" 1500 ].

(** The external record [a], at position [j] of the pool, is a candidate
    for [d] with the score [x]: it is not consumed, it is not strictly earlier
    than [d], and the scorer gives [x]. *)
Definition candidate (cmp : string -> string -> float) (d : DbMessage.t)
    (api : list ApiMessage.t) (used : list Z) (j : nat) (a : ApiMessage.t)
    (x : float) : Prop :=
  nth_error api j = Some a /\
  setHas used (Z.of_nat j) = false /\
  dateGt (newDate (DbMessage.sent_date d))
         (newDate (orDate (ApiMessage.timestamp a) (ApiMessage.sent_date a)))
    = false /\
  calculateSimilarity cmp (DbMessage.message d)
    (orText (ApiMessage.message a) (ApiMessage.body a)) = Ok x.

(** Among the candidates at the positions below [n] that reach the
    threshold, none scores more than [s], and none before position [i]
    scores as much. *)
Definition firstBest (cmp : string -> string -> float) (d : DbMessage.t)
    (api : list ApiMessage.t) (used : list Z) (n i : nat) (s : float) : Prop :=
  forall j a x,
    (j < n)%nat -> candidate cmp d api used j a x ->
    (MATCHING.SIMILARITY_THRESHOLD <=? x)%float = true ->
    (s <? x)%float = false /\ ((j < i)%nat -> (s <=? x)%float = false).

(** No candidate at a position below [n] reaches the threshold. *)
Definition noneQualifies (cmp : string -> string -> float) (d : DbMessage.t)
    (api : list ApiMessage.t) (used : list Z) (n : nat) : Prop :=
  forall j a x,
    (j < n)%nat -> candidate cmp d api used j a x ->
    (MATCHING.SIMILARITY_THRESHOLD <=? x)%float = false.

(** What the inner loop holds in [b] once the positions below [n] are
    examined: nothing when no candidate qualifies, and otherwise the first of
    the best qualifying candidates. *)
Definition selected (cmp : string -> string -> float) (d : DbMessage.t)
    (api : list ApiMessage.t) (used : list Z) (n : nat) (b : Best) : Prop :=
  (b = noBest /\ noneQualifies cmp d api used n) \/
  (exists a i s,
     b = {| bestMatch := Some a; bestScore := s; bestIndex := Z.of_nat i |} /\
     (i < n)%nat /\ candidate cmp d api used i a s /\
     (MATCHING.SIMILARITY_THRESHOLD <=? s)%float = true /\
     firstBest cmp d api used n i s).

(** The outcome is about a first message. *)
Definition isFirstRef (r : DbRef.t) : bool :=
  strictEqString (DbRef.type r) MESSAGE_TYPES.FIRST_MESSAGE.

Definition countFirst (l : list DbRef.t) : nat :=
  List.length (filter isFirstRef l).

(** The first-message counters count the first messages among the records,
    among the Matched outcomes and among the Unmatched outcomes. *)
Definition firstStatsOk (db : list DbMessage.t) (r : Results.t) : Prop :=
  let f := Statistics.firstMessageStats (Results.statistics r) in
  FirstMessageStats.total f = countFirst (map dbRef db) /\
  FirstMessageStats.matched f
    = countFirst (map Matched.dbMessage (Results.matched r)) /\
  FirstMessageStats.unmatched f
    = countFirst (map Unmatched.dbMessage (Results.unmatched r)) /\
  (FirstMessageStats.matched f + FirstMessageStats.unmatched f
   = FirstMessageStats.total f)%nat.

(** The value [averageConfidence] has for a list of Matched outcomes. *)
Definition averageOf (ms : list Matched.t) : NumberOrString :=
  match ms with
  | [] => JNumber 0%float
  | _ =>
      JStr (toFixed
              (fold_left (fun sum m => (sum + Matched.confidenceScore m)%float)
                         ms 0%float
               / ofNat (List.length ms) * 100)%float 2 ++ "%")%string
  end.

(** The keys of the three groupings of the report. *)
Definition typeKey (msg : Unmatched.t) : string :=
  match orText (DbRef.type (Unmatched.dbMessage msg)) (JString "unknown") with
  | JString s => s
  | _ => "unknown"%string
  end.

Definition phoneKey (msg : Unmatched.t) : string :=
  DbRef.phoneNumber (Unmatched.dbMessage msg).

Definition hasValidDate (msg : Unmatched.t) : Prop :=
  exists ms, DbRef.sentDate (Unmatched.dbMessage msg) = Some (DateAt ms).

Definition dateKey (msg : Unmatched.t) : string :=
  match isoDatePart (newDate (DbRef.sentDate (Unmatched.dbMessage msg))) with
  | Ok s => s
  | Throw _ => ""%string
  end.

(** [grouped] is the grouping of [l] by [key]: its keys are pairwise
    distinct, every message's key is one of them, and the group of a key holds
    exactly the messages with that key, in their order in [l], with [count]
    their number; no group is empty. *)
Definition groupsOf (key : Unmatched.t -> string) (l : list Unmatched.t)
    (grouped : VerificationService.Grouped) : Prop :=
  NoDup (map fst grouped) /\
  (forall m, In m l -> In (key m) (map fst grouped)) /\
  Forall (fun kg =>
            VerificationService.groupMessages (snd kg)
              = filter (fun m => String.eqb (key m) (fst kg)) l /\
            VerificationService.count (snd kg)
              = List.length (VerificationService.groupMessages (snd kg)) /\
            VerificationService.groupMessages (snd kg) <> [])
         grouped.

(** The record of the outcome has a sent date, and a valid one. *)
Definition validDateb (msg : Unmatched.t) : bool :=
  match newDate (DbRef.sentDate (Unmatched.dbMessage msg)) with
  | DateAt _ => true
  | InvalidDate => false
  end.

Definition validSentDate (d : DbMessage.t) : bool :=
  match newDate (DbMessage.sent_date d) with
  | DateAt _ => true
  | InvalidDate => false
  end.

(** [l] is [l1] and [l2] merged, each in its own order. *)
Inductive Interleaved {A : Type} : list A -> list A -> list A -> Prop :=
| interleaved_nil : Interleaved [] [] []
| interleaved_left x l1 l2 l :
    Interleaved l1 l2 l -> Interleaved (x :: l1) l2 (x :: l)
| interleaved_right x l1 l2 l :
    Interleaved l1 l2 l -> Interleaved l1 (x :: l2) (x :: l).

(** The outcomes of [r] are those of the records [db], in their order. *)
Definition inRecordOrder (db : list DbMessage.t) (r : Results.t) : Prop :=
  Interleaved (map Matched.dbMessage (Results.matched r))
              (map Unmatched.dbMessage (Results.unmatched r))
              (map dbRef db).

(** Both texts of a Matched outcome are non-empty strings. *)
Definition bothTextsPresent (m : Matched.t) : Prop :=
  truthy (DbRef.message (Matched.dbMessage m)) = true /\
  truthy (ApiRef.message (Matched.apiMessage m)) = true.

(** ** Vocabulary of the gathering of the provider's messages *)

(** The phone numbers of the entries, in the order of the entries. *)
Definition entryNumbers (entries : list WhatsAppApi.Entry) : list JS.JsText :=
  map WhatsAppApi.phoneNumber entries.

(** [q] is one of the requested phone numbers. *)
Definition requested (phoneNumbers : list string) (q : JS.JsText) : Prop :=
  exists p, In p phoneNumbers /\ q = JS.JString p.

(** The error records of the users whose fetch of the recent chats threw,
    the first of them being the [k]-th call. *)
Fixpoint failedUsers
    (fetch : nat -> string -> WhatsAppApi.Fetched (list WhatsAppApi.Conversation))
    (k : nat) (userIds : list string) : list WhatsAppApi.FetchError :=
  match userIds with
  | [] => []
  | userId :: rest =>
      match fetch k userId with
      | WhatsAppApi.Fetched_error message =>
          [ {| WhatsAppApi.errorUserId := Some userId;
               WhatsAppApi.error := message |} ]
      | WhatsAppApi.Fetched_ok _ => []
      end ++ failedUsers fetch (S k) rest
  end.

(** What the loop over the users keeps: every entry is flagged as a
    success, no two entries are for the same phone number, the found numbers
    are the numbers of the entries, and, when numbers were requested, every
    entry is for one of them. *)
Definition gathered (phoneNumbers : list string) (st : WhatsAppApi.State)
  : Prop :=
  Forall (fun e => WhatsAppApi.success e = true) (WhatsAppApi.allMessages st) /\
  NoDup (entryNumbers (WhatsAppApi.allMessages st)) /\
  (forall q, In q (WhatsAppApi.foundPhoneNumbers st)
             <-> In q (entryNumbers (WhatsAppApi.allMessages st))) /\
  (phoneNumbers <> [] ->
   forall q, In q (entryNumbers (WhatsAppApi.allMessages st)) ->
             requested phoneNumbers q).

(** A message as both transformations build it: [message] is [body], there
    is a [timestamp] (a date, valid or not) and no [sent_date]. *)
Definition fromProvider (a : ApiMessage.t) : Prop :=
  ApiMessage.message a = ApiMessage.body a /\
  ApiMessage.sent_date a = None /\
  ApiMessage.timestamp a <> None.

(** All the messages of the entries, in the order of the entries. *)
Definition entryMessages (entries : list WhatsAppApi.Entry)
  : list ApiMessage.t :=
  List.concat (map WhatsAppApi.messages entries).

(** The character is not the at sign. *)
Definition notAt (c : ascii) : bool := negb (Ascii.eqb c "@").

(** The state of [fetchMessagesForPhoneNumbers] after both loops. *)
Definition gatherState
    (fetchWhatsAppMessages :
       nat -> string -> WhatsAppApi.Fetched (list WhatsAppApi.Conversation))
    (fetchMessagesByPhoneNumber :
       nat -> string -> option WhatsAppApi.PhoneResponse)
    (now : nat -> nat -> Z)
    (phoneNumbers userIds : list string) : WhatsAppApi.State :=
  let st := WhatsAppApi.fetchRecent fetchWhatsAppMessages phoneNumbers 0 userIds
              {| WhatsAppApi.allMessages := []; WhatsAppApi.errors := [];
                 WhatsAppApi.foundPhoneNumbers := [] |} in
  if (0 <? List.length phoneNumbers)%nat
  then WhatsAppApi.fetchMissing fetchMessagesByPhoneNumber now 0
         (filter (fun phone =>
                    negb (WhatsAppApi.foundHas
                            (WhatsAppApi.foundPhoneNumbers st)
                            (JS.JString phone)))
                 phoneNumbers) st
  else st.

(** A provider whose recent chats hold one conversation, with the number
    60123, whatever the user, and whose search by phone number finds
    nothing. *)
Definition sampleChats
  : nat -> string -> WhatsAppApi.Fetched (list WhatsAppApi.Conversation) :=
  fun _ _ =>
    WhatsAppApi.Fetched_ok
      [ {| WhatsAppApi.to := JS.JString "60123";
           WhatsAppApi.id := JS.JString "60123@c.us";
           WhatsAppApi.conversationMessages :=
             Some [ {| WhatsAppApi.rawBody := JS.JString "hello";
                       WhatsAppApi.rawTimestamp := Some 1700000000%float |} ]
        |} ].
Definition sampleByPhone : nat -> string -> option WhatsAppApi.PhoneResponse :=
  fun _ _ => None.
Definition sampleClock : nat -> nat -> Z := fun _ _ => 1700000000000%Z.

(** A conversation that has only its chat id. *)
Definition sampleChat : WhatsAppApi.Conversation :=
  {| WhatsAppApi.to := JS.JUndefined;
     WhatsAppApi.id := JS.JString "60123@c.us";
     WhatsAppApi.conversationMessages := None |}.

(** * Properties *)

Unset Implicit Arguments.

(** Case analysis on the 256 code units. *)
Ltac each_char c :=
  destruct c as [[] [] [] [] [] [] [] []]; vm_compute; try reflexivity;
  try discriminate; auto.

(** ** The normalizer *)


Lemma lower_word_clean c :
  isWhiteSpace (toLowerCaseChar c) = false ->
  isWordChar (toLowerCaseChar c) = true ->
  cleanChar (toLowerCaseChar c) = true.
Proof. each_char c. Qed.

Lemma clean_lower c : cleanChar c = true -> toLowerCaseChar c = c.
Proof. each_char c. Qed.

Lemma clean_kept c : cleanChar c = true -> isWordChar c || isWhiteSpace c = true.
Proof. each_char c. Qed.

Lemma clean_space c :
  cleanChar c = true -> isWhiteSpace c = true -> c = " "%char.
Proof. each_char c. Qed.

Lemma pipeline_clean s : forall b,
  allChars cleanChar (removeNonWord (collapseFrom b (toLowerCase s))) = true.
Proof.
  induction s as [|c r IH]; intro b; simpl; [reflexivity|].
  destruct (isWhiteSpace (toLowerCaseChar c)) eqn:W.
  - destruct b; simpl; [apply IH|]. rewrite IH. reflexivity.
  - simpl. rewrite W, orb_false_r.
    destruct (isWordChar (toLowerCaseChar c)) eqn:K; simpl; [|apply IH].
    rewrite (lower_word_clean _ W K), IH. reflexivity.
Qed.

Lemma trimStart_all p s : allChars p s = true -> allChars p (trimStart s) = true.
Proof.
  induction s as [|c r IH]; simpl; intro H; [reflexivity|].
  apply andb_true_iff in H as [Hc Hr].
  destruct (isWhiteSpace c); [auto|]. simpl. now rewrite Hc, Hr.
Qed.

Lemma trimEnd_all p s : allChars p s = true -> allChars p (trimEnd s) = true.
Proof.
  induction s as [|c r IH]; simpl; intro H; [reflexivity|].
  apply andb_true_iff in H as [Hc Hr]. specialize (IH Hr).
  destruct (trimEnd r) eqn:E.
  - destruct (isWhiteSpace c); simpl; [reflexivity|]. now rewrite Hc.
  - simpl in *. now rewrite Hc, IH.
Qed.

Lemma normalizeString_clean s : allChars cleanChar (normalizeString s) = true.
Proof.
  unfold normalizeString, trim, replaceWhitespaceRuns.
  apply trimEnd_all, trimStart_all, pipeline_clean.
Qed.

Lemma toLowerCase_clean s : allChars cleanChar s = true -> toLowerCase s = s.
Proof.
  induction s as [|c r IH]; simpl; intro H; [reflexivity|].
  apply andb_true_iff in H as [Hc Hr]. now rewrite (clean_lower _ Hc), IH.
Qed.

Lemma removeNonWord_clean s : allChars cleanChar s = true -> removeNonWord s = s.
Proof.
  induction s as [|c r IH]; simpl; intro H; [reflexivity|].
  apply andb_true_iff in H as [Hc Hr]. now rewrite (clean_kept _ Hc), IH.
Qed.

Lemma collapse_clean s : forall b,
  allChars cleanChar s = true -> allChars cleanChar (collapseFrom b s) = true.
Proof.
  induction s as [|c r IH]; simpl; intros b H; [reflexivity|].
  apply andb_true_iff in H as [Hc Hr].
  destruct (isWhiteSpace c); [destruct b|]; simpl; auto.
  now rewrite Hc, IH.
Qed.

Lemma collapse_noRun s : forall b, noRun b (collapseFrom b s) = true.
Proof.
  induction s as [|c r IH]; simpl; intro b; [reflexivity|].
  destruct (isWhiteSpace c) eqn:W.
  - destruct b; [apply IH|]. simpl. apply IH.
  - simpl. rewrite W. apply IH.
Qed.

Lemma noRun_weaken s : forall b, noRun b s = true -> noRun false s = true.
Proof.
  destruct s as [|c r]; simpl; intros b H; [reflexivity|].
  destruct (isWhiteSpace c); [|exact H].
  apply andb_true_iff in H as [_ H]. exact H.
Qed.

Lemma trimStart_noRun s : forall b,
  noRun b s = true -> noRun false (trimStart s) = true.
Proof.
  induction s as [|c r IH]; simpl; intros b H; [reflexivity|].
  destruct (isWhiteSpace c) eqn:W.
  - apply andb_true_iff in H as [_ H]. eapply IH; eauto.
  - simpl. now rewrite W.
Qed.

Lemma trimEnd_noRun s : forall b, noRun b s = true -> noRun b (trimEnd s) = true.
Proof.
  induction s as [|c r IH]; simpl; intros b H; [reflexivity|].
  destruct (isWhiteSpace c) eqn:W.
  - apply andb_true_iff in H as [Hb H]. specialize (IH _ H).
    destruct (trimEnd r) eqn:E; [reflexivity|].
    simpl in *. rewrite W, Hb. exact IH.
  - specialize (IH _ H).
    destruct (trimEnd r) eqn:E; simpl in *; rewrite W; auto.
Qed.

Lemma collapse_fixed s : forall b,
  allChars cleanChar s = true -> noRun b s = true -> collapseFrom b s = s.
Proof.
  induction s as [|c r IH]; simpl; intros b H N; [reflexivity|].
  apply andb_true_iff in H as [Hc Hr].
  destruct (isWhiteSpace c) eqn:W.
  - apply andb_true_iff in N as [Hb N].
    destruct b; [discriminate|].
    rewrite (IH _ Hr N). f_equal. symmetry. exact (clean_space _ Hc W).
  - now rewrite (IH _ Hr N).
Qed.

Lemma trimStart_startsTight s : startsTight (trimStart s) = true.
Proof.
  induction s as [|c r IH]; simpl; [reflexivity|].
  destruct (isWhiteSpace c) eqn:W; [exact IH|]. simpl. now rewrite W.
Qed.

Lemma trimStart_fixed s : startsTight s = true -> trimStart s = s.
Proof.
  destruct s as [|c r]; simpl; [reflexivity|].
  now destruct (isWhiteSpace c).
Qed.

Lemma trimEnd_startsTight s : startsTight s = true -> startsTight (trimEnd s) = true.
Proof.
  destruct s as [|c r]; simpl; intro H; [reflexivity|].
  destruct (trimEnd r); [|exact H].
  destruct (isWhiteSpace c) eqn:W; [reflexivity|]. simpl. now rewrite W.
Qed.

Lemma trimEnd_idem s : trimEnd (trimEnd s) = trimEnd s.
Proof.
  induction s as [|c r IH]; simpl; [reflexivity|].
  destruct (trimEnd r) eqn:E.
  - destruct (isWhiteSpace c) eqn:W; simpl; [reflexivity|]. now rewrite W.
  - simpl in *. rewrite IH. reflexivity.
Qed.

Lemma trim_idem s : trim (trim s) = trim s.
Proof.
  unfold trim.
  rewrite (trimStart_fixed (trimEnd (trimStart s))).
  - apply trimEnd_idem.
  - apply trimEnd_startsTight, trimStart_startsTight.
Qed.

(** On a string made of clean characters, normalizing is collapsing the runs
    of spaces and trimming. *)
Lemma normalizeString_on_clean s :
  allChars cleanChar s = true ->
  normalizeString s = trim (replaceWhitespaceRuns s).
Proof.
  intro H. unfold normalizeString.
  rewrite (toLowerCase_clean _ H).
  rewrite removeNonWord_clean; [reflexivity|].
  now apply collapse_clean.
Qed.

Lemma normalize_twice_shape s :
  let n2 := normalizeString (normalizeString s) in
  allChars cleanChar n2 = true /\ noRun false n2 = true /\ trim n2 = n2.
Proof.
  cbv zeta. rewrite (normalizeString_on_clean _ (normalizeString_clean s)).
  split; [|split].
  - unfold trim, replaceWhitespaceRuns.
    apply trimEnd_all, trimStart_all, collapse_clean, normalizeString_clean.
  - unfold trim, replaceWhitespaceRuns.
    apply trimEnd_noRun. eapply trimStart_noRun. apply collapse_noRun.
  - apply trim_idem.
Qed.

Lemma normalizeString_fixed s :
  allChars cleanChar s = true -> noRun false s = true -> trim s = s ->
  normalizeString s = s.
Proof.
  intros C N T. rewrite (normalizeString_on_clean _ C).
  unfold replaceWhitespaceRuns. now rewrite (collapse_fixed _ _ C N).
Qed.

Lemma normalizeString_trimmed s : trim (normalizeString s) = normalizeString s.
Proof. unfold normalizeString. apply trim_idem. Qed.

(** C6 (counterexample): normalization is not idempotent.  Removing the
    exclamation mark of ["a ! b"] after the runs of white space were collapsed
    leaves two adjacent spaces, which a second normalization collapses. *)
Lemma normalize_not_idempotent :
  normalizeMessage (JString "a ! b") = Ok "a  b"%string /\
  (x <- normalizeMessage (JString "a ! b") ;; normalizeMessage (JString x))
    = Ok "a b"%string /\
  (x <- normalizeMessage (JString "a ! b") ;; normalizeMessage (JString x))
    <> normalizeMessage (JString "a ! b").
Proof.
  repeat split; try reflexivity. vm_compute. discriminate.
Qed.

(** C6 (amended): normalization is idempotent from its second application on:
    for every string x, normalize(normalize(normalize(x))) equals
    normalize(normalize(x)); and normalize(normalize(x)) equals normalize(x)
    exactly when normalize(x) has no two adjacent white-space characters. *)
Theorem normalize_idempotent_from_second (x : string) :
  (y <- normalizeMessage (JString x) ;;
   z <- normalizeMessage (JString y) ;; normalizeMessage (JString z))
  = (y <- normalizeMessage (JString x) ;; normalizeMessage (JString y))
  /\
  ((y <- normalizeMessage (JString x) ;; normalizeMessage (JString y))
   = normalizeMessage (JString x)
   <-> noRun false (normalizeString x) = true).
Proof.
  simpl. destruct (normalize_twice_shape x) as (C & N & T). cbv zeta in *.
  split.
  - f_equal. now apply normalizeString_fixed.
  - split.
    + intro H. injection H as H. now rewrite <- H.
    + intro H. f_equal.
      apply normalizeString_fixed; auto using normalizeString_clean,
        normalizeString_trimmed.
Qed.

Lemma calculateSimilarity_total cmp a b :
  exists x, calculateSimilarity cmp a b = Ok x.
Proof.
  unfold calculateSimilarity.
  destruct a as [| |[|c s]], b as [| |[|c' s']]; simpl; eauto.
Qed.

Lemma calculateSimilarity_falsy_l cmp a b :
  truthy a = false -> calculateSimilarity cmp a b = Ok 0%float.
Proof. intro H. unfold calculateSimilarity. now rewrite H. Qed.

Lemma calculateSimilarity_falsy_r cmp a b :
  truthy b = false -> calculateSimilarity cmp a b = Ok 0%float.
Proof. intro H. unfold calculateSimilarity. now rewrite H, orb_true_r. Qed.

(** C7 (counterexample): the normalizer fails on [null]: the method call
    [message.toLowerCase()] throws a [TypeError]; it does not return the
    empty string. *)
Lemma normalize_null_throws :
  normalizeMessage JNull
    = Throw (TypeError "Cannot read properties of null (reading 'toLowerCase')")
  /\ normalizeMessage JNull <> Ok ""%string.
Proof. split; [reflexivity|discriminate]. Qed.

(** C7 (amended): the normalizer is total on strings: for every string,
    including the empty one, it returns a string, and the empty string
    normalizes to the empty string.  On [null] and [undefined] it throws a
    [TypeError].  The scorer, its only caller, returns 0 for a [null],
    [undefined] or empty message without normalizing it, and returns a score
    for every pair of inputs. *)
Theorem normalize_total_on_strings :
  (forall s, normalizeMessage (JString s) = Ok (normalizeString s)) /\
  normalizeMessage (JString "") = Ok ""%string /\
  (exists e, normalizeMessage JNull = Throw e) /\
  (exists e, normalizeMessage JUndefined = Throw e) /\
  (forall cmp a,
     calculateSimilarity cmp JNull a = Ok 0%float /\
     calculateSimilarity cmp a JNull = Ok 0%float /\
     calculateSimilarity cmp JUndefined a = Ok 0%float /\
     calculateSimilarity cmp a JUndefined = Ok 0%float /\
     calculateSimilarity cmp (JString "") a = Ok 0%float /\
     calculateSimilarity cmp a (JString "") = Ok 0%float) /\
  (forall cmp a b, exists x, calculateSimilarity cmp a b = Ok x).
Proof.
  repeat split; try reflexivity;
    try (now apply calculateSimilarity_falsy_r);
    try (now apply calculateSimilarity_total);
    simpl; eauto.
Qed.

(** ** The matcher *)

Section MatcherProps.

Variable cmp : string -> string -> float.

Lemma findBestFrom_spec d api used : forall rest i b,
  (forall j a, nth_error rest j = Some a -> nth_error api (i + j) = Some a) ->
  b = noBest \/ goodBest cmp d api used b ->
  exists b', findBestFrom cmp d used i rest b = Ok b' /\
             (b' = noBest \/ goodBest cmp d api used b').
Proof.
  induction rest as [|a rest IH]; intros i b Hnth Hb; simpl; [eauto|].
  assert (Hshift : forall j a', nth_error rest j = Some a' ->
                                nth_error api (S i + j) = Some a').
  { intros j a' Hj. specialize (Hnth (S j) a' Hj).
    now rewrite Nat.add_succ_r in Hnth. }
  destruct (setHas used (Z.of_nat i)) eqn:Hused; [now apply IH|].
  destruct (dateGt _ _) eqn:Hdate; [now apply IH|].
  destruct (calculateSimilarity_total cmp (DbMessage.message d)
              (orText (ApiMessage.message a) (ApiMessage.body a))) as [x Hx].
  rewrite Hx. simpl. apply IH; [exact Hshift|].
  destruct (_ && _) eqn:Hc; [|exact Hb].
  right. exists a, i. simpl.
  apply andb_true_iff in Hc as [_ Hthr].
  repeat split; auto.
  specialize (Hnth 0 a eq_refl). now rewrite Nat.add_0_r in Hnth.
Qed.

(** One iteration of the outer loop either records a match with a free,
    temporally eligible external record whose score reaches the threshold, or
    records a miss -- and then with the initial [bestScore], 0. *)
Lemma processDbMessage_cases api st d :
  (exists a i s,
     processDbMessage cmp api st d
       = Ok (pushMatched d {| bestMatch := Some a; bestScore := s;
                              bestIndex := Z.of_nat i |} a (trackFirst d st)) /\
     nth_error api i = Some a /\
     setHas (matchedApiIndices st) (Z.of_nat i) = false /\
     dateGt (newDate (DbMessage.sent_date d))
            (newDate (orDate (ApiMessage.timestamp a) (ApiMessage.sent_date a)))
       = false /\
     (MATCHING.SIMILARITY_THRESHOLD <=? s)%float = true /\
     calculateSimilarity cmp (DbMessage.message d)
       (orText (ApiMessage.message a) (ApiMessage.body a)) = Ok s)
  \/ processDbMessage cmp api st d
       = Ok (pushUnmatched d noBest (trackFirst d st)).
Proof.
  unfold processDbMessage.
  destruct (findBestFrom_spec d api (matchedApiIndices (trackFirst d st))
              api 0 noBest) as (b & Hb & Hcase); [auto|auto|].
  rewrite Hb. simpl.
  destruct Hcase as [-> | (a & i & Hm & Hi & Hn & Hu & Hd & Ht & Hs)].
  - right. reflexivity.
  - left. exists a, i, (bestScore b).
    destruct b as [bm bs bi]. simpl in *. subst bm bi.
    rewrite Ht. repeat split; auto.
Qed.

Lemma processDbMessage_total api st d :
  exists st', processDbMessage cmp api st d = Ok st'.
Proof.
  destruct (processDbMessage_cases api st d) as [(a & i & s & H & _) | H]; eauto.
Qed.

(** An invariant of the outer loop, indexed by the records processed so
    far, holds when the loop ends -- and the loop ends without throwing. *)
Lemma matchLoop_invariant (I : list DbMessage.t -> LoopState -> Prop) api :
  (forall done st d st',
     I done st -> processDbMessage cmp api st d = Ok st' -> I (done ++ [d]) st') ->
  forall db done st,
    I done st ->
    exists st', matchLoop cmp api st db = Ok st' /\ I (done ++ db) st'.
Proof.
  intros Hstep. induction db as [|d db IH]; intros done st HI; simpl.
  - exists st. now rewrite app_nil_r.
  - destruct (processDbMessage_total api st d) as [st1 H1]. rewrite H1. simpl.
    destruct (IH (done ++ [d]) st1 (Hstep _ _ _ _ HI H1)) as (st' & H' & HI').
    exists st'. split; [exact H'|]. now rewrite <- app_assoc in HI'.
Qed.

Lemma setHas_false_not_in used z : setHas used z = false -> ~ In z used.
Proof.
  unfold setHas. intros H Hin.
  assert (existsb (Z.eqb z) used = true).
  { apply existsb_exists. exists z. split; [exact Hin|apply Z.eqb_refl]. }
  congruence.
Qed.

Lemma loopInv_step api done st d st' :
  loopInv api done st ->
  processDbMessage cmp api st d = Ok st' ->
  loopInv api (done ++ [d]) st'.
Proof.
  intros ((Hm & Hu & Hp & Hfm & Hfu) & Hnd & Hf2) Hstep.
  destruct (processDbMessage_cases api st d)
    as [(a & i & s & H & Hn & Hused & Hd & Ht & Hs) | H];
    rewrite H in Hstep; injection Hstep as <-.
  - unfold loopInv, consistent, outcomeRefs. simpl.
    unfold setAdd. rewrite Hused.
    rewrite !map_app, !length_app. simpl.
    repeat split.
    + now rewrite Hm.
    + exact Hu.
    + rewrite <- app_assoc. simpl.
      apply Permutation_sym.
      eapply Permutation_trans;
        [apply Permutation_sym, Permutation_cons_append|].
      apply Permutation_cons_app, Permutation_sym, Hp.
    + apply Forall_app. split; [exact Hfm|].
      constructor; [|constructor]. split; simpl; assumption.
    + exact Hfu.
    + apply NoDup_app; [exact Hnd|repeat constructor; auto|].
      intros z Hz [<- | []]. now apply setHas_false_not_in in Hused.
    + apply Forall2_app; [exact Hf2|].
      constructor; [|constructor]. exists i, a. auto.
  - unfold loopInv, consistent, outcomeRefs. simpl.
    rewrite !map_app, !length_app. simpl.
    repeat split; auto.
    + rewrite app_assoc. apply Permutation_app_tail, Hp.
    + apply Forall_app. split; [exact Hfu|].
      constructor; [|constructor]. split; reflexivity.
Qed.

Lemma loopInv_initial api db api0 : loopInv api [] (initialState db api0).
Proof.
  unfold loopInv, consistent, outcomeRefs. simpl.
  repeat split; constructor.
Qed.

Lemma totals_step api st d st' :
  processDbMessage cmp api st d = Ok st' ->
  Statistics.totalDbMessages (Results.statistics (results st'))
    = Statistics.totalDbMessages (Results.statistics (results st)) /\
  Statistics.totalApiMessages (Results.statistics (results st'))
    = Statistics.totalApiMessages (Results.statistics (results st)).
Proof.
  intro Hstep.
  destruct (processDbMessage_cases api st d)
    as [(a & i & s & H & _) | H];
    rewrite H in Hstep; injection Hstep as <-; split; reflexivity.
Qed.

(** The outer loop of [matchMessages] ends without throwing, in a state that
    satisfies the invariant for the whole batch and keeps the two totals. *)
Lemma matchLoop_spec db api :
  exists st,
    matchLoop cmp api (initialState db api) db = Ok st /\
    loopInv api db st /\
    Statistics.totalDbMessages (Results.statistics (results st))
      = List.length db /\
    Statistics.totalApiMessages (Results.statistics (results st))
      = List.length api.
Proof.
  destruct (matchLoop_invariant
              (fun done st =>
                 loopInv api done st /\
                 Statistics.totalDbMessages (Results.statistics (results st))
                   = List.length db /\
                 Statistics.totalApiMessages (Results.statistics (results st))
                   = List.length api) api)
    with (db := db) (done := @nil DbMessage.t) (st := initialState db api)
    as (st & Hrun & Hinv & Htd & Hta).
  - intros done st d st' (Hinv & Htd & Hta) Hstep.
    destruct (totals_step api st d st' Hstep) as [E1 E2].
    split; [eapply loopInv_step; eauto|]. split; congruence.
  - split; [apply loopInv_initial|]. split; reflexivity.
  - exists st. auto.
Qed.

Lemma withAverageConfidence_keeps r :
  Results.matched (withAverageConfidence r) = Results.matched r /\
  Results.unmatched (withAverageConfidence r) = Results.unmatched r /\
  Statistics.matchedCount (Results.statistics (withAverageConfidence r))
    = Statistics.matchedCount (Results.statistics r) /\
  Statistics.unmatchedCount (Results.statistics (withAverageConfidence r))
    = Statistics.unmatchedCount (Results.statistics r) /\
  Statistics.totalDbMessages (Results.statistics (withAverageConfidence r))
    = Statistics.totalDbMessages (Results.statistics r) /\
  Statistics.totalApiMessages (Results.statistics (withAverageConfidence r))
    = Statistics.totalApiMessages (Results.statistics r) /\
  Statistics.firstMessageStats (Results.statistics (withAverageConfidence r))
    = Statistics.firstMessageStats (Results.statistics r).
Proof.
  unfold withAverageConfidence.
  destruct (Results.matched r) eqn:E; simpl; rewrite ?E; repeat split; reflexivity.
Qed.

Lemma withAverageConfidence_consistent done r :
  consistent done r -> consistent done (withAverageConfidence r).
Proof.
  destruct (withAverageConfidence_keeps r) as (E1 & E2 & E3 & E4 & _).
  unfold consistent, outcomeRefs. now rewrite E1, E2, E3, E4.
Qed.

(** [matchMessages] returns, and what it returns is the final state of its
    loop with the average filled in. *)
Lemma matchMessages_spec db api :
  exists st,
    matchLoop cmp api (initialState db api) db = Ok st /\
    matchMessages cmp db api = Ok (withAverageConfidence (results st)) /\
    loopInv api db st /\
    consistent db (withAverageConfidence (results st)) /\
    Statistics.totalDbMessages
      (Results.statistics (withAverageConfidence (results st)))
      = List.length db.
Proof.
  destruct (matchLoop_spec db api) as (st & Hrun & Hinv & Htd & _).
  exists st. unfold matchMessages. rewrite Hrun. simpl.
  split; [reflexivity|]. split; [reflexivity|]. split; [exact Hinv|].
  split; [apply withAverageConfidence_consistent, Hinv|].
  destruct (withAverageConfidence_keeps (results st)) as (_ & _ & _ & _ & E & _).
  congruence.
Qed.

End MatcherProps.

(** ** The batch loop *)

Section ChunkProps.

Context {A : Type}.

Lemma chunksFrom_any (b : nat) : (1 <= b)%nat ->
  forall n m (l : list A),
    (List.length l <= n)%nat -> (List.length l <= m)%nat ->
    chunksFrom n b l = chunksFrom m b l.
Proof.
  intro Hb. induction n as [|n IH]; intros m l Hn Hm.
  - destruct l; [|simpl in Hn; lia]. now destruct m.
  - destruct l as [|x l]; [now destruct m|].
    destruct m as [|m]; [simpl in Hm; lia|].
    simpl chunksFrom. f_equal.
    assert (List.length (skipn b (x :: l)) <= List.length l)%nat.
    { rewrite length_skipn. simpl List.length. lia. }
    simpl in Hn, Hm. apply IH; lia.
Qed.

Lemma chunks_cons (b : nat) (x : A) (l : list A) : (1 <= b)%nat ->
  chunks b (x :: l) = firstn b (x :: l) :: chunks b (skipn b (x :: l)).
Proof.
  intro Hb. unfold chunks at 1. simpl chunksFrom. f_equal.
  apply chunksFrom_any; auto.
  rewrite length_skipn. simpl List.length. lia.
Qed.

Lemma concat_chunksFrom (b : nat) : (1 <= b)%nat ->
  forall n (l : list A),
    (List.length l <= n)%nat -> List.concat (chunksFrom n b l) = l.
Proof.
  intro Hb. induction n as [|n IH]; intros l Hn.
  - destruct l; [reflexivity|simpl in Hn; lia].
  - destruct l as [|x l]; [reflexivity|].
    simpl chunksFrom. simpl List.concat.
    rewrite IH; [apply firstn_skipn|].
    rewrite length_skipn. simpl List.length in *. lia.
Qed.

(** The batches partition the list: put end to end, they are the list. *)
Lemma concat_chunks (b : nat) (l : list A) :
  (1 <= b)%nat -> List.concat (chunks b l) = l.
Proof. intro Hb. apply concat_chunksFrom; auto. Qed.

(** On indices inside the array, [slice(i, i + b)] is the next [b]
    elements from [i]. *)
Lemma slice_batch (l : list A) (i b : Z) :
  (0 <= i)%Z -> (1 <= b)%Z ->
  slice l i (i + b) = firstn (Z.to_nat b) (skipn (Z.to_nat i) l).
Proof.
  intros Hi Hb. unfold slice.
  destruct (Z.ltb_spec i 0); [lia|].
  destruct (Z.ltb_spec (i + b) 0); [lia|].
  set (len := Z.of_nat (List.length l)).
  destruct (Z.le_gt_cases (i + b) len) as [Hle | Hgt].
  - rewrite !Z.min_l by lia. f_equal. lia.
  - destruct (Z.le_gt_cases i len) as [Hile | Higt].
    + rewrite (Z.min_l i) by lia. rewrite Z.min_r by lia.
      rewrite !firstn_all2; auto; rewrite length_skipn; subst len; lia.
    + rewrite !Z.min_r by lia. rewrite Z.sub_diag. simpl.
      rewrite skipn_all2 by (subst len; lia). now rewrite firstn_nil.
Qed.

End ChunkProps.

Section BatchProps.

Variable cmp : string -> string -> float.

Lemma matchMessages_total db api : exists r, matchMessages cmp db api = Ok r.
Proof.
  destruct (matchMessages_spec cmp db api) as (st & _ & H & _). eauto.
Qed.

Lemma matchMessages_consistent db api r :
  matchMessages cmp db api = Ok r ->
  consistent db r /\
  Statistics.totalDbMessages (Results.statistics r) = List.length db.
Proof.
  intro H.
  destruct (matchMessages_spec cmp db api) as (st & _ & H' & _ & Hc & Ht).
  rewrite H' in H. injection H as <-. auto.
Qed.

(** With a batch size of at least 1 the loop ends: from the index [i], with
    more fuel than there are records left, it merges the results of the
    batches of the remaining records, in order. *)
Lemma batchLoop_spec db api b : (1 <= b)%Z ->
  forall fuel i allResults,
    (0 <= i)%Z ->
    (Z.to_nat (Z.of_nat (List.length db) - i) < fuel)%nat ->
    exists rs,
      Forall2 (fun c r => matchMessages cmp c api = Ok r)
              (chunks (Z.to_nat b) (skipn (Z.to_nat i) db)) rs /\
      batchLoop cmp fuel db api b i allResults
        = Some (Ok (fold_left mergeBatch rs allResults)).
Proof.
  intro Hb. induction fuel as [|fuel IH]; intros i allResults Hi Hfuel; [lia|].
  simpl batchLoop.
  destruct (Z.ltb_spec i (Z.of_nat (List.length db))) as [Hlt | Hge].
  - rewrite slice_batch by lia.
    destruct (skipn (Z.to_nat i) db) as [|x rest] eqn:Hskip.
    { assert (List.length (skipn (Z.to_nat i) db) = 0%nat) by now rewrite Hskip.
      rewrite length_skipn in H. lia. }
    rewrite chunks_cons by lia.
    destruct (matchMessages_total (firstn (Z.to_nat b) (x :: rest)) api)
      as [br Hbr].
    rewrite Hbr.
    destruct (IH (i + b)%Z (mergeBatch allResults br)) as (rs & Hrs & Hrun);
      [lia|lia|].
    exists (br :: rs). split; [|exact Hrun].
    constructor; [exact Hbr|].
    replace (Z.to_nat (i + b)) with (Z.to_nat b + Z.to_nat i)%nat in Hrs by lia.
    now rewrite <- skipn_skipn, Hskip in Hrs.
  - exists []. split; [|reflexivity].
    rewrite skipn_all2 by lia. constructor.
Qed.

(** Without progress the loop never ends: with a batch size of 0 or less and
    at least one record, no amount of fuel is enough. *)
Lemma batchLoop_diverges db api b : (b <= 0)%Z -> db <> [] ->
  forall fuel i allResults,
    (i <= 0)%Z -> batchLoop cmp fuel db api b i allResults = None.
Proof.
  intros Hb Hdb. induction fuel as [|fuel IH]; intros i allResults Hi;
    [reflexivity|].
  simpl batchLoop.
  assert (0 < Z.of_nat (List.length db))%Z by (destruct db; simpl; [congruence|lia]).
  destruct (Z.ltb_spec i (Z.of_nat (List.length db))); [|lia].
  destruct (matchMessages_total (slice db i (i + b)) api) as [br Hbr].
  rewrite Hbr. apply IH. lia.
Qed.

Lemma mergeBatch_consistent d1 d2 r1 r2 :
  consistent d1 r1 -> consistent d2 r2 ->
  consistent (d1 ++ d2) (mergeBatch r1 r2).
Proof.
  intros (Hm1 & Hu1 & Hp1 & Hfm1 & Hfu1) (Hm2 & Hu2 & Hp2 & Hfm2 & Hfu2).
  unfold consistent, outcomeRefs, mergeBatch. simpl.
  rewrite !map_app, !length_app.
  split; [congruence|]. split; [congruence|].
  split; [|split; apply Forall_app; auto].
  eapply Permutation_trans; [|apply (Permutation_app Hp1 Hp2)].
  unfold outcomeRefs. rewrite <- !app_assoc. apply Permutation_app_head.
  rewrite !app_assoc. apply Permutation_app_tail, Permutation_app_comm.
Qed.

Lemma fold_mergeBatch_consistent api cs rs :
  Forall2 (fun c r => matchMessages cmp c api = Ok r) cs rs ->
  forall d0 r0,
    consistent d0 r0 ->
    consistent (d0 ++ List.concat cs) (fold_left mergeBatch rs r0) /\
    Statistics.totalDbMessages (Results.statistics (fold_left mergeBatch rs r0))
      = Statistics.totalDbMessages (Results.statistics r0).
Proof.
  induction 1 as [|c r cs rs Hr _ IH]; intros d0 r0 H0; simpl.
  - now rewrite app_nil_r.
  - destruct (matchMessages_consistent _ _ _ Hr) as [Hc _].
    destruct (IH (d0 ++ c) (mergeBatch r0 r) (mergeBatch_consistent _ _ _ _ H0 Hc))
      as [IH1 IH2].
    rewrite <- app_assoc in IH1. split; [exact IH1|exact IH2].
Qed.

Lemma emptyResults_consistent n m : consistent [] (emptyResults n m).
Proof.
  unfold consistent, outcomeRefs. simpl. repeat split; constructor.
Qed.

(** [batchMatchMessages] with a batch size of at least 1 returns, whatever
    the fuel above the number of records; its result merges the results of
    the batches and is consistent with the whole list. *)
Lemma batchMatchMessages_spec db api b : (1 <= b)%Z ->
  exists rs r,
    Forall2 (fun c r => matchMessages cmp c api = Ok r)
            (chunks (Z.to_nat b) db) rs /\
    r = withAverageConfidence
          (fold_left mergeBatch rs
             (emptyResults (List.length db) (List.length api))) /\
    (forall fuel, (List.length db < fuel)%nat ->
       batchMatchMessages cmp fuel db api (Some b) = Some (Ok r)) /\
    consistent db r /\
    Statistics.totalDbMessages (Results.statistics r) = List.length db.
Proof.
  intro Hb.
  destruct (batchLoop_spec db api b Hb (S (List.length db)) 0
              (emptyResults (List.length db) (List.length api)))
    as (rs & Hrs & _); [lia|lia|].
  simpl skipn in Hrs.
  exists rs, (withAverageConfidence
                (fold_left mergeBatch rs
                   (emptyResults (List.length db) (List.length api)))).
  split; [exact Hrs|]. split; [reflexivity|].
  destruct (fold_mergeBatch_consistent api _ _ Hrs [] _
              (emptyResults_consistent (List.length db) (List.length api)))
    as [Hc Ht].
  rewrite concat_chunks in Hc by lia. simpl in Hc.
  split; [|split].
  - intros fuel Hfuel. unfold batchMatchMessages.
    destruct (batchLoop_spec db api b Hb fuel 0
                (emptyResults (List.length db) (List.length api)))
      as (rs' & Hrs' & Hrun); [lia|lia|].
    simpl skipn in Hrs'. rewrite Hrun.
    assert (rs' = rs) as ->; [|reflexivity].
    clear - Hrs Hrs'.
    revert rs' Hrs'. induction Hrs as [|c r cs rs Hr _ IH]; intros rs' Hrs';
      inversion Hrs'; subst; [reflexivity|].
    f_equal; [congruence|auto].
  - now apply withAverageConfidence_consistent.
  - destruct (withAverageConfidence_keeps
                (fold_left mergeBatch rs
                   (emptyResults (List.length db) (List.length api))))
      as (_ & _ & _ & _ & E & _).
    rewrite E, Ht. reflexivity.
Qed.

End BatchProps.

(** ** The claims about the matcher and the batch loop *)

Lemma consistent_accountsFor db r :
  consistent db r ->
  Statistics.totalDbMessages (Results.statistics r) = List.length db ->
  accountsFor db r.
Proof.
  intros (Hm & Hu & Hp & _) Ht. unfold accountsFor.
  assert (Hlen : (List.length (Results.matched r)
                  + List.length (Results.unmatched r) = List.length db)%nat).
  { apply Permutation_length in Hp. unfold outcomeRefs in Hp.
    now rewrite length_app, !length_map in Hp. }
  repeat split; auto. rewrite Hm, Hu, Ht. exact Hlen.
Qed.

(** C3: each internal record appears in exactly one outcome, so matched plus
    unmatched equals the number of internal records: in the result of
    [matchMessages] on a batch, and in the merged result of
    [batchMatchMessages] (for any batch size of at least 1, and for the
    default one), which is returned whenever the fuel exceeds the number of
    records. *)
Theorem every_record_has_one_outcome cmp db api :
  (exists r, matchMessages cmp db api = Ok r /\ accountsFor db r) /\
  (forall p : positive,
     exists r,
       (forall k, batchMatchMessages cmp (S (List.length db) + k) db api
                    (Some (Zpos p)) = Some (Ok r)) /\
       accountsFor db r) /\
  (exists r,
     (forall k, batchMatchMessages cmp (S (List.length db) + k) db api None
                = Some (Ok r)) /\
     accountsFor db r).
Proof.
  split; [|split].
  - destruct (matchMessages_spec cmp db api) as (st & _ & H & _ & Hc & Ht).
    eexists. split; [exact H|]. now apply consistent_accountsFor.
  - intro p.
    destruct (batchMatchMessages_spec cmp db api (Zpos p))
      as (rs & r & _ & _ & Hrun & Hc & Ht); [lia|].
    exists r. split; [|now apply consistent_accountsFor].
    intro k. apply Hrun. lia.
  - destruct (batchMatchMessages_spec cmp db api MATCHING.BATCH_SIZE)
      as (rs & r & _ & _ & Hrun & Hc & Ht); [unfold MATCHING.BATCH_SIZE; lia|].
    exists r. split; [|now apply consistent_accountsFor].
    intro k. apply (Hrun (S (List.length db) + k)%nat). lia.
Qed.

(** C10: with a batch size of at least 1, [batchMatchMessages] terminates:
    any fuel above the number of records gives the same result, which merges
    the results of [matchMessages] on the contiguous batches of [batchSize]
    records; the batches put end to end are the list of internal records, so
    each record is processed exactly once.  The precondition is needed: with a
    batch size of 0 or less and at least one record the loop never ends. *)
Theorem batchMatchMessages_terminates cmp db api b (Hb : (1 <= b)%Z) :
  List.concat (chunks (Z.to_nat b) db) = db /\
  (exists rs r,
     Forall2 (fun c r => matchMessages cmp c api = Ok r)
             (chunks (Z.to_nat b) db) rs /\
     r = withAverageConfidence
           (fold_left mergeBatch rs
              (emptyResults (List.length db) (List.length api))) /\
     forall fuel, (List.length db < fuel)%nat ->
       batchMatchMessages cmp fuel db api (Some b) = Some (Ok r)) /\
  (forall d rest k fuel,
     batchMatchMessages cmp fuel (d :: rest) api (Some (- Z.of_nat k)%Z) = None).
Proof.
  split; [apply concat_chunks; lia|]. split.
  - destruct (batchMatchMessages_spec cmp db api b Hb)
      as (rs & r & Hrs & Hr & Hrun & _).
    exists rs, r. auto.
  - intros d rest k fuel. unfold batchMatchMessages.
    rewrite batchLoop_diverges; [reflexivity|lia|discriminate|lia].
Qed.

Lemma batchMatchMessages_terminates_witness :
  (1 <= 2)%Z /\
  (List.concat (chunks (Z.to_nat 2) sampleDb) = sampleDb /\
   (exists rs r,
      Forall2 (fun c r =>
                 matchMessages StringSimilarity.compareTwoStrings c samplePool
                 = Ok r)
              (chunks (Z.to_nat 2) sampleDb) rs /\
      r = withAverageConfidence
            (fold_left mergeBatch rs
               (emptyResults (List.length sampleDb) (List.length samplePool))) /\
      forall fuel, (List.length sampleDb < fuel)%nat ->
        batchMatchMessages StringSimilarity.compareTwoStrings fuel sampleDb
          samplePool (Some 2%Z) = Some (Ok r)) /\
   (forall d rest k fuel,
      batchMatchMessages StringSimilarity.compareTwoStrings fuel (d :: rest)
        samplePool (Some (- Z.of_nat k)%Z) = None)).
Proof.
  split; [lia|].
  apply (batchMatchMessages_terminates StringSimilarity.compareTwoStrings
           sampleDb samplePool 2).
  lia.
Defined.

(** C2: within one batch no external record is used by two matched outcomes:
    the indices consumed by a run of [matchMessages] are pairwise distinct,
    and the k-th matched outcome was built from the record at the k-th
    consumed index.  Across batches the record can be used again: with a batch
    size of 1, two internal records with the same text are both matched with
    the one external record of the pool. *)
Theorem external_record_once_per_batch_only :
  (forall cmp db api,
     exists st,
       matchLoop cmp api (initialState db api) db = Ok st /\
       matchMessages cmp db api = Ok (withAverageConfidence (results st)) /\
       NoDup (matchedApiIndices st) /\
       Forall2 (refersTo api)
               (Results.matched (withAverageConfidence (results st)))
               (matchedApiIndices st)) /\
  (exists r m1 m2 st1 st2,
     let cmp := StringSimilarity.compareTwoStrings in
     let api := [confirmation] in
     chunks 1 [reminderA; reminderB] = [[reminderA]; [reminderB]] /\
     batchMatchMessages cmp 3 [reminderA; reminderB] api (Some 1%Z)
       = Some (Ok r) /\
     Results.matched r = [m1; m2] /\
     Matched.dbMessage m1 = dbRef reminderA /\
     Matched.dbMessage m2 = dbRef reminderB /\
     refersTo api m1 0 /\ refersTo api m2 0 /\
     matchLoop cmp api (initialState [reminderA] api) [reminderA] = Ok st1 /\
     matchLoop cmp api (initialState [reminderB] api) [reminderB] = Ok st2 /\
     matchedApiIndices st1 = [0%Z] /\ matchedApiIndices st2 = [0%Z]).
Proof.
  split.
  - intros cmp db api.
    destruct (matchMessages_spec cmp db api) as (st & Hrun & H & Hinv & _).
    exists st. destruct Hinv as (_ & Hnd & Hf2).
    destruct (withAverageConfidence_keeps (results st)) as (E & _).
    rewrite E. auto.
  - do 5 eexists. cbv zeta.
    split; [reflexivity|].
    split; [vm_compute; reflexivity|].
    split; [reflexivity|].
    split; [reflexivity|]. split; [reflexivity|].
    split; [exists 0%nat, confirmation; repeat split; reflexivity|].
    split; [exists 0%nat, confirmation; repeat split; reflexivity|].
    split; [vm_compute; reflexivity|].
    split; [vm_compute; reflexivity|].
    split; reflexivity.
Qed.

(** A score that reaches the threshold is greater than 0. *)
Lemma threshold_positive s :
  (MATCHING.SIMILARITY_THRESHOLD <=? s)%float = true -> (0 <? s)%float = true.
Proof.
  rewrite FloatAxioms.leb_spec, FloatAxioms.ltb_spec.
  set (t := Prim2SF MATCHING.SIMILARITY_THRESHOLD). vm_compute in t. subst t.
  set (z := Prim2SF 0%float). vm_compute in z. subst z.
  destruct (Prim2SF s) as [sg|[|]| |[|] m e]; simpl;
    try discriminate; reflexivity.
Qed.

Section TemporalProps.

Variable cmp : string -> string -> float.

(** When every candidate is strictly earlier than the internal record, the
    inner loop skips them all. *)
Lemma findBestFrom_all_earlier d used t : 
  DbMessage.sent_date d = Some (DateAt t) ->
  forall rest i b,
    allBefore rest t ->
    findBestFrom cmp d used i rest b = Ok b.
Proof.
  intros Hd. induction rest as [|a rest IH]; intros i b Hall; simpl;
    [reflexivity|].
  assert (Hrest : allBefore rest t).
  { intros a' Ha'. apply Hall. now right. }
  destruct (setHas used (Z.of_nat i)); [now apply IH|].
  destruct (Hall a (or_introl eq_refl)) as (t' & Ht' & Hlt).
  rewrite Hd, Ht'. simpl.
  destruct (Z.ltb_spec t' t); [|lia]. now apply IH.
Qed.

Lemma strictly_later_is_unmatched api st d t :
  DbMessage.sent_date d = Some (DateAt t) ->
  allBefore api t ->
  processDbMessage cmp api st d = Ok (pushUnmatched d noBest (trackFirst d st)).
Proof.
  intros Hd Hall. unfold processDbMessage.
  now rewrite (findBestFrom_all_earlier d _ t Hd api 0 noBest Hall).
Qed.

Lemma equal_timestamp_matches d a t s :
  DbMessage.sent_date d = Some (DateAt t) ->
  orDate (ApiMessage.timestamp a) (ApiMessage.sent_date a) = Some (DateAt t) ->
  calculateSimilarity cmp (DbMessage.message d)
    (orText (ApiMessage.message a) (ApiMessage.body a)) = Ok s ->
  (MATCHING.SIMILARITY_THRESHOLD <=? s)%float = true ->
  exists r,
    matchMessages cmp [d] [a] = Ok r /\
    Results.matched r =
      [ {| Matched.dbMessage := dbRef d;
           Matched.apiMessage := apiRef a;
           Matched.confidenceScore := s;
           Matched.similarityPercentage :=
             (toFixed (s * 100)%float 2 ++ "%")%string |} ] /\
    Results.unmatched r = [].
Proof.
  intros Hd Ha Hs Ht.
  unfold matchMessages, matchLoop, processDbMessage. cbn [findBestFrom].
  cbn [matchedApiIndices trackFirst initialState setHas existsb].
  rewrite Hd, Ha, Hs. cbn [newDate dateGt bind].
  rewrite Z.ltb_irrefl. cbn [bestScore noBest].
  rewrite (threshold_positive s Ht), Ht. cbn [andb bestMatch bestScore bind].
  rewrite Ht. cbn [bind]. eexists. split; [reflexivity|].
  destruct (withAverageConfidence_keeps
              (results (pushMatched d
                 {| bestMatch := Some a; bestScore := s;
                    bestIndex := Z.of_nat 0 |} a
                 (trackFirst d (initialState [d] [a]))))) as (E1 & E2 & _).
  rewrite E1, E2. split; reflexivity.
Qed.

Lemma okMatched_notEarlier m : okMatched m -> notEarlier m.
Proof.
  intros [H _] t1 t2 H1 H2. rewrite H1, H2 in H. simpl in H.
  destruct (Z.ltb_spec t2 t1); [discriminate|lia].
Qed.

End TemporalProps.

(** C5: no matched outcome pairs an internal record with an external record
    whose timestamp is strictly earlier -- in the result of a batch and in the
    merged result of a run; a candidate with an equal timestamp stays
    eligible and is matched when its score reaches the threshold; and an
    internal record dated strictly after every external record of the pool is
    recorded, whatever the state of the loop, as unmatched with the reason
    'No matching message found' and the score 0. *)
Theorem temporal_order_respected cmp :
  (forall db api,
     exists r, matchMessages cmp db api = Ok r /\
               Forall notEarlier (Results.matched r)) /\
  (forall db api (p : positive),
     exists r,
       batchMatchMessages cmp (S (List.length db)) db api (Some (Zpos p))
         = Some (Ok r) /\
       Forall notEarlier (Results.matched r)) /\
  (forall d a t s,
     DbMessage.sent_date d = Some (DateAt t) ->
     orDate (ApiMessage.timestamp a) (ApiMessage.sent_date a)
       = Some (DateAt t) ->
     calculateSimilarity cmp (DbMessage.message d)
       (orText (ApiMessage.message a) (ApiMessage.body a)) = Ok s ->
     (MATCHING.SIMILARITY_THRESHOLD <=? s)%float = true ->
     exists r m,
       matchMessages cmp [d] [a] = Ok r /\
       Results.matched r = [m] /\ Results.unmatched r = [] /\
       Matched.dbMessage m = dbRef d /\ Matched.apiMessage m = apiRef a /\
       Matched.confidenceScore m = s) /\
  (forall api st d t,
     DbMessage.sent_date d = Some (DateAt t) ->
     allBefore api t ->
     exists st',
       processDbMessage cmp api st d = Ok st' /\
       Results.matched (results st') = Results.matched (results st) /\
       Results.unmatched (results st') =
         Results.unmatched (results st) ++
         [ {| Unmatched.dbMessage := dbRef d;
              Unmatched.bestMatchScore := 0%float;
              Unmatched.reason := "No matching message found" |} ]).
Proof.
  split; [|split; [|split]].
  - intros db api.
    destruct (matchMessages_spec cmp db api) as (st & _ & H & _ & Hc & _).
    eexists. split; [exact H|].
    destruct Hc as (_ & _ & _ & Hm & _).
    eapply Forall_impl; [|exact Hm]. apply okMatched_notEarlier.
  - intros db api p.
    destruct (batchMatchMessages_spec cmp db api (Zpos p))
      as (rs & r & _ & _ & Hrun & Hc & _); [lia|].
    exists r. split; [apply Hrun; lia|].
    destruct Hc as (_ & _ & _ & Hm & _).
    eapply Forall_impl; [|exact Hm]. apply okMatched_notEarlier.
  - intros d a t s Hd Ha Hs Ht.
    destruct (equal_timestamp_matches cmp d a t s Hd Ha Hs Ht)
      as (r & Hr & Hm & Hu).
    exists r. eexists. repeat split; eauto.
  - intros api st d t Hd Hall.
    eexists. split; [apply (strictly_later_is_unmatched cmp api st d t Hd Hall)|].
    split; reflexivity.
Qed.

Lemma temporal_order_respected_witness :
  (exists r m,
     matchMessages StringSimilarity.compareTwoStrings
       [textMessage "m1" "Hello" 2000] [providerMessage "Hello" 2000] = Ok r /\
     Results.matched r = [m] /\ Results.unmatched r = [] /\
     Matched.dbMessage m = dbRef (textMessage "m1" "Hello" 2000) /\
     Matched.apiMessage m = apiRef (providerMessage "Hello" 2000) /\
     Matched.confidenceScore m = 1%float) /\
  (exists st',
     processDbMessage StringSimilarity.compareTwoStrings
       [providerMessage "Hello" 1000]
       (initialState [textMessage "m1" "Hello" 2000]
                     [providerMessage "Hello" 1000])
       (textMessage "m1" "Hello" 2000) = Ok st' /\
     Results.matched (results st') = [] /\
     Results.unmatched (results st') =
       [ {| Unmatched.dbMessage := dbRef (textMessage "m1" "Hello" 2000);
            Unmatched.bestMatchScore := 0%float;
            Unmatched.reason := "No matching message found" |} ]).
Proof.
  destruct (temporal_order_respected StringSimilarity.compareTwoStrings)
    as (_ & _ & Hequal & Hlater).
  split.
  - apply (Hequal (textMessage "m1" "Hello" 2000)
                  (providerMessage "Hello" 2000) 2000%Z 1%float);
      reflexivity.
  - apply (Hlater [providerMessage "Hello" 1000]
                  (initialState [textMessage "m1" "Hello" 2000]
                                [providerMessage "Hello" 1000])
                  (textMessage "m1" "Hello" 2000) 2000%Z);
      [reflexivity|].
    intros a [<- | []]. exists 1000%Z. split; [reflexivity|lia].
Defined.

(** C1 (the code at the failing input): the internal record "abcd" has one
    temporally eligible candidate, "abxy", which scores 1/3: above 0 and below
    the threshold.  Its unmatched outcome carries the score 0 and the reason
    'No matching message found', not the observed score and 'Below similarity
    threshold'.  This is so for every unmatched outcome of every run: the inner
    loop stores a score only when it reaches the threshold, so the branch
    'Below similarity threshold' is never taken. *)
Theorem unmatched_loses_observed_score :
  (exists s r u,
     let cmp := StringSimilarity.compareTwoStrings in
     let d := textMessage "m1" "abcd" 1000 in
     let a := providerMessage "abxy" 2000 in
     dateGt (newDate (DbMessage.sent_date d))
            (newDate (orDate (ApiMessage.timestamp a) (ApiMessage.sent_date a)))
       = false /\
     calculateSimilarity cmp (DbMessage.message d)
       (orText (ApiMessage.message a) (ApiMessage.body a)) = Ok s /\
     (0 <? s)%float = true /\
     (s <? MATCHING.SIMILARITY_THRESHOLD)%float = true /\
     matchMessages cmp [d] [a] = Ok r /\
     Results.matched r = [] /\ Results.unmatched r = [u] /\
     Unmatched.bestMatchScore u = 0%float /\
     Unmatched.reason u = "No matching message found"%string) /\
  (forall cmp db api,
     exists r, matchMessages cmp db api = Ok r /\
               Forall okUnmatched (Results.unmatched r)).
Proof.
  split.
  - do 3 eexists. cbv zeta.
    split; [reflexivity|].
    split; [vm_compute; reflexivity|].
    split; [vm_compute; reflexivity|].
    split; [vm_compute; reflexivity|].
    split; [vm_compute; reflexivity|].
    repeat split.
  - intros cmp db api.
    destruct (matchMessages_spec cmp db api) as (st & _ & H & _ & Hc & _).
    eexists. split; [exact H|]. apply Hc.
Qed.

(** C8 (the code at the failing input): a request with [matchingThreshold]
    0.95 -- a value the controller accepts -- gets a matched outcome whose
    confidence, 32/35, is below 0.95.  [verifyMessages] reads the parameter and
    never passes it on: the matcher compares with the constant 0.90, and the
    result of [verifyMessages] is the same for every [matchingThreshold]. *)
Theorem caller_threshold_ignored :
  exists v m,
    VerificationService.verifyMessages 2
      {| VerificationService.dateFrom := "2025-01-01";
         VerificationService.dateTo := "2025-01-31";
         VerificationService.matchingThreshold := Some 0.95%float;
         VerificationService.includeDetails := Some true |}
      ["15550100"%string]
      [textMessage "m1" "abcdefghijklmnopqrst" 1000]
      {| VerificationService.responses :=
           [ {| VerificationService.success := true;
                VerificationService.messages :=
                  Some [providerMessage "abcdefghijklmnopq" 2000] |} ];
         VerificationService.errors := [] |}
    = Some (Ok v) /\
    option_map VerificationService.detailsMatched
      (VerificationService.details (VerificationService.report v)) = Some [m] /\
    (Matched.confidenceScore m <? 0.95)%float = true /\
    (0.95 <=? Matched.confidenceScore m)%float = false /\
    Matched.similarityPercentage m = "91.43%"%string /\
    (forall fuel from to t t' details numbers db response,
       VerificationService.verifyMessages fuel
         {| VerificationService.dateFrom := from;
            VerificationService.dateTo := to;
            VerificationService.matchingThreshold := t;
            VerificationService.includeDetails := details |}
         numbers db response
       = VerificationService.verifyMessages fuel
           {| VerificationService.dateFrom := from;
              VerificationService.dateTo := to;
              VerificationService.matchingThreshold := t';
              VerificationService.includeDetails := details |}
           numbers db response).
Proof.
  do 2 eexists. split; [vm_compute; reflexivity|].
  split; [reflexivity|]. repeat split.
Qed.

(** C4 (the code at the failing input): a run over zero internal records
    reports the match rate "NaN%": [matchRate] divides 0 by 0 without the guard
    that [unmatchedRate], next to it, has. *)
Theorem match_rate_of_empty_run fuel params numbers apiResponse :
  exists v,
    VerificationService.verifyMessages (S fuel) params numbers [] apiResponse
      = Some (Ok v) /\
    let s := VerificationService.summary (VerificationService.report v) in
    VerificationService.totalMessagesInDB s = 0%nat /\
    VerificationService.matchRate s = "NaN%"%string /\
    VerificationService.matchRate s <> "0%"%string /\
    VerificationService.unmatchedRate (VerificationService.firstMessageStats s)
      = "0%"%string.
Proof.
  unfold VerificationService.verifyMessages, batchMatchMessages.
  cbn [batchLoop List.length Z.of_nat Z.ltb Z.compare].
  unfold withAverageConfidence, emptyResults. cbn [Results.matched].
  unfold VerificationService.generateVerificationReport.
  destruct (match VerificationService.includeDetails params with
            | Some b => b | None => true end);
    cbn; eexists; (split; [reflexivity|]); cbn;
    repeat split; try (vm_compute; reflexivity); vm_compute; discriminate.
Qed.

(** ** The similarity scorer *)

(** *** The quotient of the Dice coefficient

    [binary_normalize] is the conversion of an integer to a float: on a
    positive integer it gives a positive float or infinity. *)

Lemma digits2_lower p : (2 ^ (Zpos (digits2_pos p) - 1) <= Zpos p)%Z.
Proof.
  induction p as [p IH|p IH|]; simpl digits2_pos.
  - rewrite Pos2Z.inj_succ.
    replace (Z.succ (Zpos (digits2_pos p)) - 1)%Z
      with (Z.succ (Zpos (digits2_pos p) - 1))%Z by lia.
    rewrite Z.pow_succ_r by lia. lia.
  - rewrite Pos2Z.inj_succ.
    replace (Z.succ (Zpos (digits2_pos p)) - 1)%Z
      with (Z.succ (Zpos (digits2_pos p) - 1))%Z by lia.
    rewrite Z.pow_succ_r by lia. lia.
  - simpl. lia.
Qed.

Lemma shr_1_m mrs : (0 <= shr_m mrs)%Z -> shr_m (shr_1 mrs) = (shr_m mrs / 2)%Z.
Proof.
  destruct mrs as [m r s]. simpl. intro H.
  destruct m as [|[p|p|]|p]; simpl; try lia.
  - reflexivity.
  - apply Z.div_unique with (r := 1%Z); lia.
  - apply Z.div_unique with (r := 0%Z); lia.
  - reflexivity.
Qed.

Lemma iter_shr_1_m p : forall mrs,
  (0 <= shr_m mrs)%Z ->
  shr_m (iter_pos shr_1 p mrs) = (shr_m mrs / 2 ^ Zpos p)%Z.
Proof.
  induction p as [p IH|p IH|]; intros mrs H; simpl iter_pos.
  - assert (H1 : (0 <= shr_m (shr_1 mrs))%Z)
      by (rewrite shr_1_m by lia; apply Z.div_pos; lia).
    assert (H2 : (0 <= shr_m (iter_pos shr_1 p (shr_1 mrs)))%Z)
      by (rewrite IH by lia; apply Z.div_pos; lia).
    rewrite IH, IH, shr_1_m by lia.
    rewrite !Z.div_div by lia. f_equal.
    replace (Zpos p~1) with (1 + Zpos p + Zpos p)%Z by lia.
    rewrite !Z.pow_add_r by lia. lia.
  - assert (H2 : (0 <= shr_m (iter_pos shr_1 p mrs))%Z)
      by (rewrite IH by lia; apply Z.div_pos; lia).
    rewrite IH, IH by lia.
    rewrite !Z.div_div by lia. f_equal.
    replace (Zpos p~0) with (Zpos p + Zpos p)%Z by lia.
    rewrite !Z.pow_add_r by lia. lia.
  - rewrite shr_1_m by lia. reflexivity.
Qed.

Lemma shr_record_of_loc_m m l : shr_m (shr_record_of_loc m l) = m.
Proof. destruct l as [|[| |]]; reflexivity. Qed.

(** Shifting a positive mantissa to its format exponent leaves it positive. *)
Lemma shr_fexp_pos m e l :
  (0 < m)%Z -> (SpecFloat.emin prec emax <= e)%Z ->
  (0 < shr_m (fst (shr_fexp prec emax m e l)))%Z /\
  (SpecFloat.emin prec emax <= snd (shr_fexp prec emax m e l))%Z.
Proof.
  intros Hm He. unfold shr_fexp, shr.
  destruct m as [|p|p]; try lia.
  pose proof (digits2_lower p) as Hd.
  unfold SpecFloat.fexp, SpecFloat.emin, prec, emax in *. simpl Zdigits2.
  destruct (Z.max (Zpos (digits2_pos p) + e - 53) (3 - 1024 - 53) - e)%Z
    as [|n|n] eqn:En; simpl fst; simpl snd;
    rewrite ?shr_record_of_loc_m; try (split; lia).
  rewrite iter_shr_1_m by (rewrite shr_record_of_loc_m; lia).
  rewrite shr_record_of_loc_m. split; [|lia].
  apply Z.div_str_pos. split; [apply Z.pow_pos_nonneg; lia|].
  eapply Z.le_trans; [|exact Hd].
  apply Z.pow_le_mono_r; lia.
Qed.

Lemma round_nearest_even_pos m l : (0 < m)%Z -> (0 < round_nearest_even m l)%Z.
Proof.
  intro H. destruct l as [|[| |]]; simpl; try lia.
  destruct (Z.even m); lia.
Qed.

Lemma binary_round_aux_pos m e l :
  (0 < m)%Z -> (SpecFloat.emin prec emax <= e)%Z ->
  binary_round_aux prec emax false m e l = S754_infinity false \/
  exists m' e', binary_round_aux prec emax false m e l = S754_finite false m' e'.
Proof.
  intros Hm He. unfold binary_round_aux.
  destruct (shr_fexp_pos m e l Hm He) as [H1 H1e].
  destruct (shr_fexp prec emax m e l) as [mrs' e'] eqn:E1. simpl in H1, H1e.
  pose proof (round_nearest_even_pos (shr_m mrs') (loc_of_shr_record mrs') H1) as H2.
  destruct (shr_fexp_pos _ e' loc_Exact H2 H1e) as [H3 _].
  destruct (shr_fexp prec emax _ e' loc_Exact) as [mrs'' e''] eqn:E2.
  simpl in H3.
  destruct (shr_m mrs'') as [|q|q]; try lia.
  destruct (Z.leb e'' (emax - prec)); eauto.
Qed.

Lemma binary_normalize_pos p :
  binary_normalize prec emax (Zpos p) 0 false = S754_infinity false \/
  exists m e, binary_normalize prec emax (Zpos p) 0 false = S754_finite false m e.
Proof.
  unfold binary_normalize, binary_round, shl_align.
  destruct (SpecFloat.fexp prec emax (Zpos (digits2_pos p) + 0) - 0)%Z as [|d|d] eqn:E;
    apply binary_round_aux_pos; try lia;
    unfold SpecFloat.fexp, SpecFloat.emin, prec, emax in *; lia.
Qed.

(** A zero numerator over a positive count is zero. *)
Lemma zero_over_count d :
  (0 < d < 2 ^ 63)%Z -> (0 / ofZ d)%float = 0%float.
Proof.
  intro Hd.
  rewrite <- (SF2Prim_Prim2SF (0 / ofZ d)%float).
  rewrite FloatAxioms.div_spec. unfold ofZ.
  rewrite of_uint63_spec, Uint63.of_Z_spec.
  rewrite Z.mod_small by (unfold wB; simpl; lia).
  destruct d as [|p|p]; try lia.
  destruct (binary_normalize_pos p) as [-> | (m & e & ->)]; reflexivity.
Qed.

(** *** The bigram count *)

Import StringSimilarity.

Lemma mapGet_mapSet m k v g c :
  mapGet (mapSet m k v) g = Some c -> g = k \/ mapGet m g = Some c.
Proof.
  induction m as [|[k' v'] r IH]; simpl.
  - destruct (String.eqb_spec k g); [auto|discriminate].
  - destruct (String.eqb_spec k' k) as [-> | Hk]; simpl.
    + destruct (String.eqb_spec k g); auto.
    + destruct (String.eqb_spec k' g); auto.
Qed.

Lemma countFold_keys gs : forall m g c,
  mapGet
    (fold_left
       (fun m bigram =>
          let count := match mapGet m bigram with
                       | Some c => c + 1
                       | None => 1
                       end in
          mapSet m bigram count) gs m) g = Some c ->
  In g gs \/ exists c', mapGet m g = Some c'.
Proof.
  induction gs as [|k gs IH]; intros m g c H; simpl in *; [eauto|].
  apply IH in H as [H | [c' H]]; [auto|].
  apply mapGet_mapSet in H as [-> | H]; eauto.
Qed.

Lemma countBigrams_keys x g c :
  mapGet (countBigrams x) g = Some c -> In g (bigrams x).
Proof.
  intro H. apply countFold_keys in H as [H | [c' H]]; [exact H|discriminate].
Qed.

Lemma intersect_untouched m gs : forall k,
  (forall g, In g gs -> mapGet m g = None) ->
  fold_left
    (fun '(m, intersectionSize) bigram =>
       let count := match mapGet m bigram with
                    | Some c => c
                    | None => 0
                    end in
       if 0 <? count
       then (mapSet m bigram (count - 1), S intersectionSize)
       else (m, intersectionSize))
    gs (m, k) = (m, k).
Proof.
  induction gs as [|g gs IH]; intros k H; simpl; [reflexivity|].
  rewrite (H g (or_introl eq_refl)). simpl. apply IH.
  intros g' Hg'. apply H. now right.
Qed.

Lemma intersect_disjoint x y :
  shareNoBigram x y -> intersect (countBigrams x) y = (countBigrams x, 0).
Proof.
  intro H. unfold intersect. apply intersect_untouched.
  intros g Hg. destruct (mapGet (countBigrams x) g) as [c|] eqn:E; [|reflexivity].
  apply countBigrams_keys in E. now destruct (H g E).
Qed.

(** *** Lengths: no step of the normalizer makes a string longer *)

Lemma length_toLowerCase s : String.length (toLowerCase s) = String.length s.
Proof. induction s; simpl; congruence. Qed.

Lemma length_collapseFrom s : forall b,
  (String.length (collapseFrom b s) <= String.length s)%nat.
Proof.
  induction s as [|c r IH]; intro b; simpl; [lia|].
  destruct (isWhiteSpace c); [destruct b|]; simpl;
    [specialize (IH true)|specialize (IH true)|specialize (IH false)]; lia.
Qed.

Lemma length_removeNonWord s :
  (String.length (removeNonWord s) <= String.length s)%nat.
Proof.
  induction s as [|c r IH]; simpl; [lia|].
  destruct (isWordChar c || isWhiteSpace c); simpl; lia.
Qed.

Lemma length_removeWhitespace s :
  (String.length (removeWhitespace s) <= String.length s)%nat.
Proof.
  induction s as [|c r IH]; simpl; [lia|].
  destruct (isWhiteSpace c); simpl; lia.
Qed.

Lemma length_trimStart s : (String.length (trimStart s) <= String.length s)%nat.
Proof.
  induction s as [|c r IH]; simpl; [lia|].
  destruct (isWhiteSpace c); simpl; lia.
Qed.

Lemma length_trimEnd s : (String.length (trimEnd s) <= String.length s)%nat.
Proof.
  induction s as [|c r IH]; simpl; [lia|].
  destruct (trimEnd r); [destruct (isWhiteSpace c)|]; simpl in *; lia.
Qed.

Lemma length_normalizeString s :
  (String.length (normalizeString s) <= String.length s)%nat.
Proof.
  unfold normalizeString, trim, replaceWhitespaceRuns.
  pose proof (length_trimEnd
    (trimStart (removeNonWord (collapseFrom false (toLowerCase s))))).
  pose proof (length_trimStart
    (removeNonWord (collapseFrom false (toLowerCase s)))).
  pose proof (length_removeNonWord (collapseFrom false (toLowerCase s))).
  pose proof (length_collapseFrom (toLowerCase s) false).
  pose proof (length_toLowerCase s). lia.
Qed.

Lemma compareTwoStrings_equal x y :
  removeWhitespace x = removeWhitespace y -> compareTwoStrings x y = 1%float.
Proof.
  intro H. unfold compareTwoStrings. rewrite H, String.eqb_refl. reflexivity.
Qed.

Lemma compareTwoStrings_disjoint x y :
  removeWhitespace x <> removeWhitespace y ->
  shareNoBigram (removeWhitespace x) (removeWhitespace y) ->
  (Z.of_nat (String.length x) < 2 ^ 53)%Z ->
  (Z.of_nat (String.length y) < 2 ^ 53)%Z ->
  compareTwoStrings x y = 0%float.
Proof.
  intros Hne Hno Hx Hy. unfold compareTwoStrings.
  destruct (String.eqb_spec (removeWhitespace x) (removeWhitespace y));
    [contradiction|].
  destruct ((String.length (removeWhitespace x) <? 2)
            || (String.length (removeWhitespace y) <? 2)) eqn:Hshort;
    [reflexivity|].
  apply orb_false_iff in Hshort as [H1 H2].
  apply Nat.ltb_ge in H1, H2.
  rewrite (intersect_disjoint _ _ Hno).
  change (2.0 * ofNat 0)%float with 0%float.
  apply zero_over_count.
  pose proof (length_removeWhitespace x). pose proof (length_removeWhitespace y).
  assert (2 ^ 53 < 2 ^ 62)%Z by (apply Z.pow_lt_mono_r; lia).
  assert (2 ^ 62 + 2 ^ 62 = 2 ^ 63)%Z by reflexivity.
  lia.
Qed.

(** C9 (counterexample): two inputs equal to the single letter "a" have
    normalized forms without any bigram, hence without a common one, and score
    1; so do "!" and "?", which both normalize to the empty string. *)
Lemma identical_without_bigrams_score_one :
  shareNoBigram (normalizeString "a") (normalizeString "a") /\
  calculateSimilarity compareTwoStrings (JString "a") (JString "a")
    = Ok 1%float /\
  shareNoBigram (normalizeString "!") (normalizeString "?") /\
  calculateSimilarity compareTwoStrings (JString "!") (JString "?")
    = Ok 1%float /\
  (1 =? 0)%float = false.
Proof.
  repeat split; try reflexivity; intros g [].
Qed.

(** C9 (amended): for every pair of non-empty input strings (of a length the
    language allows, below 2^53) whose normalized forms, with their white
    space removed, are different and share no common character bigram, the
    similarity scorer returns 0.0; when these forms are equal it returns
    1.0. *)
Theorem disjoint_bigrams_score_zero a b :
  a <> ""%string -> b <> ""%string ->
  (Z.of_nat (String.length a) < 2 ^ 53)%Z ->
  (Z.of_nat (String.length b) < 2 ^ 53)%Z ->
  let x := removeWhitespace (normalizeString a) in
  let y := removeWhitespace (normalizeString b) in
  (x = y ->
   calculateSimilarity compareTwoStrings (JString a) (JString b)
     = Ok 1%float) /\
  (x <> y -> shareNoBigram x y ->
   calculateSimilarity compareTwoStrings (JString a) (JString b)
     = Ok 0%float).
Proof.
  intros Ha Hb La Lb x y.
  assert (Hcalc : calculateSimilarity compareTwoStrings (JString a) (JString b)
                  = Ok (compareTwoStrings (normalizeString a) (normalizeString b))).
  { unfold calculateSimilarity. destruct a; [contradiction|].
    destruct b; [contradiction|]. reflexivity. }
  rewrite Hcalc. split.
  - intro E. now rewrite compareTwoStrings_equal.
  - intros Hne Hno. rewrite compareTwoStrings_disjoint; auto.
    + pose proof (length_normalizeString a). lia.
    + pose proof (length_normalizeString b). lia.
Qed.

Lemma disjoint_bigrams_score_zero_witness :
  "abcd"%string <> ""%string /\ "wxyz"%string <> ""%string /\
  (Z.of_nat (String.length "abcd") < 2 ^ 53)%Z /\
  (Z.of_nat (String.length "wxyz") < 2 ^ 53)%Z /\
  removeWhitespace (normalizeString "abcd")
    <> removeWhitespace (normalizeString "wxyz") /\
  shareNoBigram (removeWhitespace (normalizeString "abcd"))
                (removeWhitespace (normalizeString "wxyz")) /\
  calculateSimilarity compareTwoStrings (JString "abcd") (JString "wxyz")
    = Ok 0%float.
Proof.
  assert (H1 : "abcd"%string <> ""%string) by discriminate.
  assert (H2 : "wxyz"%string <> ""%string) by discriminate.
  assert (H3 : (Z.of_nat (String.length "abcd") < 2 ^ 53)%Z) by reflexivity.
  assert (H4 : (Z.of_nat (String.length "wxyz") < 2 ^ 53)%Z) by reflexivity.
  assert (H5 : removeWhitespace (normalizeString "abcd")
               <> removeWhitespace (normalizeString "wxyz"))
    by (vm_compute; discriminate).
  assert (H6 : shareNoBigram (removeWhitespace (normalizeString "abcd"))
                             (removeWhitespace (normalizeString "wxyz"))).
  { intros g Hg Hg'. vm_compute in Hg, Hg'.
    destruct Hg as [<- | [<- | [<- | []]]];
      destruct Hg' as [E | [E | [E | []]]]; discriminate E. }
  refine (conj H1 (conj H2 (conj H3 (conj H4 (conj H5 (conj H6 _)))))).
  exact (proj2 (disjoint_bigrams_score_zero "abcd" "wxyz" H1 H2 H3 H4) H5 H6).
Defined.


(** * Further properties of the code *)

(** ** The order of floats

    [<] and [<=] on floats, through their specification [SFcompare]. *)

Ltac order_cases :=
  repeat match goal with
  | |- context [Z.compare ?a ?b] => destruct (Z.compare_spec a b)
  | H : context [Z.compare ?a ?b] |- _ => destruct (Z.compare_spec a b)
  | |- context [Pos.compare_cont Eq ?a ?b] =>
      change (Pos.compare_cont Eq a b) with (Pos.compare a b);
      destruct (Pos.compare_spec a b)
  | H : context [Pos.compare_cont Eq ?a ?b] |- _ =>
      change (Pos.compare_cont Eq a b) with (Pos.compare a b) in H;
      destruct (Pos.compare_spec a b)
  end; simpl in *; try discriminate; try reflexivity; try lia.

Lemma SFltb_trans a b c :
  SFltb a b = true -> SFltb b c = true -> SFltb a c = true.
Proof.
  unfold SFltb.
  destruct a as [[|]|[|]| |[|] ma ea], b as [[|]|[|]| |[|] mb eb],
           c as [[|]|[|]| |[|] mc ec];
    simpl; intros H1 H2; try discriminate; try reflexivity; order_cases.
Qed.

Lemma SFltb_leb_trans a b c :
  SFltb a b = true -> SFleb b c = true -> SFltb a c = true.
Proof.
  unfold SFltb, SFleb.
  destruct a as [[|]|[|]| |[|] ma ea], b as [[|]|[|]| |[|] mb eb],
           c as [[|]|[|]| |[|] mc ec];
    simpl; intros H1 H2; try discriminate; try reflexivity; order_cases.
Qed.

Lemma SFleb_ltb_trans a b c :
  SFleb a b = true -> SFltb b c = true -> SFltb a c = true.
Proof.
  unfold SFltb, SFleb.
  destruct a as [[|]|[|]| |[|] ma ea], b as [[|]|[|]| |[|] mb eb],
           c as [[|]|[|]| |[|] mc ec];
    simpl; intros H1 H2; try discriminate; try reflexivity; order_cases.
Qed.

Lemma SFltb_irrefl a : SFltb a a = false.
Proof.
  unfold SFltb. destruct a as [[|]|[|]| |[|] ma ea]; simpl; try reflexivity;
    rewrite Z.compare_refl; change (Pos.compare_cont Eq ma ma) with (Pos.compare ma ma);
    rewrite Pos.compare_refl; reflexivity.
Qed.

(** On floats that are not NaN, [<=] is total. *)
Lemma SFleb_total a b :
  SFleb a a = true -> SFleb b b = true -> SFltb a b = false -> SFleb b a = true.
Proof.
  unfold SFltb, SFleb.
  destruct a as [[|]|[|]| |[|] ma ea], b as [[|]|[|]| |[|] mb eb];
    simpl; intros H1 H2 H3; try discriminate; try reflexivity; order_cases.
Qed.

Lemma ltb_trans a b c :
  (a <? b)%float = true -> (b <? c)%float = true -> (a <? c)%float = true.
Proof. rewrite !FloatAxioms.ltb_spec. apply SFltb_trans. Qed.

Lemma ltb_leb_trans a b c :
  (a <? b)%float = true -> (b <=? c)%float = true -> (a <? c)%float = true.
Proof.
  rewrite !FloatAxioms.ltb_spec, FloatAxioms.leb_spec. apply SFltb_leb_trans.
Qed.

Lemma leb_ltb_trans a b c :
  (a <=? b)%float = true -> (b <? c)%float = true -> (a <? c)%float = true.
Proof.
  rewrite !FloatAxioms.ltb_spec, FloatAxioms.leb_spec. apply SFleb_ltb_trans.
Qed.

Lemma ltb_irrefl a : (a <? a)%float = false.
Proof. rewrite FloatAxioms.ltb_spec. apply SFltb_irrefl. Qed.

(** A float that reaches the threshold is not NaN. *)
Lemma threshold_leb_refl x :
  (MATCHING.SIMILARITY_THRESHOLD <=? x)%float = true -> (x <=? x)%float = true.
Proof.
  rewrite !FloatAxioms.leb_spec.
  set (t := Prim2SF MATCHING.SIMILARITY_THRESHOLD). vm_compute in t. subst t.
  unfold SFleb.
  destruct (Prim2SF x) as [[|]|[|]| |[|] m e]; simpl; try discriminate;
    try reflexivity.
  intros _. rewrite Z.compare_refl.
  change (Pos.compare_cont Eq m m) with (Pos.compare m m).
  now rewrite Pos.compare_refl.
Qed.

Lemma leb_total a b :
  (a <=? a)%float = true -> (b <=? b)%float = true ->
  (a <? b)%float = false -> (b <=? a)%float = true.
Proof.
  rewrite !FloatAxioms.leb_spec, FloatAxioms.ltb_spec. apply SFleb_total.
Qed.

(** ** Which candidate the matcher selects *)

Section SelectionProps.

Variable cmp : string -> string -> float.

Lemma candidate_unique d api used j a x a' x' :
  candidate cmp d api used j a x -> candidate cmp d api used j a' x' ->
  a' = a /\ x' = x.
Proof.
  intros (Hn & _ & _ & Hs) (Hn' & _ & _ & Hs').
  assert (a' = a) by congruence. subst a'. split; [reflexivity|].
  rewrite Hs in Hs'.
  change (match Ok (A := float) x' with Ok v => v | Throw _ => x end = x).
  now rewrite <- Hs'.
Qed.

(** Examining one more position keeps [selected]. *)
Lemma selected_skip d api used n b :
  (forall a x, ~ candidate cmp d api used n a x) ->
  selected cmp d api used n b -> selected cmp d api used (S n) b.
Proof.
  intros Hno [[-> Hq] | (a & i & s & -> & Hi & Hc & Ht & Hf)].
  - left. split; [reflexivity|]. intros j a x Hj Hcand.
    destruct (Nat.eq_dec j n) as [-> | Hne]; [now destruct (Hno a x)|].
    apply (Hq j a x); [lia|exact Hcand].
  - right. exists a, i, s.
    split; [reflexivity|]. split; [lia|]. split; [exact Hc|]. split; [exact Ht|].
    intros j a' x' Hj Hcand Hthr.
    destruct (Nat.eq_dec j n) as [-> | Hne]; [now destruct (Hno a' x')|].
    apply (Hf j a' x'); auto; lia.
Qed.

Lemma selected_step d api used n b a x :
  candidate cmp d api used n a x ->
  selected cmp d api used n b ->
  selected cmp d api used (S n)
    (if (bestScore b <? x)%float
        && (MATCHING.SIMILARITY_THRESHOLD <=? x)%float
     then {| bestMatch := Some a; bestScore := x; bestIndex := Z.of_nat n |}
     else b).
Proof.
  intros Hc [[-> Hq] | (a0 & i & s & -> & Hi & Hc0 & Ht & Hf)].
  - simpl bestScore.
    destruct (MATCHING.SIMILARITY_THRESHOLD <=? x)%float eqn:Hx.
    + rewrite (threshold_positive x Hx). simpl.
      right. exists a, n, x.
      split; [reflexivity|]. split; [lia|]. split; [exact Hc|].
      split; [exact Hx|].
      intros j a' x' Hj Hcand Hthr.
      destruct (Nat.eq_dec j n) as [-> | Hne].
      * destruct (candidate_unique _ _ _ _ _ _ _ _ Hc Hcand) as [_ ->].
        split; [apply ltb_irrefl|lia].
      * rewrite (Hq j a' x') in Hthr; [discriminate|lia|exact Hcand].
    + rewrite andb_false_r. left. split; [reflexivity|].
      intros j a' x' Hj Hcand.
      destruct (Nat.eq_dec j n) as [-> | Hne].
      * destruct (candidate_unique _ _ _ _ _ _ _ _ Hc Hcand) as [_ ->].
        exact Hx.
      * apply (Hq j a' x'); [lia|exact Hcand].
  - simpl bestScore.
    destruct ((s <? x)%float && (MATCHING.SIMILARITY_THRESHOLD <=? x)%float)
      eqn:Hcond.
    + apply andb_true_iff in Hcond as [Hsx Hx].
      right. exists a, n, x.
      split; [reflexivity|]. split; [lia|]. split; [exact Hc|].
      split; [exact Hx|].
      intros j a' x' Hj Hcand Hthr.
      destruct (Nat.eq_dec j n) as [-> | Hne].
      * destruct (candidate_unique _ _ _ _ _ _ _ _ Hc Hcand) as [_ ->].
        split; [apply ltb_irrefl|lia].
      * destruct (Hf j a' x') as [Hnot _]; [lia|exact Hcand|exact Hthr|].
        split.
        -- destruct (x <? x')%float eqn:E; [|reflexivity].
           now rewrite (ltb_trans _ _ _ Hsx E) in Hnot.
        -- intros _. destruct (x <=? x')%float eqn:E; [|reflexivity].
           now rewrite (ltb_leb_trans _ _ _ Hsx E) in Hnot.
    + right. exists a0, i, s.
      split; [reflexivity|]. split; [lia|]. split; [exact Hc0|].
      split; [exact Ht|].
      intros j a' x' Hj Hcand Hthr.
      destruct (Nat.eq_dec j n) as [-> | Hne].
      * destruct (candidate_unique _ _ _ _ _ _ _ _ Hc Hcand) as [_ ->].
        rewrite Hthr, andb_true_r in Hcond. split; [exact Hcond|lia].
      * apply (Hf j a' x'); auto; lia.
Qed.

Lemma findBestFrom_selects d api used : forall rest i b,
  (forall j a, nth_error rest j = Some a <-> nth_error api (i + j) = Some a) ->
  selected cmp d api used i b ->
  exists b', findBestFrom cmp d used i rest b = Ok b' /\
             selected cmp d api used (i + List.length rest) b'.
Proof.
  induction rest as [|a rest IH]; intros i b Hnth Hb; simpl.
  - exists b. now rewrite Nat.add_0_r.
  - assert (Hshift : forall j a', nth_error rest j = Some a' <->
                                  nth_error api (S i + j) = Some a').
    { intros j a'. replace (S i + j)%nat with (i + S j)%nat by lia.
      apply (Hnth (S j) a'). }
    assert (Ha : nth_error api i = Some a).
    { rewrite <- (Nat.add_0_r i). now apply Hnth. }
    rewrite <- Nat.add_succ_comm.
    destruct (setHas used (Z.of_nat i)) eqn:Hused.
    { apply IH; [exact Hshift|]. apply selected_skip; [|exact Hb].
      intros a' x (_ & H & _). congruence. }
    destruct (dateGt _ _) eqn:Hdate.
    { apply IH; [exact Hshift|]. apply selected_skip; [|exact Hb].
      intros a' x (Hn & _ & H & _).
      assert (a' = a) by congruence. subst a'. congruence. }
    destruct (calculateSimilarity_total cmp (DbMessage.message d)
                (orText (ApiMessage.message a) (ApiMessage.body a))) as [x Hx].
    rewrite Hx. simpl. apply IH; [exact Hshift|].
    apply selected_step; [|exact Hb]. repeat split; assumption.
Qed.

(** One iteration of the outer loop: the record is matched with the first of
    the best qualifying candidates, or no candidate qualifies and it is
    unmatched. *)
Lemma processDbMessage_selects api st d :
  (exists a i s,
     processDbMessage cmp api st d
       = Ok (pushMatched d {| bestMatch := Some a; bestScore := s;
                              bestIndex := Z.of_nat i |} a (trackFirst d st)) /\
     candidate cmp d api (matchedApiIndices st) i a s /\
     (MATCHING.SIMILARITY_THRESHOLD <=? s)%float = true /\
     firstBest cmp d api (matchedApiIndices st) (List.length api) i s)
  \/ (processDbMessage cmp api st d
        = Ok (pushUnmatched d noBest (trackFirst d st)) /\
      noneQualifies cmp d api (matchedApiIndices st) (List.length api)).
Proof.
  unfold processDbMessage.
  destruct (findBestFrom_selects d api (matchedApiIndices st) api 0 noBest)
    as (b & Hb & Hsel).
  - intros j a. reflexivity.
  - left. split; [reflexivity|]. intros j a x Hj. lia.
  - simpl matchedApiIndices. rewrite Hb. simpl.
    destruct Hsel as [[-> Hq] | (a & i & s & -> & Hi & Hc & Ht & Hf)].
    + right. split; [reflexivity|exact Hq].
    + left. exists a, i, s. simpl. rewrite Ht. auto.
Qed.

End SelectionProps.

Lemma candidate_in_pool cmp d api used j a x :
  candidate cmp d api used j a x -> (j < List.length api)%nat.
Proof.
  intros (Hn & _). apply nth_error_Some. congruence.
Qed.

(** X1: an internal record becomes a Matched outcome exactly when some
    external record that is not consumed and not strictly earlier scores at
    least the threshold; when no such record exists it becomes an Unmatched
    outcome.  Either way the iteration adds exactly one outcome. *)
Theorem matched_iff_candidate_qualifies cmp api st d :
  exists st',
    processDbMessage cmp api st d = Ok st' /\
    (((exists j a x,
         candidate cmp d api (matchedApiIndices st) j a x /\
         (MATCHING.SIMILARITY_THRESHOLD <=? x)%float = true) /\
      (exists m,
         Results.matched (results st') = Results.matched (results st) ++ [m]) /\
      Results.unmatched (results st') = Results.unmatched (results st))
     \/
     ((forall j a x,
         candidate cmp d api (matchedApiIndices st) j a x ->
         (MATCHING.SIMILARITY_THRESHOLD <=? x)%float = false) /\
      Results.matched (results st') = Results.matched (results st) /\
      (exists u,
         Results.unmatched (results st')
         = Results.unmatched (results st) ++ [u]))).
Proof.
  destruct (processDbMessage_selects cmp api st d)
    as [(a & i & s & H & Hc & Ht & _) | (H & Hq)];
    eexists; (split; [exact H|]).
  - left. split; [exists i, a, s; auto|]. split; [eexists|]; reflexivity.
  - right. split; [|split; [reflexivity|eexists; reflexivity]].
    intros j a x Hc. apply (Hq j a x); [|exact Hc].
    eapply candidate_in_pool; eauto.
Qed.

(** X2: the external record of a new Matched outcome is a candidate whose
    score is the outcome's confidence; no qualifying candidate scores more,
    and no qualifying candidate earlier in the pool scores as much: the first
    of the best candidates wins.  Its index is the one added to the
    consumption set. *)
Theorem matched_is_first_best cmp api st d st' m :
  processDbMessage cmp api st d = Ok st' ->
  Results.matched (results st') = Results.matched (results st) ++ [m] ->
  exists i a,
    candidate cmp d api (matchedApiIndices st) i a (Matched.confidenceScore m) /\
    Matched.apiMessage m = apiRef a /\
    Matched.dbMessage m = dbRef d /\
    matchedApiIndices st' = matchedApiIndices st ++ [Z.of_nat i] /\
    forall j a' x,
      candidate cmp d api (matchedApiIndices st) j a' x ->
      (MATCHING.SIMILARITY_THRESHOLD <=? x)%float = true ->
      (Matched.confidenceScore m <? x)%float = false /\
      ((j < i)%nat -> (Matched.confidenceScore m <=? x)%float = false).
Proof.
  intros Hstep Hm.
  destruct (processDbMessage_selects cmp api st d)
    as [(a & i & s & H & Hc & Ht & Hf) | (H & Hq)];
    rewrite H in Hstep; injection Hstep as <-.
  - simpl in Hm. apply app_inv_head in Hm. injection Hm as <-.
    exists i, a. simpl.
    split; [exact Hc|]. split; [reflexivity|]. split; [reflexivity|].
    split.
    + unfold setAdd. destruct Hc as (_ & Hu & _). now rewrite Hu.
    + intros j a' x Hcand Hthr. apply (Hf j a' x); auto.
      eapply candidate_in_pool; eauto.
  - simpl in Hm. apply (f_equal (@List.length _)) in Hm.
    rewrite length_app in Hm. simpl in Hm. lia.
Qed.

Lemma matched_is_first_best_witness :
  let cmp := StringSimilarity.compareTwoStrings in
  let api := [ providerMessage "Your payment is due soon" 3000;
               confirmation;
               providerMessage "Your payment is due" 4000 ] in
  let st := initialState [reminderA] api in
  let m := {| Matched.dbMessage := dbRef reminderA;
              Matched.apiMessage := apiRef confirmation;
              Matched.confidenceScore := 1%float;
              Matched.similarityPercentage := "100.00%" |} in
  let st' := pushMatched reminderA
               {| bestMatch := Some confirmation; bestScore := 1%float;
                  bestIndex := 1%Z |} confirmation (trackFirst reminderA st) in
  processDbMessage cmp api st reminderA = Ok st' /\
  Results.matched (results st') = Results.matched (results st) ++ [m] /\
  exists i a,
    candidate cmp reminderA api (matchedApiIndices st) i a
      (Matched.confidenceScore m) /\
    Matched.apiMessage m = apiRef a /\
    Matched.dbMessage m = dbRef reminderA /\
    matchedApiIndices st' = matchedApiIndices st ++ [Z.of_nat i] /\
    forall j a' x,
      candidate cmp reminderA api (matchedApiIndices st) j a' x ->
      (MATCHING.SIMILARITY_THRESHOLD <=? x)%float = true ->
      (Matched.confidenceScore m <? x)%float = false /\
      ((j < i)%nat -> (Matched.confidenceScore m <=? x)%float = false).
Proof.
  cbv zeta.
  assert (H1 : processDbMessage StringSimilarity.compareTwoStrings
                 [ providerMessage "Your payment is due soon" 3000;
                   confirmation;
                   providerMessage "Your payment is due" 4000 ]
                 (initialState [reminderA]
                    [ providerMessage "Your payment is due soon" 3000;
                      confirmation;
                      providerMessage "Your payment is due" 4000 ])
                 reminderA
               = Ok (pushMatched reminderA
                       {| bestMatch := Some confirmation; bestScore := 1%float;
                          bestIndex := 1%Z |} confirmation
                       (trackFirst reminderA
                          (initialState [reminderA]
                             [ providerMessage "Your payment is due soon" 3000;
                               confirmation;
                               providerMessage "Your payment is due" 4000 ]))))
    by (vm_compute; reflexivity).
  refine (conj H1 (conj eq_refl _)).
  exact (matched_is_first_best _ _ _ _ _ _ H1 eq_refl).
Defined.

(** X3: with an empty external pool every internal record is unmatched: the
    result has no Matched outcome, one Unmatched outcome per record, in the
    order of the records, each with score 0 and the reason 'No matching
    message found'; and [averageConfidence] stays the number 0. *)
Theorem empty_pool_all_unmatched cmp db :
  exists r,
    matchMessages cmp db [] = Ok r /\
    Results.matched r = [] /\
    Results.unmatched r =
      map (fun d => {| Unmatched.dbMessage := dbRef d;
                       Unmatched.bestMatchScore := 0%float;
                       Unmatched.reason := "No matching message found" |}) db /\
    Statistics.matchedCount (Results.statistics r) = 0%nat /\
    Statistics.unmatchedCount (Results.statistics r) = List.length db /\
    Statistics.averageConfidence (Results.statistics r) = JNumber 0%float.
Proof.
  destruct (matchLoop_invariant cmp
              (fun done st =>
                 Results.matched (results st) = [] /\
                 Results.unmatched (results st) =
                   map (fun d => {| Unmatched.dbMessage := dbRef d;
                                    Unmatched.bestMatchScore := 0%float;
                                    Unmatched.reason :=
                                      "No matching message found" |}) done /\
                 Statistics.matchedCount (Results.statistics (results st))
                   = 0%nat /\
                 Statistics.unmatchedCount (Results.statistics (results st))
                   = List.length done /\
                 Statistics.averageConfidence (Results.statistics (results st))
                   = JNumber 0%float) [])
    with (db := db) (done := @nil DbMessage.t) (st := initialState db [])
    as (st & Hrun & Hm & Hu & Hmc & Huc & Havg).
  - intros done st d st' (Hm & Hu & Hmc & Huc & Havg) Hstep.
    unfold processDbMessage in Hstep. simpl in Hstep. injection Hstep as <-.
    simpl. rewrite Hu, map_app, length_app, Huc. simpl. auto.
  - simpl. auto.
  - simpl in *. unfold matchMessages. rewrite Hrun. simpl.
    eexists. split; [reflexivity|].
    unfold withAverageConfidence. rewrite Hm. auto.
Qed.

(** ** Statistics *)

Section StatisticsProps.

Variable cmp : string -> string -> float.

Lemma countFirst_app l1 l2 :
  countFirst (l1 ++ l2) = (countFirst l1 + countFirst l2)%nat.
Proof. unfold countFirst. now rewrite filter_app, length_app. Qed.

Lemma countFirst_one d :
  countFirst [dbRef d] = if isFirstMessage d then 1%nat else 0%nat.
Proof.
  unfold countFirst. simpl.
  change (isFirstRef (dbRef d)) with (isFirstMessage d).
  now destruct (isFirstMessage d).
Qed.

(** What the outer loop keeps besides [loopInv]: the first-message counters
    and the untouched [averageConfidence]. *)
Lemma stats_step api done st d st' :
  firstStatsOk done (results st) /\
  Statistics.averageConfidence (Results.statistics (results st))
    = JNumber 0%float ->
  processDbMessage cmp api st d = Ok st' ->
  firstStatsOk (done ++ [d]) (results st') /\
  Statistics.averageConfidence (Results.statistics (results st'))
    = JNumber 0%float.
Proof.
  intros ((Ht & Hm & Hu & Hsum) & Havg) Hstep.
  destruct (processDbMessage_cases cmp api st d)
    as [(a & i & s & H & _) | H];
    rewrite H in Hstep; injection Hstep as <-;
    (split; [|exact Havg]); unfold firstStatsOk; simpl;
    rewrite !map_app, !countFirst_app; simpl map; rewrite !countFirst_one;
    unfold bumpFirst; destruct (isFirstMessage d); simpl; lia.
Qed.

Lemma matchLoop_stats db api :
  exists st,
    matchLoop cmp api (initialState db api) db = Ok st /\
    firstStatsOk db (results st) /\
    Statistics.averageConfidence (Results.statistics (results st))
      = JNumber 0%float.
Proof.
  destruct (matchLoop_invariant cmp
              (fun done st =>
                 firstStatsOk done (results st) /\
                 Statistics.averageConfidence (Results.statistics (results st))
                   = JNumber 0%float) api)
    with (db := db) (done := @nil DbMessage.t) (st := initialState db api)
    as (st & Hrun & H).
  - intros done st d st' Hinv Hstep. eapply stats_step; eauto.
  - split; [|reflexivity]. unfold firstStatsOk. simpl. auto.
  - exists st. auto.
Qed.

Lemma withAverageConfidence_average r :
  Statistics.averageConfidence (Results.statistics r) = JNumber 0%float ->
  Statistics.averageConfidence (Results.statistics (withAverageConfidence r))
    = averageOf (Results.matched r).
Proof.
  intro H. unfold withAverageConfidence, averageOf.
  destruct (Results.matched r); [exact H|reflexivity].
Qed.

Lemma withAverageConfidence_firstStats db r :
  firstStatsOk db r -> firstStatsOk db (withAverageConfidence r).
Proof.
  destruct (withAverageConfidence_keeps r) as (E1 & E2 & _ & _ & _ & _ & E3).
  unfold firstStatsOk. now rewrite E1, E2, E3.
Qed.

(** The result of [matchMessages], with what the loop keeps. *)
Lemma matchMessages_stats db api :
  exists r,
    matchMessages cmp db api = Ok r /\
    firstStatsOk db r /\
    Statistics.averageConfidence (Results.statistics r)
      = averageOf (Results.matched r) /\
    Statistics.totalDbMessages (Results.statistics r) = List.length db /\
    Statistics.totalApiMessages (Results.statistics r) = List.length api.
Proof.
  destruct (matchLoop_stats db api) as (st & Hrun & Hf & Havg).
  destruct (matchLoop_spec cmp db api) as (st0 & Hrun0 & _ & Htd & Hta).
  assert (st0 = st) by congruence. subst st0.
  exists (withAverageConfidence (results st)).
  unfold matchMessages. rewrite Hrun. simpl.
  destruct (withAverageConfidence_keeps (results st))
    as (E1 & _ & _ & _ & E5 & E6 & _).
  split; [reflexivity|]. split; [now apply withAverageConfidence_firstStats|].
  split; [rewrite E1; now apply withAverageConfidence_average|].
  split; congruence.
Qed.

Lemma mergeBatch_firstStats d1 d2 r1 r2 :
  firstStatsOk d1 r1 -> firstStatsOk d2 r2 ->
  firstStatsOk (d1 ++ d2) (mergeBatch r1 r2).
Proof.
  intros (Ht1 & Hm1 & Hu1 & Hs1) (Ht2 & Hm2 & Hu2 & Hs2).
  unfold firstStatsOk, mergeBatch. simpl.
  rewrite !map_app, !countFirst_app. lia.
Qed.

Lemma fold_mergeBatch_stats api cs rs :
  Forall2 (fun c r => matchMessages cmp c api = Ok r) cs rs ->
  forall d0 r0,
    firstStatsOk d0 r0 ->
    firstStatsOk (d0 ++ List.concat cs) (fold_left mergeBatch rs r0) /\
    Statistics.averageConfidence
      (Results.statistics (fold_left mergeBatch rs r0))
      = Statistics.averageConfidence (Results.statistics r0) /\
    Statistics.totalApiMessages
      (Results.statistics (fold_left mergeBatch rs r0))
      = Statistics.totalApiMessages (Results.statistics r0) /\
    Results.matched (fold_left mergeBatch rs r0)
      = Results.matched r0 ++ List.concat (map Results.matched rs) /\
    Results.unmatched (fold_left mergeBatch rs r0)
      = Results.unmatched r0 ++ List.concat (map Results.unmatched rs).
Proof.
  induction 1 as [|c r cs rs Hr _ IH]; intros d0 r0 H0; simpl.
  - rewrite !app_nil_r. auto.
  - destruct (matchMessages_stats c api) as (r' & Hr' & Hf & _).
    assert (r' = r) by congruence. subst r'.
    destruct (IH (d0 ++ c) (mergeBatch r0 r) (mergeBatch_firstStats _ _ _ _ H0 Hf))
      as (I1 & I2 & I3 & I4 & I5).
    rewrite <- app_assoc in I1. rewrite I4, I5. simpl.
    rewrite <- !app_assoc. auto.
Qed.

End StatisticsProps.

Lemma emptyResults_firstStats n m : firstStatsOk [] (emptyResults n m).
Proof. unfold firstStatsOk. simpl. auto. Qed.

(** The merged result of a run with a batch size of at least 1, with what
    the loops keep. *)
Lemma batchMatchMessages_stats cmp db api b : (1 <= b)%Z ->
  exists rs r,
    Forall2 (fun c r => matchMessages cmp c api = Ok r)
            (chunks (Z.to_nat b) db) rs /\
    (forall fuel, (List.length db < fuel)%nat ->
       batchMatchMessages cmp fuel db api (Some b) = Some (Ok r)) /\
    firstStatsOk db r /\
    Results.matched r = List.concat (map Results.matched rs) /\
    Results.unmatched r = List.concat (map Results.unmatched rs) /\
    Statistics.averageConfidence (Results.statistics r)
      = averageOf (Results.matched r) /\
    Statistics.totalApiMessages (Results.statistics r) = List.length api.
Proof.
  intro Hb.
  destruct (batchMatchMessages_spec cmp db api b Hb)
    as (rs & r & Hrs & -> & Hrun & _).
  exists rs. eexists. split; [exact Hrs|]. split; [exact Hrun|].
  destruct (fold_mergeBatch_stats cmp api _ _ Hrs []
              (emptyResults (List.length db) (List.length api))
              (emptyResults_firstStats _ _))
    as (Hf & Havg & Hta & Hm & Hu).
  rewrite concat_chunks in Hf by lia. simpl in Hf, Hm, Hu.
  destruct (withAverageConfidence_keeps
              (fold_left mergeBatch rs
                 (emptyResults (List.length db) (List.length api))))
    as (E1 & E2 & _ & _ & _ & E6 & _).
  split; [now apply withAverageConfidence_firstStats|].
  split; [congruence|]. split; [congruence|].
  split; [rewrite E1; apply withAverageConfidence_average; exact Havg|].
  rewrite E6, Hta. reflexivity.
Qed.

(** X4: the first-message statistics of a result count the first messages:
    [total] those among the internal records, [matched] and [unmatched] those
    among the Matched and the Unmatched outcomes, so that matched plus
    unmatched is the total -- for [matchMessages] and for the merged result of
    [batchMatchMessages] with any batch size of at least 1. *)
Theorem first_message_counters cmp db api (p : positive) :
  (exists r, matchMessages cmp db api = Ok r /\ firstStatsOk db r) /\
  (exists r,
     batchMatchMessages cmp (S (List.length db)) db api (Some (Zpos p))
       = Some (Ok r) /\
     firstStatsOk db r).
Proof.
  split.
  - destruct (matchMessages_stats cmp db api) as (r & Hr & Hf & _). eauto.
  - destruct (batchMatchMessages_stats cmp db api (Zpos p))
      as (rs & r & _ & Hrun & Hf & _); [lia|].
    exists r. split; [apply Hrun; lia|exact Hf].
Qed.

(** X5: [averageConfidence] is the number 0 when no record was matched, and
    otherwise the string of the mean confidence, as a percentage with two
    decimals, over the Matched outcomes of the result.  In a batched run these
    are the Matched outcomes of all batches, in batch order: the average is
    recomputed from the merged list, not from the averages of the batches. *)
Theorem average_confidence_over_all_matches cmp db api (p : positive) :
  (exists r,
     matchMessages cmp db api = Ok r /\
     Statistics.averageConfidence (Results.statistics r)
       = averageOf (Results.matched r)) /\
  (exists rs r,
     Forall2 (fun c r => matchMessages cmp c api = Ok r)
             (chunks (Pos.to_nat p) db) rs /\
     batchMatchMessages cmp (S (List.length db)) db api (Some (Zpos p))
       = Some (Ok r) /\
     Results.matched r = List.concat (map Results.matched rs) /\
     Statistics.averageConfidence (Results.statistics r)
       = averageOf (List.concat (map Results.matched rs))).
Proof.
  split.
  - destruct (matchMessages_stats cmp db api) as (r & Hr & _ & Ha & _). eauto.
  - destruct (batchMatchMessages_stats cmp db api (Zpos p))
      as (rs & r & Hrs & Hrun & _ & Hm & _ & Ha & _); [lia|].
    exists rs, r. split; [exact Hrs|]. split; [apply Hrun; lia|].
    split; [exact Hm|]. now rewrite <- Hm.
Qed.

(** X6: every Matched outcome has a confidence of at least the constant
    [MATCHING.SIMILARITY_THRESHOLD], 0.90 -- in the result of [matchMessages]
    and in the merged result of [batchMatchMessages]. *)
Theorem matched_confidence_reaches_constant cmp db api (p : positive) :
  (exists r,
     matchMessages cmp db api = Ok r /\
     Forall (fun m => (0.90 <=? Matched.confidenceScore m)%float = true)
            (Results.matched r)) /\
  (exists r,
     batchMatchMessages cmp (S (List.length db)) db api (Some (Zpos p))
       = Some (Ok r) /\
     Forall (fun m => (0.90 <=? Matched.confidenceScore m)%float = true)
            (Results.matched r)).
Proof.
  split.
  - destruct (matchMessages_spec cmp db api) as (st & _ & H & _ & Hc & _).
    eexists. split; [exact H|].
    destruct Hc as (_ & _ & _ & Hm & _).
    eapply Forall_impl; [|exact Hm]. intros m [_ Ht]. exact Ht.
  - destruct (batchMatchMessages_spec cmp db api (Zpos p))
      as (rs & r & _ & _ & Hrun & Hc & _); [lia|].
    exists r. split; [apply Hrun; lia|].
    destruct Hc as (_ & _ & _ & Hm & _).
    eapply Forall_impl; [|exact Hm]. intros m [_ Ht]. exact Ht.
Qed.

(** ** How batching relates to a single run *)

Section BatchingProps.

Variable cmp : string -> string -> float.

Lemma chunks_nil (b : nat) : chunks b (@nil DbMessage.t) = [].
Proof. reflexivity. Qed.

Lemma chunks_single (b : nat) (l : list DbMessage.t) :
  (1 <= b)%nat -> (List.length l <= b)%nat -> l <> [] -> chunks b l = [l].
Proof.
  intros Hb Hl Hne. destruct l as [|x l]; [congruence|].
  rewrite chunks_cons by exact Hb.
  rewrite firstn_all2 by exact Hl. rewrite skipn_all2 by exact Hl.
  reflexivity.
Qed.

(** Merging one result into the empty result and recomputing the average
    gives that result back. *)
Lemma merge_into_empty db api r :
  matchMessages cmp db api = Ok r ->
  withAverageConfidence
    (mergeBatch (emptyResults (List.length db) (List.length api)) r) = r.
Proof.
  intro Hr.
  destruct (matchLoop_stats cmp db api) as (st & Hrun & _ & Havg).
  destruct (matchLoop_spec cmp db api) as (st0 & Hrun0 & _ & Htd & Hta).
  assert (st0 = st) by congruence. subst st0.
  unfold matchMessages in Hr. rewrite Hrun in Hr. simpl in Hr.
  injection Hr as <-.
  destruct (results st) as [ms us [td ta mc uc av [ft fm fu]]].
  simpl in *. subst td ta av.
  unfold withAverageConfidence, mergeBatch. simpl.
  destruct ms; reflexivity.
Qed.

Lemma single_batch db api b fuel :
  (1 <= b)%Z -> (Z.of_nat (List.length db) <= b)%Z ->
  (List.length db < fuel)%nat ->
  batchMatchMessages cmp fuel db api (Some b)
    = Some (matchMessages cmp db api).
Proof.
  intros Hb Hl Hfuel.
  destruct (batchMatchMessages_spec cmp db api b Hb)
    as (rs & r & Hrs & -> & Hrun & _).
  rewrite (Hrun fuel Hfuel). f_equal.
  destruct db as [|d db'].
  - rewrite chunks_nil in Hrs. inversion Hrs. subst. reflexivity.
  - rewrite chunks_single in Hrs by (simpl in *; try lia; discriminate).
    inversion Hrs as [|c r0 cs rs0 Hr Hnil]; subst. inversion Hnil; subst.
    simpl fold_left. rewrite Hr. f_equal.
    exact (merge_into_empty (d :: db') api r0 Hr).
Qed.

Lemma setHas_true_in used z : setHas used z = true -> In z used.
Proof.
  unfold setHas. intro H. apply existsb_exists in H as (y & Hy & E).
  apply Z.eqb_eq in E. now subst.
Qed.

Lemma setHas_incl used1 used2 z :
  incl used2 used1 -> setHas used1 z = false -> setHas used2 z = false.
Proof.
  intros Hincl H. destruct (setHas used2 z) eqn:E; [|reflexivity].
  apply setHas_true_in, Hincl in E.
  now apply setHas_false_not_in in H.
Qed.

Lemma candidate_incl d api used1 used2 j a x :
  incl used2 used1 ->
  candidate cmp d api used1 j a x -> candidate cmp d api used2 j a x.
Proof.
  intros Hincl (Hn & Hu & Hd & Hs).
  repeat split; auto. eapply setHas_incl; eauto.
Qed.

(** Two runs of one iteration, the second with fewer consumed records: the
    second matches whenever the first does, and it still has consumed no
    record the first has not. *)
Lemma step_simulation api st1 st2 d st1' st2' :
  incl (matchedApiIndices st2) (matchedApiIndices st1) ->
  processDbMessage cmp api st1 d = Ok st1' ->
  processDbMessage cmp api st2 d = Ok st2' ->
  incl (matchedApiIndices st2') (matchedApiIndices st1') /\
  (List.length (Results.matched (results st1'))
   + List.length (Results.matched (results st2))
   <= List.length (Results.matched (results st2'))
      + List.length (Results.matched (results st1)))%nat.
Proof.
  intros Hincl H1 H2.
  destruct (processDbMessage_selects cmp api st1 d)
    as [(a1 & i1 & s1 & E1 & Hc1 & Ht1 & Hf1) | (E1 & Hq1)];
    rewrite E1 in H1; injection H1 as <-;
    destruct (processDbMessage_selects cmp api st2 d)
      as [(a2 & i2 & s2 & E2 & Hc2 & Ht2 & Hf2) | (E2 & Hq2)];
    rewrite E2 in H2; injection H2 as <-; simpl; rewrite ?length_app; simpl.
  - split; [|lia].
    unfold setAdd.
    destruct Hc1 as (Hn1 & Hu1 & Hd1 & Hs1). 
    destruct Hc2 as (Hn2 & Hu2 & Hd2 & Hs2).
    rewrite Hu1, Hu2.
    intros z Hz. apply in_app_or in Hz as [Hz | [<- | []]];
      [apply in_or_app; left; now apply Hincl|].
    destruct (setHas (matchedApiIndices st1) (Z.of_nat i2)) eqn:Hfree;
      [apply in_or_app; left; now apply setHas_true_in|].
    assert (Hc21 : candidate cmp d api (matchedApiIndices st1) i2 a2 s2)
      by (repeat split; assumption).
    assert (Hc12 : candidate cmp d api (matchedApiIndices st2) i1 a1 s1).
    { apply (candidate_incl d api (matchedApiIndices st1)); auto.
      repeat split; assumption. }
    destruct (Hf1 i2 a2 s2) as [Hlt1 Htie1];
      [eapply candidate_in_pool; eauto|exact Hc21|exact Ht2|].
    destruct (Hf2 i1 a1 s1) as [Hlt2 Htie2];
      [eapply candidate_in_pool; eauto|exact Hc12|exact Ht1|].
    pose proof (leb_total s1 s2 (threshold_leb_refl _ Ht1)
                  (threshold_leb_refl _ Ht2) Hlt1) as Hle21.
    pose proof (leb_total s2 s1 (threshold_leb_refl _ Ht2)
                  (threshold_leb_refl _ Ht1) Hlt2) as Hle12.
    destruct (Nat.lt_trichotomy i1 i2) as [Hlt | [-> | Hgt]].
    + rewrite (Htie2 Hlt) in Hle21. discriminate.
    + apply in_or_app. right. now left.
    + rewrite (Htie1 Hgt) in Hle12. discriminate.
  - exfalso.
    assert (Hc12 : candidate cmp d api (matchedApiIndices st2) i1 a1 s1)
      by (apply (candidate_incl d api (matchedApiIndices st1)); auto).
    rewrite (Hq2 i1 a1 s1) in Ht1; [discriminate| |exact Hc12].
    eapply candidate_in_pool; eauto.
  - split; [|lia].
    unfold setAdd. destruct Hc2 as (Hn2 & Hu2 & Hd2 & Hs2). rewrite Hu2.
    intros z Hz. apply in_app_or in Hz as [Hz | [<- | []]];
      [now apply Hincl|].
    destruct (setHas (matchedApiIndices st1) (Z.of_nat i2)) eqn:Hfree;
      [now apply setHas_true_in|].
    exfalso.
    assert (Hc21 : candidate cmp d api (matchedApiIndices st1) i2 a2 s2)
      by (repeat split; assumption).
    rewrite (Hq1 i2 a2 s2) in Ht2; [discriminate| |exact Hc21].
    eapply candidate_in_pool; eauto.
  - split; [exact Hincl|lia].
Qed.

Lemma matchLoop_simulation api : forall db st1 st2,
  incl (matchedApiIndices st2) (matchedApiIndices st1) ->
  exists st1' st2',
    matchLoop cmp api st1 db = Ok st1' /\
    matchLoop cmp api st2 db = Ok st2' /\
    incl (matchedApiIndices st2') (matchedApiIndices st1') /\
    (List.length (Results.matched (results st1'))
     + List.length (Results.matched (results st2))
     <= List.length (Results.matched (results st2'))
        + List.length (Results.matched (results st1)))%nat.
Proof.
  induction db as [|d db IH]; intros st1 st2 Hincl; simpl.
  - exists st1, st2. repeat split; auto. lia.
  - destruct (processDbMessage_total cmp api st1 d) as [m1 H1].
    destruct (processDbMessage_total cmp api st2 d) as [m2 H2].
    rewrite H1, H2. simpl.
    destruct (step_simulation api st1 st2 d m1 m2 Hincl H1 H2) as [Hi Hc].
    destruct (IH m1 m2 Hi) as (st1' & st2' & R1 & R2 & Hi' & Hc').
    exists st1', st2'. repeat split; auto. lia.
Qed.

Lemma matchLoop_app api : forall l1 l2 st,
  matchLoop cmp api st (l1 ++ l2)
  = (st' <- matchLoop cmp api st l1 ;; matchLoop cmp api st' l2).
Proof.
  induction l1 as [|d l1 IH]; intros l2 st; simpl; [reflexivity|].
  destruct (processDbMessage cmp api st d); simpl; [apply IH|reflexivity].
Qed.

(** A single run over the batches put end to end matches no more records
    than the batches run one by one. *)
Lemma batches_match_no_less api cs rs :
  Forall2 (fun c r => matchMessages cmp c api = Ok r) cs rs ->
  forall st,
    exists st',
      matchLoop cmp api st (List.concat cs) = Ok st' /\
      (List.length (Results.matched (results st'))
       <= List.length (Results.matched (results st))
          + List.length (List.concat (map Results.matched rs)))%nat.
Proof.
  induction 1 as [|c r cs rs Hr _ IH]; intros st; simpl.
  - exists st. split; [reflexivity|lia].
  - destruct (matchLoop_simulation api c st (initialState c api))
      as (st1 & st2 & R1 & R2 & _ & Hc); [intros z []|].
    rewrite matchLoop_app, R1. simpl.
    destruct (IH st1) as (st' & R' & Hc').
    exists st'. split; [exact R'|].
    unfold matchMessages in Hr. rewrite R2 in Hr. simpl in Hr.
    injection Hr as <-.
    destruct (withAverageConfidence_keeps (results st2)) as (E & _).
    rewrite length_app, E. simpl in Hc. lia.
Qed.

End BatchingProps.

(** X7: when the batch size is at least the number of internal records (and
    at least 1), [batchMatchMessages] returns exactly what [matchMessages]
    returns on the whole list; so does the default batch size for up to 100
    records. *)
Theorem single_batch_is_matcher cmp db api b fuel :
  (1 <= b)%Z -> (Z.of_nat (List.length db) <= b)%Z ->
  (List.length db < fuel)%nat ->
  batchMatchMessages cmp fuel db api (Some b) = Some (matchMessages cmp db api)
  /\ ((b <= 100)%Z ->
      batchMatchMessages cmp fuel db api None
      = Some (matchMessages cmp db api)).
Proof.
  intros Hb Hl Hfuel. split; [now apply single_batch|].
  intro H100.
  change (batchMatchMessages cmp fuel db api None)
    with (batchMatchMessages cmp fuel db api (Some MATCHING.BATCH_SIZE)).
  apply single_batch; unfold MATCHING.BATCH_SIZE; lia.
Qed.

Lemma single_batch_is_matcher_witness :
  (1 <= 5)%Z /\ (Z.of_nat (List.length sampleDb) <= 5)%Z /\
  (List.length sampleDb < 4)%nat /\
  batchMatchMessages StringSimilarity.compareTwoStrings 4 sampleDb samplePool
    (Some 5%Z)
  = Some (matchMessages StringSimilarity.compareTwoStrings sampleDb samplePool)
  /\ ((5 <= 100)%Z ->
      batchMatchMessages StringSimilarity.compareTwoStrings 4 sampleDb
        samplePool None
      = Some (matchMessages StringSimilarity.compareTwoStrings sampleDb
                samplePool)).
Proof.
  assert (H1 : (1 <= 5)%Z) by lia.
  assert (H2 : (Z.of_nat (List.length sampleDb) <= 5)%Z) by (simpl; lia).
  assert (H3 : (List.length sampleDb < 4)%nat) by (simpl; lia).
  refine (conj H1 (conj H2 (conj H3 _))).
  exact (single_batch_is_matcher StringSimilarity.compareTwoStrings sampleDb
           samplePool 5 4 H1 H2 H3).
Defined.

(** X8: splitting a run into batches never loses a match: for every batch
    size of at least 1, the merged result of [batchMatchMessages] has at least
    as many Matched outcomes, and at most as many Unmatched ones, as
    [matchMessages] on the whole list. *)
Theorem batching_never_loses_a_match cmp db api (p : positive) :
  exists r1 rb,
    matchMessages cmp db api = Ok r1 /\
    batchMatchMessages cmp (S (List.length db)) db api (Some (Zpos p))
      = Some (Ok rb) /\
    (List.length (Results.matched r1)
     <= List.length (Results.matched rb))%nat /\
    (List.length (Results.unmatched rb)
     <= List.length (Results.unmatched r1))%nat.
Proof.
  destruct (batchMatchMessages_stats cmp db api (Zpos p))
    as (rs & rb & Hrs & Hrun & _ & Hm & _); [lia|].
  destruct (batchMatchMessages_spec cmp db api (Zpos p))
    as (rs' & rb' & _ & _ & Hrun' & Hcb & _); [lia|].
  assert (rb' = rb).
  { specialize (Hrun (S (List.length db)) (Nat.lt_succ_diag_r _)).
    specialize (Hrun' (S (List.length db)) (Nat.lt_succ_diag_r _)).
    rewrite Hrun in Hrun'.
    change (match Some (Ok rb') with
            | Some (Ok v) => v | _ => rb end = rb).
    now rewrite <- Hrun'. }
  subst rb'.
  destruct (batches_match_no_less cmp api _ _ Hrs (initialState db api))
    as (st & Hst & Hle).
  rewrite concat_chunks in Hst by lia.
  destruct (matchMessages_spec cmp db api) as (st0 & Hrun0 & Hr1 & _ & Hc1 & _).
  assert (st0 = st) by congruence. subst st0.
  exists (withAverageConfidence (results st)), rb.
  split; [exact Hr1|]. split; [apply Hrun; lia|].
  destruct (withAverageConfidence_keeps (results st)) as (E1 & E2 & _).
  assert (Hmatched : (List.length (Results.matched (withAverageConfidence (results st)))
                      <= List.length (Results.matched rb))%nat).
  { rewrite E1, Hm. simpl in Hle. exact Hle. }
  split; [exact Hmatched|].
  destruct Hc1 as (_ & _ & Hp1 & _). destruct Hcb as (_ & _ & Hpb & _).
  apply Permutation_length in Hp1, Hpb. unfold outcomeRefs in Hp1, Hpb.
  rewrite length_app, !length_map in Hp1, Hpb. lia.
Qed.

(** ** The groupings of the report *)

Section GroupProps.

Import VerificationService.

Variable key : Unmatched.t -> string.

Lemma groupAdd_keys grouped k msg :
  map fst (groupAdd grouped k msg)
  = if existsb (String.eqb k) (map fst grouped)
    then map fst grouped else map fst grouped ++ [k].
Proof.
  induction grouped as [|[k0 g0] r IH]; simpl; [reflexivity|].
  rewrite (String.eqb_sym k k0).
  destruct (String.eqb_spec k0 k); simpl; [reflexivity|].
  rewrite IH. now destruct (existsb (String.eqb k) (map fst r)).
Qed.

Lemma existsb_key k keys : existsb (String.eqb k) keys = true <-> In k keys.
Proof.
  rewrite existsb_exists. split.
  - intros (y & Hy & E). apply String.eqb_eq in E. now subst.
  - intro H. exists k. split; [exact H|apply String.eqb_refl].
Qed.

Lemma groupAdd_Forall (Q Q' : string * Group -> Prop) grouped k msg :
  NoDup (map fst grouped) ->
  Forall Q grouped ->
  (forall k' g, k' <> k -> Q (k', g) -> Q' (k', g)) ->
  (forall g, Q (k, g) ->
     Q' (k, {| count := count g + 1;
               groupMessages := groupMessages g ++ [msg] |})) ->
  (~ In k (map fst grouped) ->
   Q' (k, {| count := 1; groupMessages := [msg] |})) ->
  Forall Q' (groupAdd grouped k msg).
Proof.
  intros Hnd HQ Hother Hsame Hnew.
  induction grouped as [|[k0 g0] r IH]; simpl.
  - constructor; [|constructor]. apply Hnew. intros [].
  - inversion Hnd as [|? ? Hnotin Hnd']; subst.
    inversion HQ as [|? ? HQ0 HQr]; subst.
    destruct (String.eqb_spec k0 k) as [-> | Hne].
    + constructor; [now apply Hsame|].
      apply Forall_forall. intros [k' g'] Hin.
      apply Hother.
      * intros ->. apply Hnotin. apply in_map_iff. exists (k, g'). auto.
      * rewrite Forall_forall in HQr. now apply HQr.
    + constructor; [now apply Hother|].
      apply IH; auto. intro Hk. apply Hnew. simpl. intros [E | E]; auto.
Qed.

Lemma filter_fresh l keys k :
  (forall m, In m l -> In (key m) keys) -> ~ In k keys ->
  filter (fun m => String.eqb (key m) k) l = [].
Proof.
  intros Hcov Hnot. induction l as [|m l IHl]; simpl; [reflexivity|].
  destruct (String.eqb_spec (key m) k) as [E | E].
  - exfalso. apply Hnot. rewrite <- E. apply Hcov. now left.
  - apply IHl. intros m' Hm'. apply Hcov. now right.
Qed.

(** Adding a message keeps the grouping. *)
Lemma groupsOf_add l grouped msg :
  groupsOf key l grouped ->
  groupsOf key (l ++ [msg]) (groupAdd grouped (key msg) msg).
Proof.
  intros (Hnd & Hcov & Hall). unfold groupsOf.
  rewrite groupAdd_keys.
  assert (Hfresh : ~ In (key msg) (map fst grouped) ->
                   filter (fun m => String.eqb (key m) (key msg)) l = [])
    by (intro Hnot; now apply (filter_fresh l (map fst grouped))).
  split; [|split].
  - destruct (existsb (String.eqb (key msg)) (map fst grouped)) eqn:E;
      [exact Hnd|].
    apply NoDup_app; [exact Hnd|repeat constructor; auto|].
    intros k Hk [<- | []].
    apply existsb_key in Hk. congruence.
  - intros m Hm. apply in_app_or in Hm as [Hm | [<- | []]].
    + destruct (existsb _ _); [|apply in_or_app; left]; now apply Hcov.
    + destruct (existsb _ _) eqn:E; [now apply existsb_key|].
      apply in_or_app. right. now left.
  - apply (groupAdd_Forall
             (fun kg =>
                groupMessages (snd kg)
                  = filter (fun m => String.eqb (key m) (fst kg)) l /\
                count (snd kg) = List.length (groupMessages (snd kg)) /\
                groupMessages (snd kg) <> [])); auto.
    + intros k' g Hne (H1 & H2 & H3). simpl in *.
      rewrite filter_app. simpl.
      destruct (String.eqb_spec (key msg) k'); [congruence|].
      rewrite app_nil_r. auto.
    + intros g (H1 & H2 & H3). simpl in *.
      rewrite filter_app. simpl. rewrite String.eqb_refl.
      rewrite length_app, H1. simpl. split; [reflexivity|].
      split; [rewrite <- H1; lia|]. now destruct (filter _ l).
    + intro Hnot. simpl. rewrite filter_app. simpl.
      rewrite String.eqb_refl, (Hfresh Hnot). simpl.
      repeat split; auto. discriminate.
Qed.

Lemma groupsOf_fold : forall l done grouped,
  groupsOf key done grouped ->
  groupsOf key (done ++ l)
    (fold_left (fun grouped msg => groupAdd grouped (key msg) msg) l grouped).
Proof.
  induction l as [|msg l IH]; intros done grouped H; simpl.
  - now rewrite app_nil_r.
  - replace (done ++ msg :: l) with ((done ++ [msg]) ++ l)
      by (now rewrite <- app_assoc).
    apply IH. now apply groupsOf_add.
Qed.

Lemma groupsOf_nil : groupsOf key [] [].
Proof.
  unfold groupsOf. simpl. repeat split; try constructor. intros m [].
Qed.

End GroupProps.

(** X9: the groupings of the unmatched outcomes by type and by phone number
    partition them: the keys are pairwise distinct, every outcome's key is
    present, each group holds exactly the outcomes with its key, in their
    order, [count] is the number of its messages, and no group is empty.  An
    outcome without a type is under the key 'unknown'. *)
Theorem unmatched_groupings_partition l :
  groupsOf typeKey l (VerificationService.groupUnmatchedByType l) /\
  groupsOf phoneKey l (VerificationService.groupUnmatchedByPhoneNumber l).
Proof.
  split.
  - exact (groupsOf_fold typeKey l [] [] (groupsOf_nil typeKey)).
  - exact (groupsOf_fold phoneKey l [] [] (groupsOf_nil phoneKey)).
Qed.

Lemma isoDatePart_valid ms : exists s, isoDatePart (DateAt ms) = Ok s.
Proof.
  unfold isoDatePart. destruct (civilFromDays (ms / 86400000)) as [[y m] dd].
  eauto.
Qed.

Lemma groupByDateFrom_spec : forall l done grouped,
  groupsOf dateKey done grouped ->
  match VerificationService.groupByDateFrom grouped l with
  | Ok g => forallb validDateb l = true /\ groupsOf dateKey (done ++ l) g
  | Throw e =>
      forallb validDateb l = false /\ e = RangeError "Invalid time value"
  end.
Proof.
  induction l as [|msg l IH]; intros done grouped H; simpl.
  - rewrite app_nil_r. auto.
  - destruct (newDate (DbRef.sentDate (Unmatched.dbMessage msg))) as [|ms] eqn:E.
    + assert (Hv : validDateb msg = false) by (unfold validDateb; now rewrite E).
      rewrite Hv. simpl. auto.
    + assert (Hv : validDateb msg = true) by (unfold validDateb; now rewrite E).
      rewrite Hv.
      destruct (isoDatePart_valid ms) as [s Hs]. rewrite Hs. simpl.
      assert (Hkey : dateKey msg = s) by (unfold dateKey; now rewrite E, Hs).
      rewrite <- Hkey.
      specialize (IH (done ++ [msg]) _ (groupsOf_add dateKey done grouped msg H)).
      now rewrite <- app_assoc in IH.
Qed.

(** X10: the grouping of the unmatched outcomes by date throws a RangeError
    exactly when some outcome's record has no valid sent date; otherwise it
    returns the partition of the outcomes by the UTC calendar date of their
    record. *)
Theorem unmatched_by_date_partition_or_throw l :
  match VerificationService.groupUnmatchedByDate l with
  | Ok g => forallb validDateb l = true /\ groupsOf dateKey l g
  | Throw e =>
      forallb validDateb l = false /\ e = RangeError "Invalid time value"
  end.
Proof.
  exact (groupByDateFrom_spec l [] [] (groupsOf_nil dateKey)).
Qed.

(** X11: the pool of external records is made of the messages of the
    successful responses, in order: a record is in it exactly when it belongs
    to a response with [success] set and a [messages] array; a failed
    response contributes nothing; and flattening distributes over
    concatenation. *)
Theorem flatten_keeps_successful_responses rs1 rs2 a :
  VerificationService.flattenApiMessages (rs1 ++ rs2)
  = VerificationService.flattenApiMessages rs1
    ++ VerificationService.flattenApiMessages rs2 /\
  (In a (VerificationService.flattenApiMessages rs1) <->
   exists r ms,
     In r rs1 /\ VerificationService.success r = true /\
     VerificationService.messages r = Some ms /\ In a ms).
Proof.
  split.
  - induction rs1 as [|r rs IH]; simpl; [reflexivity|].
    destruct (VerificationService.success r),
             (VerificationService.messages r); auto.
    now rewrite IH, app_assoc.
  - induction rs1 as [|r rs IH]; simpl.
    + split; [intros []|intros (r & ms & [] & _)].
    + destruct (VerificationService.success r) eqn:Es,
               (VerificationService.messages r) as [ms0|] eqn:Em.
      * rewrite in_app_iff, IH. split.
        -- intros [H | (r' & ms & Hr & Hs & Hm & Ha)].
           ++ exists r, ms0. auto.
           ++ exists r', ms. auto.
        -- intros (r' & ms & [<- | Hr] & Hs & Hm & Ha).
           ++ left. congruence.
           ++ right. exists r', ms. auto.
      * rewrite IH. split.
        -- intros (r' & ms & Hr & H). exists r', ms. auto.
        -- intros (r' & ms & [<- | Hr] & Hs & Hm & Ha); [congruence|].
           exists r', ms. auto.
      * rewrite IH. split.
        -- intros (r' & ms & Hr & H). exists r', ms. auto.
        -- intros (r' & ms & [<- | Hr] & Hs & Hm & Ha); [congruence|].
           exists r', ms. auto.
      * rewrite IH. split.
        -- intros (r' & ms & Hr & H). exists r', ms. auto.
        -- intros (r' & ms & [<- | Hr] & Hs & Hm & Ha); [congruence|].
           exists r', ms. auto.
Qed.

(** ** The report *)

(** X12: [generateVerificationReport] throws only when details are included
    and some unmatched outcome's record has no valid sent date, and then a
    RangeError; in every other case it returns a report whose summary copies
    the counters of the match result, with the details and the three
    groupings exactly when details are included. *)
Theorem report_fails_only_on_invalid_dates mr inc from to nums :
  match VerificationService.generateVerificationReport mr inc from to nums with
  | Ok rep =>
      let s := VerificationService.summary rep in
      (inc = false \/ forallb validDateb (Results.unmatched mr) = true) /\
      VerificationService.verificationPeriod s = (from, to) /\
      VerificationService.phoneNumbersVerified s = List.length nums /\
      VerificationService.totalMessagesInDB s
        = Statistics.totalDbMessages (Results.statistics mr) /\
      VerificationService.totalMessagesInAPI s
        = Statistics.totalApiMessages (Results.statistics mr) /\
      VerificationService.matchedMessages s
        = Statistics.matchedCount (Results.statistics mr) /\
      VerificationService.unmatchedMessages s
        = Statistics.unmatchedCount (Results.statistics mr) /\
      VerificationService.details rep
        = (if inc
           then Some {| VerificationService.detailsMatched := Results.matched mr;
                        VerificationService.detailsUnmatched :=
                          Results.unmatched mr |}
           else None) /\
      (if inc
       then exists an,
              VerificationService.analysis rep = Some an /\
              groupsOf typeKey (Results.unmatched mr)
                (VerificationService.unmatchedByType an) /\
              groupsOf phoneKey (Results.unmatched mr)
                (VerificationService.unmatchedByPhoneNumber an) /\
              groupsOf dateKey (Results.unmatched mr)
                (VerificationService.unmatchedByDate an)
       else VerificationService.analysis rep = None)
  | Throw e =>
      inc = true /\ forallb validDateb (Results.unmatched mr) = false /\
      e = RangeError "Invalid time value"
  end.
Proof.
  unfold VerificationService.generateVerificationReport.
  destruct inc; [|simpl; repeat split; auto].
  pose proof (groupByDateFrom_spec (Results.unmatched mr) [] []
                (groupsOf_nil dateKey)) as Hd.
  unfold VerificationService.groupUnmatchedByDate.
  destruct (VerificationService.groupByDateFrom [] (Results.unmatched mr))
    as [g | e]; simpl.
  - destruct Hd as [Hv Hg]. simpl in Hg.
    repeat split; auto.
    eexists. split; [reflexivity|]. simpl.
    split; [exact (groupsOf_fold typeKey _ [] [] (groupsOf_nil typeKey))|].
    split; [exact (groupsOf_fold phoneKey _ [] [] (groupsOf_nil phoneKey))|].
    exact Hg.
  - destruct Hd as [Hv ->]. auto.
Qed.

Lemma invalid_outcome_invalid_record db r :
  Permutation (outcomeRefs r) (map dbRef db) ->
  forallb validDateb (Results.unmatched r) = false ->
  forallb validSentDate db = false.
Proof.
  intros Hp Hf.
  destruct (forallb validSentDate db) eqn:E; [|reflexivity].
  rewrite forallb_forall in E.
  assert (Hall : forallb validDateb (Results.unmatched r) = true);
    [|congruence].
  apply forallb_forall. intros u Hu.
  assert (Hin : In (Unmatched.dbMessage u) (map dbRef db)).
  { eapply Permutation_in; [exact Hp|]. unfold outcomeRefs.
    apply in_or_app. right. now apply in_map. }
  apply in_map_iff in Hin as (d & Hd & Hdb).
  specialize (E d Hdb). unfold validDateb. rewrite <- Hd. exact E.
Qed.

(** X13: with fuel above the number of internal records, [verifyMessages]
    ends.  It throws only when details are included and some internal record
    has no valid sent date.  Otherwise the report's totals agree with the
    inputs: [totalMessagesInDB] is the number of internal records,
    [totalMessagesInAPI] the number of messages of the successful responses,
    matched plus unmatched is [totalMessagesInDB], the fetch errors are passed
    on, and the details list as many outcomes as the summary counts. *)
Theorem verification_report_totals fuel params numbers db resp :
  (List.length db < fuel)%nat ->
  exists res,
    VerificationService.verifyMessages fuel params numbers db resp = Some res /\
    match res with
    | Ok v =>
        let s := VerificationService.summary (VerificationService.report v) in
        VerificationService.verificationSuccess v = true /\
        VerificationService.verificationErrors v
          = VerificationService.errors resp /\
        VerificationService.totalMessagesInDB s = List.length db /\
        VerificationService.totalMessagesInAPI s
          = List.length (VerificationService.flattenApiMessages
                           (VerificationService.responses resp)) /\
        (VerificationService.matchedMessages s
         + VerificationService.unmatchedMessages s = List.length db)%nat /\
        VerificationService.phoneNumbersVerified s = List.length numbers /\
        match VerificationService.details (VerificationService.report v) with
        | Some dt =>
            VerificationService.includeDetails params <> Some false /\
            List.length (VerificationService.detailsMatched dt)
              = VerificationService.matchedMessages s /\
            List.length (VerificationService.detailsUnmatched dt)
              = VerificationService.unmatchedMessages s
        | None => VerificationService.includeDetails params = Some false
        end
    | Throw e =>
        VerificationService.includeDetails params <> Some false /\
        forallb validSentDate db = false /\
        e = RangeError "Invalid time value"
    end.
Proof.
  intro Hfuel. unfold VerificationService.verifyMessages.
  set (api := VerificationService.flattenApiMessages
                (VerificationService.responses resp)).
  change (batchMatchMessages StringSimilarity.compareTwoStrings fuel db api None)
    with (batchMatchMessages StringSimilarity.compareTwoStrings fuel db api
            (Some MATCHING.BATCH_SIZE)).
  destruct (batchMatchMessages_spec StringSimilarity.compareTwoStrings db api
              MATCHING.BATCH_SIZE)
    as (rs & r & _ & _ & Hrun & Hc & Htd); [unfold MATCHING.BATCH_SIZE; lia|].
  destruct (batchMatchMessages_stats StringSimilarity.compareTwoStrings db api
              MATCHING.BATCH_SIZE)
    as (rs' & r' & _ & Hrun' & _ & _ & _ & _ & Hta);
    [unfold MATCHING.BATCH_SIZE; lia|].
  assert (r' = r).
  { specialize (Hrun fuel Hfuel). specialize (Hrun' fuel Hfuel).
    rewrite Hrun in Hrun'.
    change (match Some (Ok r') with Some (Ok v) => v | _ => r end = r).
    now rewrite <- Hrun'. }
  subst r'. rewrite (Hrun fuel Hfuel).
  eexists. split; [reflexivity|].
  destruct Hc as (Hmc & Huc & Hp & _).
  assert (Hlen : (List.length (Results.matched r)
                  + List.length (Results.unmatched r) = List.length db)%nat).
  { apply Permutation_length in Hp. unfold outcomeRefs in Hp.
    now rewrite length_app, !length_map in Hp. }
  pose proof (report_shape :=
    groupByDateFrom_spec (Results.unmatched r) [] [] (groupsOf_nil dateKey)).
  unfold VerificationService.generateVerificationReport,
    VerificationService.groupUnmatchedByDate.
  destruct (VerificationService.includeDetails params) as [[|]|] eqn:Einc.
  - destruct (VerificationService.groupByDateFrom [] (Results.unmatched r))
      as [g | e]; simpl.
    + repeat split; auto; try congruence; try lia; discriminate.
    + destruct report_shape as [Hv ->].
      split; [discriminate|]. split; [|reflexivity].
      eapply invalid_outcome_invalid_record; eauto.
  - simpl. repeat split; auto; try congruence; lia.
  - destruct (VerificationService.groupByDateFrom [] (Results.unmatched r))
      as [g | e]; simpl.
    + repeat split; auto; try congruence; try lia; discriminate.
    + destruct report_shape as [Hv ->].
      split; [discriminate|]. split; [|reflexivity].
      eapply invalid_outcome_invalid_record; eauto.
Qed.

Lemma verification_report_totals_witness :
  (List.length sampleDb < 4)%nat /\
  exists res,
    VerificationService.verifyMessages 4
      {| VerificationService.dateFrom := "2025-01-01";
         VerificationService.dateTo := "2025-01-31";
         VerificationService.matchingThreshold := None;
         VerificationService.includeDetails := None |}
      ["15550100"%string] sampleDb
      {| VerificationService.responses :=
           [ {| VerificationService.success := true;
                VerificationService.messages := Some samplePool |} ];
         VerificationService.errors := [] |}
    = Some res /\
    match res with
    | Ok v =>
        let s := VerificationService.summary (VerificationService.report v) in
        VerificationService.verificationSuccess v = true /\
        VerificationService.verificationErrors v = [] /\
        VerificationService.totalMessagesInDB s = List.length sampleDb /\
        VerificationService.totalMessagesInAPI s
          = List.length (VerificationService.flattenApiMessages
                           [ {| VerificationService.success := true;
                                VerificationService.messages :=
                                  Some samplePool |} ]) /\
        (VerificationService.matchedMessages s
         + VerificationService.unmatchedMessages s
         = List.length sampleDb)%nat /\
        VerificationService.phoneNumbersVerified s = 1%nat /\
        match VerificationService.details (VerificationService.report v) with
        | Some dt =>
            @None bool <> Some false /\
            List.length (VerificationService.detailsMatched dt)
              = VerificationService.matchedMessages s /\
            List.length (VerificationService.detailsUnmatched dt)
              = VerificationService.unmatchedMessages s
        | None => @None bool = Some false
        end
    | Throw e =>
        @None bool <> Some false /\
        forallb validSentDate sampleDb = false /\
        e = RangeError "Invalid time value"
    end.
Proof.
  assert (H : (List.length sampleDb < 4)%nat) by (simpl; lia).
  refine (conj H _).
  exact (verification_report_totals 4
           {| VerificationService.dateFrom := "2025-01-01";
              VerificationService.dateTo := "2025-01-31";
              VerificationService.matchingThreshold := None;
              VerificationService.includeDetails := None |}
           ["15550100"%string] sampleDb
           {| VerificationService.responses :=
                [ {| VerificationService.success := true;
                     VerificationService.messages := Some samplePool |} ];
              VerificationService.errors := [] |} H).
Defined.

(** ** More on the normalizer and the matcher *)

Lemma toLowerCaseChar_idem c :
  toLowerCaseChar (toLowerCaseChar c) = toLowerCaseChar c.
Proof. each_char c. Qed.

Lemma toLowerCase_idem s : toLowerCase (toLowerCase s) = toLowerCase s.
Proof.
  induction s as [|c r IH]; simpl; [reflexivity|].
  now rewrite toLowerCaseChar_idem, IH.
Qed.

(** X14: a normalized text is made of lower-case letters, digits, underscores
    and single-byte spaces only, has no white space at either end, is not
    longer than the input, and does not depend on the case of the input. *)
Theorem normalized_text_shape s :
  allChars cleanChar (normalizeString s) = true /\
  startsTight (normalizeString s) = true /\
  trim (normalizeString s) = normalizeString s /\
  (String.length (normalizeString s) <= String.length s)%nat /\
  normalizeString (toLowerCase s) = normalizeString s.
Proof.
  split; [apply normalizeString_clean|].
  split; [unfold normalizeString, trim;
          apply trimEnd_startsTight, trimStart_startsTight|].
  split; [apply normalizeString_trimmed|].
  split; [apply length_normalizeString|].
  unfold normalizeString. now rewrite toLowerCase_idem.
Qed.

Section OrderProps.

Variable cmp : string -> string -> float.

Lemma Interleaved_snoc_left {A} (x : A) l1 l2 l :
  Interleaved l1 l2 l -> Interleaved (l1 ++ [x]) l2 (l ++ [x]).
Proof.
  induction 1; simpl; repeat constructor; auto.
Qed.

Lemma Interleaved_snoc_right {A} (x : A) l1 l2 l :
  Interleaved l1 l2 l -> Interleaved l1 (l2 ++ [x]) (l ++ [x]).
Proof.
  induction 1; simpl; repeat constructor; auto.
Qed.

Lemma Interleaved_app {A} (a b l a' b' l' : list A) :
  Interleaved a b l -> Interleaved a' b' l' ->
  Interleaved (a ++ a') (b ++ b') (l ++ l').
Proof.
  induction 1; simpl; intro H'; [exact H'| |]; constructor; auto.
Qed.

Lemma order_step api done st d st' :
  inRecordOrder done (results st) /\
  Forall bothTextsPresent (Results.matched (results st)) ->
  processDbMessage cmp api st d = Ok st' ->
  inRecordOrder (done ++ [d]) (results st') /\
  Forall bothTextsPresent (Results.matched (results st')).
Proof.
  intros [Ho Ht] Hstep.
  destruct (processDbMessage_cases cmp api st d)
    as [(a & i & s & H & _ & _ & _ & Hthr & Hs) | H];
    rewrite H in Hstep; injection Hstep as <-; unfold inRecordOrder; simpl;
    rewrite !map_app; simpl.
  - split; [now apply Interleaved_snoc_left|].
    apply Forall_app. split; [exact Ht|]. constructor; [|constructor].
    unfold bothTextsPresent. simpl.
    destruct (truthy (DbMessage.message d)) eqn:E1.
    + destruct (truthy (orText (ApiMessage.message a) (ApiMessage.body a)))
        eqn:E2; [auto|].
      rewrite (calculateSimilarity_falsy_r cmp _ _ E2) in Hs.
      assert (s = 0%float).
      { change (match Ok (A := float) s with Ok v => v | Throw _ => s end
                = 0%float). now rewrite <- Hs. }
      subst s. vm_compute in Hthr. discriminate.
    + rewrite (calculateSimilarity_falsy_l cmp _ _ E1) in Hs.
      assert (s = 0%float).
      { change (match Ok (A := float) s with Ok v => v | Throw _ => s end
                = 0%float). now rewrite <- Hs. }
      subst s. vm_compute in Hthr. discriminate.
  - split; [now apply Interleaved_snoc_right|exact Ht].
Qed.

Lemma matchMessages_order db api :
  exists r,
    matchMessages cmp db api = Ok r /\
    inRecordOrder db r /\ Forall bothTextsPresent (Results.matched r).
Proof.
  destruct (matchLoop_invariant cmp
              (fun done st =>
                 inRecordOrder done (results st) /\
                 Forall bothTextsPresent (Results.matched (results st))) api)
    with (db := db) (done := @nil DbMessage.t) (st := initialState db api)
    as (st & Hrun & Ho & Ht).
  - intros done st d st' Hinv Hstep. eapply order_step; eauto.
  - split; [constructor|constructor].
  - exists (withAverageConfidence (results st)).
    unfold matchMessages. rewrite Hrun. simpl. split; [reflexivity|].
    destruct (withAverageConfidence_keeps (results st)) as (E1 & E2 & _).
    unfold inRecordOrder. rewrite E1, E2. auto.
Qed.

Lemma batches_order api cs rs :
  Forall2 (fun c r => matchMessages cmp c api = Ok r) cs rs ->
  Interleaved
    (map Matched.dbMessage (List.concat (map Results.matched rs)))
    (map Unmatched.dbMessage (List.concat (map Results.unmatched rs)))
    (map dbRef (List.concat cs)) /\
  Forall bothTextsPresent (List.concat (map Results.matched rs)).
Proof.
  induction 1 as [|c r cs rs Hr _ [IH1 IH2]]; simpl.
  - split; constructor.
  - destruct (matchMessages_order c api) as (r' & Hr' & Ho & Ht).
    assert (r' = r) by congruence. subst r'.
    rewrite !map_app. split; [now apply Interleaved_app|].
    apply Forall_app. auto.
Qed.

End OrderProps.

(** X15: the outcomes keep the order of the internal records: the Matched
    list and the Unmatched list, merged, give the records in their input
    order -- in the result of [matchMessages] and in the merged result of
    [batchMatchMessages] with any batch size of at least 1. *)
Theorem outcomes_in_record_order cmp db api (p : positive) :
  (exists r, matchMessages cmp db api = Ok r /\ inRecordOrder db r) /\
  (exists r,
     batchMatchMessages cmp (S (List.length db)) db api (Some (Zpos p))
       = Some (Ok r) /\
     inRecordOrder db r).
Proof.
  split.
  - destruct (matchMessages_order cmp db api) as (r & Hr & Ho & _). eauto.
  - destruct (batchMatchMessages_stats cmp db api (Zpos p))
      as (rs & r & Hrs & Hrun & _ & Hm & Hu & _); [lia|].
    exists r. split; [apply Hrun; lia|].
    destruct (batches_order cmp api _ _ Hrs) as [Ho _].
    rewrite concat_chunks in Ho by lia.
    unfold inRecordOrder. now rewrite Hm, Hu.
Qed.

(** X16: a record without text is never matched: in every Matched outcome
    the internal message and the external message are non-empty strings, since
    the scorer gives 0 when either is null, absent or empty -- in the result
    of [matchMessages] and in the merged result of [batchMatchMessages]. *)
Theorem matched_texts_are_present cmp db api (p : positive) :
  (exists r,
     matchMessages cmp db api = Ok r /\
     Forall bothTextsPresent (Results.matched r)) /\
  (exists r,
     batchMatchMessages cmp (S (List.length db)) db api (Some (Zpos p))
       = Some (Ok r) /\
     Forall bothTextsPresent (Results.matched r)).
Proof.
  split.
  - destruct (matchMessages_order cmp db api) as (r & Hr & _ & Ht). eauto.
  - destruct (batchMatchMessages_stats cmp db api (Zpos p))
      as (rs & r & Hrs & Hrun & _ & Hm & _); [lia|].
    exists r. split; [apply Hrun; lia|].
    destruct (batches_order cmp api _ _ Hrs) as [_ Ht]. now rewrite Hm.
Qed.

(** ** Gathering the provider's messages *)

Section GatherProps.

Import WhatsAppApi.

Variable fetchRecentChats : nat -> string -> Fetched (list Conversation).
Variable fetchByPhone : nat -> string -> option PhoneResponse.
Variable clock : nat -> nat -> Z.

Lemma strictEq_eq a b : strictEq a b = true <-> a = b.
Proof.
  destruct a as [| |s], b as [| |t]; simpl; split; intro H;
    try reflexivity; try discriminate.
  - apply String.eqb_eq in H. now subst.
  - injection H as ->. apply String.eqb_refl.
Qed.

Lemma strictEq_refl a : strictEq a a = true.
Proof. now apply strictEq_eq. Qed.

Lemma strictEq_sym a b : strictEq a b = strictEq b a.
Proof.
  destruct (strictEq a b) eqn:E.
  - apply strictEq_eq in E. subst. symmetry. apply strictEq_refl.
  - destruct (strictEq b a) eqn:E'; [|reflexivity].
    apply strictEq_eq in E'. subst. now rewrite strictEq_refl in E.
Qed.

Lemma foundHas_in found p : foundHas found p = true <-> In p found.
Proof.
  unfold foundHas. rewrite existsb_exists. split.
  - intros (q & Hq & E). apply strictEq_eq in E. now subst.
  - intro H. exists p. split; [exact H|apply strictEq_refl].
Qed.

Lemma in_snoc_or {A : Type} (l : list A) (p q : A) (b : bool) :
  (b = true -> In p l) ->
  (In q (if b then l else l ++ [p]) <-> In q l \/ q = p).
Proof.
  intro Hb. destruct b.
  - split; [auto|]. intros [H | ->]; auto.
  - rewrite in_app_iff. simpl. intuition congruence.
Qed.

Lemma in_foundAdd found p q : In q (foundAdd found p) <-> In q found \/ q = p.
Proof.
  unfold foundAdd. apply in_snoc_or. apply foundHas_in.
Qed.

Lemma includes_in phoneNumbers p :
  includes phoneNumbers p = true <-> requested phoneNumbers p.
Proof.
  unfold includes, requested. rewrite existsb_exists. split.
  - intros (q & Hq & E). apply strictEq_eq in E. eauto.
  - intros (q & Hq & ->). exists q. split; [exact Hq|apply strictEq_refl].
Qed.

Lemma addMessages_numbers all p ms :
  entryNumbers (addMessages all p ms)
  = if foundHas (entryNumbers all) p
    then entryNumbers all else entryNumbers all ++ [p].
Proof.
  unfold foundHas, entryNumbers.
  induction all as [|m rest IH]; simpl; [reflexivity|].
  rewrite (strictEq_sym p (phoneNumber m)).
  destruct (strictEq (phoneNumber m) p) eqn:E; simpl; [reflexivity|].
  rewrite IH.
  now destruct (existsb (strictEq p) (map phoneNumber rest)).
Qed.

Lemma addMessages_success all p ms :
  Forall (fun e => success e = true) all ->
  Forall (fun e => success e = true) (addMessages all p ms).
Proof.
  induction 1 as [|m rest Hm Hrest IH]; simpl.
  - repeat constructor.
  - destruct (strictEq (phoneNumber m) p); constructor; simpl; auto.
Qed.

Lemma in_addMessages_numbers all p ms q :
  In q (entryNumbers (addMessages all p ms))
  <-> In q (entryNumbers all) \/ q = p.
Proof.
  rewrite addMessages_numbers. apply in_snoc_or. apply foundHas_in.
Qed.

Lemma NoDup_snoc {A : Type} (l : list A) (p : A) :
  NoDup l -> ~ In p l -> NoDup (l ++ [p]).
Proof.
  induction 1 as [|x l Hx Hl IH]; simpl; intro Hp.
  - repeat constructor. auto.
  - constructor.
    + rewrite in_app_iff. simpl. intuition congruence.
    + apply IH. auto.
Qed.

Lemma NoDup_addMessages all p ms :
  NoDup (entryNumbers all) ->
  NoDup (entryNumbers (addMessages all p ms)).
Proof.
  intro H. rewrite addMessages_numbers.
  destruct (foundHas (entryNumbers all) p) eqn:E; [exact H|].
  apply NoDup_snoc; [exact H|].
  intro Hq. apply foundHas_in in Hq. congruence.
Qed.

(** *** The loop over the users *)

Lemma length_eqb_nil {A : Type} (l : list A) :
  (List.length l =? 0)%nat = true <-> l = [].
Proof.
  destruct l; simpl; split; intro H; try reflexivity; discriminate.
Qed.

Lemma processConversation_gathered phoneNumbers st conversation :
  gathered phoneNumbers st ->
  gathered phoneNumbers (processConversation phoneNumbers st conversation).
Proof.
  intros (Hs & Hn & Hf & Hr). unfold processConversation.
  destruct ((List.length phoneNumbers =? 0)%nat
            || includes phoneNumbers (phoneNumberOf conversation)) eqn:E;
    [|exact (conj Hs (conj Hn (conj Hf Hr)))].
  split; [|split; [|split]]; simpl.
  - now apply addMessages_success.
  - now apply NoDup_addMessages.
  - intro q. rewrite in_foundAdd, in_addMessages_numbers, Hf. reflexivity.
  - intros Hne q Hq. apply in_addMessages_numbers in Hq.
    destruct Hq as [Hq | ->]; [now apply Hr|].
    apply orb_true_iff in E. destruct E as [E | E].
    + apply length_eqb_nil in E. contradiction.
    + now apply includes_in.
Qed.

Lemma processConversation_errors phoneNumbers st conversation :
  errors (processConversation phoneNumbers st conversation) = errors st.
Proof.
  unfold processConversation.
  now destruct ((List.length phoneNumbers =? 0)%nat
                || includes phoneNumbers (phoneNumberOf conversation)).
Qed.

Lemma conversations_gathered phoneNumbers apiResponse st :
  gathered phoneNumbers st ->
  gathered phoneNumbers
    (fold_left (processConversation phoneNumbers) apiResponse st).
Proof.
  revert st. induction apiResponse as [|c r IH]; simpl; intros st H;
    [exact H|].
  apply IH. now apply processConversation_gathered.
Qed.

Lemma conversations_errors phoneNumbers apiResponse st :
  errors (fold_left (processConversation phoneNumbers) apiResponse st)
  = errors st.
Proof.
  revert st. induction apiResponse as [|c r IH]; simpl; intro st;
    [reflexivity|].
  rewrite IH. apply processConversation_errors.
Qed.

Lemma fetchRecent_gathered phoneNumbers userIds k st :
  gathered phoneNumbers st ->
  gathered phoneNumbers
    (fetchRecent fetchRecentChats phoneNumbers k userIds st).
Proof.
  revert k st. induction userIds as [|u r IH]; simpl; intros k st H;
    [exact H|].
  apply IH. destruct (fetchRecentChats k u) as [apiResponse|message].
  - now apply conversations_gathered.
  - exact H.
Qed.

Lemma fetchRecent_errors phoneNumbers userIds k st :
  errors (fetchRecent fetchRecentChats phoneNumbers k userIds st)
  = errors st ++ failedUsers fetchRecentChats k userIds.
Proof.
  revert k st. induction userIds as [|u r IH]; simpl; intros k st.
  - now rewrite app_nil_r.
  - rewrite IH. destruct (fetchRecentChats k u) as [apiResponse|message].
    + now rewrite conversations_errors.
    + simpl. now rewrite <- app_assoc.
Qed.

(** *** The loop over the missing phone numbers *)

Lemma fetchMissing_errors missing k st :
  errors (fetchMissing fetchByPhone clock k missing st) = errors st.
Proof.
  revert k st. induction missing as [|p r IH]; simpl; intros k st;
    [reflexivity|].
  rewrite IH. now destruct (fetchByPhone k p).
Qed.

Lemma fetchMissing_success missing k st :
  Forall (fun e => success e = true) (allMessages st) ->
  Forall (fun e => success e = true)
         (allMessages (fetchMissing fetchByPhone clock k missing st)).
Proof.
  revert k st. induction missing as [|p r IH]; simpl; intros k st H;
    [exact H|].
  apply IH. destruct (fetchByPhone k p); simpl.
  - now apply addMessages_success.
  - apply Forall_app. split; [exact H|]. now repeat constructor.
Qed.

Lemma fetchMissing_numbers missing k st q :
  In q (entryNumbers (allMessages (fetchMissing fetchByPhone clock k missing st)))
  <-> In q (entryNumbers (allMessages st)) \/ requested missing q.
Proof.
  revert k st. induction missing as [|p r IH]; simpl; intros k st.
  - split; [auto|]. intros [H | (p & [] & _)]. exact H.
  - rewrite IH. unfold requested.
    assert (Hstep :
      In q (entryNumbers (allMessages
        match fetchByPhone k p with
        | Some phoneResponse =>
            {| allMessages :=
                 addMessages (allMessages st) (JString p)
                   (match dataMessages phoneResponse with
                    | Some l =>
                        mapIndexed (fun i => transformByPhone (clock k i)) 0 l
                    | None => []
                    end);
               errors := errors st;
               foundPhoneNumbers :=
                 foundAdd (foundPhoneNumbers st) (JString p) |}
        | None =>
            {| allMessages :=
                 allMessages st ++
                 [ {| phoneNumber := JString p; messages := [];
                      success := true |} ];
               errors := errors st;
               foundPhoneNumbers := foundPhoneNumbers st |}
        end))
      <-> In q (entryNumbers (allMessages st)) \/ q = JString p).
    { destruct (fetchByPhone k p); simpl.
      - apply in_addMessages_numbers.
      - unfold entryNumbers. rewrite map_app, in_app_iff. simpl.
        intuition congruence. }
    rewrite Hstep. split.
    + intros [[H | ->] | (p' & Hp' & ->)].
      * left. exact H.
      * right. exists p. split; [now left|reflexivity].
      * right. exists p'. split; [now right|reflexivity].
    + intros [H | (p' & [<- | Hp'] & ->)].
      * left. left. exact H.
      * left. right. reflexivity.
      * right. exists p'. split; [exact Hp'|reflexivity].
Qed.

Lemma fetchMissing_distinct missing k st :
  NoDup (entryNumbers (allMessages st)) ->
  NoDup missing ->
  (forall p, In p missing -> ~ In (JString p) (entryNumbers (allMessages st))) ->
  NoDup (entryNumbers
           (allMessages (fetchMissing fetchByPhone clock k missing st))).
Proof.
  revert k st. induction missing as [|p r IH]; simpl; intros k st Hn Hm Hfresh;
    [exact Hn|].
  apply NoDup_cons_iff in Hm. destruct Hm as [Hp Hm].
  assert (Hnew : ~ In (JString p) (entryNumbers (allMessages st)))
    by (apply Hfresh; auto).
  apply IH; [| exact Hm |].
  - destruct (fetchByPhone k p); simpl.
    + now apply NoDup_addMessages.
    + unfold entryNumbers. rewrite map_app. simpl.
      now apply NoDup_snoc.
  - intros p' Hp' Hin.
    assert (Hold : In (JString p') (entryNumbers (allMessages st))
                   \/ JString p' = JString p).
    { destruct (fetchByPhone k p); simpl in Hin.
      - now apply in_addMessages_numbers in Hin.
      - unfold entryNumbers in Hin. rewrite map_app, in_app_iff in Hin.
        simpl in Hin. intuition congruence. }
    destruct Hold as [Hold | Heq].
    + apply (Hfresh p'); auto.
    + injection Heq as ->. contradiction.
Qed.

Lemma gathered_initial phoneNumbers :
  gathered phoneNumbers
    {| allMessages := []; errors := []; foundPhoneNumbers := [] |}.
Proof.
  split; [constructor|]. split; [constructor|]. split.
  - intro q. reflexivity.
  - intros _ q [].
Qed.

Lemma ltb_length_nil {A : Type} (l : list A) :
  (0 <? List.length l)%nat = false <-> l = [].
Proof.
  destruct l; simpl; split; intro H; try reflexivity; discriminate.
Qed.

(** *** The messages of the entries *)

Lemma addMessages_messages all p ms (P : ApiMessage.t -> Prop) :
  Forall P (entryMessages all) -> Forall P ms ->
  Forall P (entryMessages (addMessages all p ms)).
Proof.
  unfold entryMessages. intros Hall Hms.
  induction all as [|m rest IH]; simpl.
  - rewrite app_nil_r. exact Hms.
  - simpl in Hall. apply Forall_app in Hall. destruct Hall as [Hm Hrest].
    destruct (strictEq (phoneNumber m) p); simpl.
    + apply Forall_app. split; [|exact Hrest].
      apply Forall_app. split; assumption.
    + apply Forall_app. split; [exact Hm|]. now apply IH.
Qed.

Lemma transformRecent_fromProvider l :
  Forall fromProvider (mapOrEmpty transformRecent l).
Proof.
  destruct l as [l|]; simpl; [|constructor].
  induction l as [|m r IH]; simpl; constructor; [|exact IH].
  repeat split. discriminate.
Qed.

Lemma transformByPhone_fromProvider k i l :
  Forall fromProvider (mapIndexed (fun i => transformByPhone (clock k i)) i l).
Proof.
  revert i. induction l as [|m r IH]; simpl; intro i; constructor;
    [|apply IH].
  repeat split. discriminate.
Qed.

Lemma fetchRecent_messages phoneNumbers userIds k st :
  Forall fromProvider (entryMessages (allMessages st)) ->
  Forall fromProvider
    (entryMessages
       (allMessages (fetchRecent fetchRecentChats phoneNumbers k userIds st))).
Proof.
  revert k st. induction userIds as [|u r IH]; simpl; intros k st H;
    [exact H|].
  apply IH. destruct (fetchRecentChats k u) as [apiResponse|message];
    [|exact H].
  clear IH. revert st H.
  induction apiResponse as [|c cs IHc]; simpl; intros st H; [exact H|].
  apply IHc. unfold processConversation.
  destruct ((List.length phoneNumbers =? 0)%nat
            || includes phoneNumbers (phoneNumberOf c)); [|exact H].
  simpl. apply addMessages_messages; [exact H|].
  apply transformRecent_fromProvider.
Qed.

Lemma fetchMissing_messages missing k st :
  Forall fromProvider (entryMessages (allMessages st)) ->
  Forall fromProvider
    (entryMessages
       (allMessages (fetchMissing fetchByPhone clock k missing st))).
Proof.
  revert k st. induction missing as [|p r IH]; simpl; intros k st H;
    [exact H|].
  apply IH. destruct (fetchByPhone k p) as [phoneResponse|]; simpl.
  - apply addMessages_messages; [exact H|].
    destruct (dataMessages phoneResponse); [|constructor].
    apply transformByPhone_fromProvider.
  - unfold entryMessages. rewrite map_app, concat_app. simpl.
    now rewrite app_nil_r.
Qed.

Lemma flatten_successful entries :
  Forall (fun e => success e = true) entries ->
  VerificationService.flattenApiMessages (map toResponseEntry entries)
  = entryMessages entries.
Proof.
  unfold entryMessages. induction 1 as [|e r He Hr IH]; simpl;
    [reflexivity|].
  now rewrite He, IH.
Qed.

(** *** The whole function *)

Lemma fetch_with_users phoneNumbers userId userIds :
  fetchMessagesForPhoneNumbers fetchRecentChats fetchByPhone clock
    phoneNumbers (Some (userId :: userIds))
  = (allMessages (gatherState fetchRecentChats fetchByPhone clock
       phoneNumbers (userId :: userIds)),
     errors (gatherState fetchRecentChats fetchByPhone clock
       phoneNumbers (userId :: userIds))).
Proof. reflexivity. Qed.

Lemma gatherState_success phoneNumbers userIds :
  Forall (fun e => success e = true)
         (allMessages (gatherState fetchRecentChats fetchByPhone clock
       phoneNumbers userIds)).
Proof.
  unfold gatherState.
  pose proof (fetchRecent_gathered phoneNumbers userIds 0 _
                (gathered_initial phoneNumbers)) as (Hs & _).
  destruct (0 <? List.length phoneNumbers)%nat; [|exact Hs].
  now apply fetchMissing_success.
Qed.

Lemma gatherState_messages phoneNumbers userIds :
  Forall fromProvider
         (entryMessages (allMessages (gatherState fetchRecentChats fetchByPhone clock
       phoneNumbers userIds))).
Proof.
  unfold gatherState.
  assert (H : Forall fromProvider
                (entryMessages
                   (allMessages
                      (fetchRecent fetchRecentChats phoneNumbers 0 userIds
                         {| allMessages := []; errors := [];
                            foundPhoneNumbers := [] |})))).
  { apply fetchRecent_messages. constructor. }
  destruct (0 <? List.length phoneNumbers)%nat; [|exact H].
  now apply fetchMissing_messages.
Qed.

Lemma gatherState_errors phoneNumbers userIds :
  errors (gatherState fetchRecentChats fetchByPhone clock
       phoneNumbers userIds)
  = failedUsers fetchRecentChats 0 userIds.
Proof.
  unfold gatherState.
  destruct (0 <? List.length phoneNumbers)%nat;
    [rewrite fetchMissing_errors|]; now rewrite fetchRecent_errors.
Qed.

Lemma gatherState_numbers phoneNumbers userIds q :
  phoneNumbers <> [] ->
  In q (entryNumbers (allMessages (gatherState fetchRecentChats fetchByPhone clock
       phoneNumbers userIds)))
  <-> requested phoneNumbers q.
Proof.
  intro Hne. unfold gatherState.
  pose proof (fetchRecent_gathered phoneNumbers userIds 0 _
                (gathered_initial phoneNumbers)) as (_ & _ & Hf & Hr).
  destruct (0 <? List.length phoneNumbers)%nat eqn:E;
    [|apply ltb_length_nil in E; contradiction].
  rewrite fetchMissing_numbers. split.
  - intros [H | (p & Hp & ->)]; [now apply Hr|].
    apply filter_In in Hp. exists p. split; [apply Hp|reflexivity].
  - intros (p & Hp & ->).
    destruct (foundHas
                (foundPhoneNumbers
                   (fetchRecent fetchRecentChats phoneNumbers 0 userIds
                      {| allMessages := []; errors := [];
                         foundPhoneNumbers := [] |}))
                (JString p)) eqn:Ef.
    + left. apply Hf. now apply foundHas_in.
    + right. exists p. split; [|reflexivity].
      apply filter_In. split; [exact Hp|]. now rewrite Ef.
Qed.

Lemma gatherState_distinct phoneNumbers userIds :
  NoDup phoneNumbers ->
  NoDup (entryNumbers (allMessages (gatherState fetchRecentChats fetchByPhone clock
       phoneNumbers userIds))).
Proof.
  intro Hnd. unfold gatherState.
  pose proof (fetchRecent_gathered phoneNumbers userIds 0 _
                (gathered_initial phoneNumbers)) as (_ & Hn & Hf & _).
  destruct (0 <? List.length phoneNumbers)%nat; [|exact Hn].
  apply fetchMissing_distinct; [exact Hn|now apply NoDup_filter|].
  intros p Hp Hin. apply filter_In in Hp. destruct Hp as [_ Hp].
  apply Hf, foundHas_in in Hin. now rewrite Hin in Hp.
Qed.

Lemma replaceFirst_suffix n :
  allChars notAt n = true ->
  replaceFirst "@c.us" "" (n ++ "@c.us") = n.
Proof.
  induction n as [|c r IH]; intro H.
  - reflexivity.
  - simpl in H. apply andb_true_iff in H. destruct H as [Hc Hr].
    cbn [String.append replaceFirst].
    assert (Hp : String.prefix "@c.us" (String c (r ++ "@c.us")) = false).
    { cbn [String.prefix]. unfold notAt in Hc.
      destruct (ascii_dec "@" c) as [<-|Hne]; [discriminate|reflexivity]. }
    rewrite Hp. now rewrite IH.
Qed.

End GatherProps.

(** X17: when numbers are requested and at least one user id is given, the
    entries of [fetchMessagesForPhoneNumbers] are for the requested numbers
    and for nothing else: every requested number has an entry, whatever the
    fetches answer (a number found nowhere gets an entry without messages),
    and no entry is for another number. *)
Theorem entries_are_the_requested_numbers
    (fetchRecentChats :
       nat -> string -> WhatsAppApi.Fetched (list WhatsAppApi.Conversation))
    (fetchByPhone : nat -> string -> option WhatsAppApi.PhoneResponse)
    (clock : nat -> nat -> Z)
    (phoneNumbers : list string) (userId : string) (userIds : list string)
    (q : JS.JsText) :
  phoneNumbers <> [] ->
  In q (entryNumbers
          (fst (WhatsAppApi.fetchMessagesForPhoneNumbers fetchRecentChats
                  fetchByPhone clock phoneNumbers (Some (userId :: userIds)))))
  <-> requested phoneNumbers q.
Proof.
  intro Hne. rewrite fetch_with_users. simpl fst.
  now apply gatherState_numbers.
Qed.

Lemma entries_are_the_requested_numbers_witness :
  ["60123"; "60456"]%string <> [] /\
  (In (JS.JString "60456")
      (entryNumbers
         (fst (WhatsAppApi.fetchMessagesForPhoneNumbers sampleChats
                 sampleByPhone sampleClock ["60123"; "60456"]%string
                 (Some ["u1"]%string))))
   <-> requested ["60123"; "60456"]%string (JS.JString "60456")).
Proof.
  assert (H : ["60123"; "60456"]%string <> []) by discriminate.
  refine (conj H _).
  exact (entries_are_the_requested_numbers sampleChats sampleByPhone
           sampleClock ["60123"; "60456"]%string "u1"%string []
           (JS.JString "60456") H).
Defined.

(** X18: when the requested numbers are pairwise distinct (or none is
    requested), no two entries of [fetchMessagesForPhoneNumbers] are for the
    same phone number: the messages of a number found with several users or
    in several conversations are merged into one entry. *)
Theorem entries_have_distinct_numbers
    (fetchRecentChats :
       nat -> string -> WhatsAppApi.Fetched (list WhatsAppApi.Conversation))
    (fetchByPhone : nat -> string -> option WhatsAppApi.PhoneResponse)
    (clock : nat -> nat -> Z)
    (phoneNumbers : list string) (userIds : option (list string)) :
  NoDup phoneNumbers ->
  NoDup (entryNumbers
           (fst (WhatsAppApi.fetchMessagesForPhoneNumbers fetchRecentChats
                   fetchByPhone clock phoneNumbers userIds))).
Proof.
  intro Hnd. destruct userIds as [[|userId userIds]|];
    try (simpl; constructor).
  rewrite fetch_with_users. simpl fst.
  now apply gatherState_distinct.
Qed.

Lemma entries_have_distinct_numbers_witness :
  NoDup ["60123"; "60456"]%string /\
  NoDup (entryNumbers
           (fst (WhatsAppApi.fetchMessagesForPhoneNumbers sampleChats
                   sampleByPhone sampleClock ["60123"; "60456"]%string
                   (Some ["u1"; "u2"]%string)))).
Proof.
  assert (H : NoDup ["60123"; "60456"]%string).
  { constructor.
    - simpl. intros [E | []]. discriminate E.
    - constructor; [intros []|constructor]. }
  refine (conj H _).
  exact (entries_have_distinct_numbers sampleChats sampleByPhone sampleClock
           ["60123"; "60456"]%string (Some ["u1"; "u2"]%string) H).
Defined.

(** X19: when the requested numbers are pairwise distinct, not empty, and at
    least one user id is given, [fetchMessagesForPhoneNumbers] returns exactly
    one entry per requested number: the numbers of the entries are a
    rearrangement of the requested numbers, and there are as many entries as
    requested numbers. *)
Theorem one_entry_per_requested_number
    (fetchRecentChats :
       nat -> string -> WhatsAppApi.Fetched (list WhatsAppApi.Conversation))
    (fetchByPhone : nat -> string -> option WhatsAppApi.PhoneResponse)
    (clock : nat -> nat -> Z)
    (phoneNumbers : list string) (userId : string) (userIds : list string) :
  phoneNumbers <> [] ->
  NoDup phoneNumbers ->
  Permutation
    (entryNumbers
       (fst (WhatsAppApi.fetchMessagesForPhoneNumbers fetchRecentChats
               fetchByPhone clock phoneNumbers (Some (userId :: userIds)))))
    (map JS.JString phoneNumbers) /\
  List.length
    (fst (WhatsAppApi.fetchMessagesForPhoneNumbers fetchRecentChats
            fetchByPhone clock phoneNumbers (Some (userId :: userIds))))
  = List.length phoneNumbers.
Proof.
  intros Hne Hnd. rewrite fetch_with_users. simpl fst.
  assert (HP : Permutation
                 (entryNumbers
                    (WhatsAppApi.allMessages
                       (gatherState fetchRecentChats fetchByPhone clock
                          phoneNumbers (userId :: userIds))))
                 (map JS.JString phoneNumbers)).
  { apply NoDup_Permutation.
    - now apply gatherState_distinct.
    - clear Hne. induction Hnd as [|p l Hp Hl IH]; simpl; constructor;
        [|exact IH].
      intro Hin. apply in_map_iff in Hin. destruct Hin as (p' & E & Hp').
      injection E as ->. contradiction.
    - intro q. rewrite (gatherState_numbers _ _ _ _ _ _ Hne).
      unfold requested. rewrite in_map_iff. split.
      + intros (p & Hp & ->). eauto.
      + intros (p & <- & Hp). eauto. }
  split; [exact HP|].
  apply Permutation_length in HP. unfold entryNumbers in HP.
  now rewrite !length_map in HP.
Qed.

Lemma one_entry_per_requested_number_witness :
  ["60123"; "60456"]%string <> [] /\
  NoDup ["60123"; "60456"]%string /\
  Permutation
    (entryNumbers
       (fst (WhatsAppApi.fetchMessagesForPhoneNumbers sampleChats
               sampleByPhone sampleClock ["60123"; "60456"]%string
               (Some ["u1"; "u2"]%string))))
    (map JS.JString ["60123"; "60456"]%string) /\
  List.length
    (fst (WhatsAppApi.fetchMessagesForPhoneNumbers sampleChats
            sampleByPhone sampleClock ["60123"; "60456"]%string
            (Some ["u1"; "u2"]%string)))
  = List.length ["60123"; "60456"]%string.
Proof.
  assert (H1 : ["60123"; "60456"]%string <> []) by discriminate.
  assert (H2 : NoDup ["60123"; "60456"]%string).
  { constructor.
    - simpl. intros [E | []]. discriminate E.
    - constructor; [intros []|constructor]. }
  refine (conj H1 (conj H2 _)).
  exact (one_entry_per_requested_number sampleChats sampleByPhone sampleClock
           ["60123"; "60456"]%string "u1"%string ["u2"%string] H1 H2).
Defined.

(** X20: the errors of [fetchMessagesForPhoneNumbers].  Without user ids
    (missing, null or empty) the result has no entry and the single error
    'No user IDs provided'.  Otherwise the errors are, in the order of the
    user ids, one record per user whose fetch of the recent chats threw, with
    that user's id and the message thrown: a failing user does not stop the
    others, and neither the conversations nor the search by phone number add
    an error. *)
Theorem errors_are_the_failed_users
    (fetchRecentChats :
       nat -> string -> WhatsAppApi.Fetched (list WhatsAppApi.Conversation))
    (fetchByPhone : nat -> string -> option WhatsAppApi.PhoneResponse)
    (clock : nat -> nat -> Z)
    (phoneNumbers : list string) (userIds : option (list string)) :
  match userIds with
  | None | Some [] =>
      WhatsAppApi.fetchMessagesForPhoneNumbers fetchRecentChats fetchByPhone
        clock phoneNumbers userIds
      = ([], [ {| WhatsAppApi.errorUserId := None;
                  WhatsAppApi.error := "No user IDs provided" |} ])
  | Some ids =>
      snd (WhatsAppApi.fetchMessagesForPhoneNumbers fetchRecentChats
             fetchByPhone clock phoneNumbers userIds)
      = failedUsers fetchRecentChats 0 ids /\
      (List.length
         (snd (WhatsAppApi.fetchMessagesForPhoneNumbers fetchRecentChats
                 fetchByPhone clock phoneNumbers userIds))
       <= List.length ids)%nat
  end.
Proof.
  destruct userIds as [[|userId userIds]|]; try reflexivity.
  rewrite fetch_with_users. simpl snd. rewrite gatherState_errors.
  split; [reflexivity|].
  generalize 0%nat. induction (userId :: userIds) as [|u r IH]; intro k;
    simpl; [lia|].
  rewrite length_app. specialize (IH (S k)).
  destruct (fetchRecentChats k u); simpl; lia.
Qed.

(** X21: every entry of [fetchMessagesForPhoneNumbers] is flagged as a
    success, so [flattenApiMessages] drops none of them: the pool given to the
    matcher is all the messages of all the entries, in order.  Each of these
    messages has its [message] equal to its [body], a [timestamp] and no
    [sent_date]. *)
Theorem gathered_pool_is_all_messages
    (fetchRecentChats :
       nat -> string -> WhatsAppApi.Fetched (list WhatsAppApi.Conversation))
    (fetchByPhone : nat -> string -> option WhatsAppApi.PhoneResponse)
    (clock : nat -> nat -> Z)
    (phoneNumbers : list string) (userIds : option (list string)) :
  let entries :=
    fst (WhatsAppApi.fetchMessagesForPhoneNumbers fetchRecentChats
           fetchByPhone clock phoneNumbers userIds) in
  Forall (fun e => WhatsAppApi.success e = true) entries /\
  VerificationService.flattenApiMessages
    (map WhatsAppApi.toResponseEntry entries)
  = entryMessages entries /\
  Forall fromProvider (entryMessages entries).
Proof.
  intro entries.
  assert (Hs : Forall (fun e => WhatsAppApi.success e = true) entries /\
               Forall fromProvider (entryMessages entries)).
  { subst entries. destruct userIds as [[|userId userIds]|];
      try (split; constructor).
    rewrite fetch_with_users. simpl fst. split.
    - apply gatherState_success.
    - apply gatherState_messages. }
  destruct Hs as [Hs Hm]. split; [exact Hs|]. split; [|exact Hm].
  now apply flatten_successful.
Qed.

(** X22: the phone number of a conversation that has no [to]: when its chat
    id is a number followed by '@c.us', the number holding no at sign, the
    phone number is that number. *)
Theorem phone_number_from_chat_id
    (conversation : WhatsAppApi.Conversation) (n : string) :
  JS.truthy (WhatsAppApi.to conversation) = false ->
  WhatsAppApi.id conversation = JS.JString (n ++ "@c.us") ->
  allChars notAt n = true ->
  WhatsAppApi.phoneNumberOf conversation = JS.JString n.
Proof.
  intros Hto Hid Hn. unfold WhatsAppApi.phoneNumberOf.
  rewrite Hto, Hid. now rewrite replaceFirst_suffix.
Qed.

Lemma phone_number_from_chat_id_witness :
  JS.truthy (WhatsAppApi.to sampleChat) = false /\
  WhatsAppApi.id sampleChat = JS.JString ("60123" ++ "@c.us") /\
  allChars notAt "60123" = true /\
  WhatsAppApi.phoneNumberOf sampleChat = JS.JString "60123".
Proof.
  assert (H1 : JS.truthy (WhatsAppApi.to sampleChat) = false) by reflexivity.
  assert (H2 : WhatsAppApi.id sampleChat = JS.JString ("60123" ++ "@c.us"))
    by reflexivity.
  assert (H3 : allChars notAt "60123" = true) by reflexivity.
  refine (conj H1 (conj H2 (conj H3 _))).
  exact (phone_number_from_chat_id sampleChat "60123" H1 H2 H3).
Defined.
